(** * Synthetic load shapes and measurement aggregation for OpenDSS circuits

    A shallow embedding of the Python sources that allocate one random state
    per load, pick an ERCOT load profile by phase, build a normalised load
    shape, and aggregate monitor read-outs into wide tables with a channel
    map.

    Conventions of the embedding:
    - Python [str] is [string]; Python [int] is [Z] for seeds and [nat] for
      positions in a list; numpy [float64] samples are exact rationals [Q]
      (rounding is not modelled, equality of samples is [Qeq]).
    - A Python call either returns or raises: [result A].
    - A [dict] is an association list kept in insertion order.
    - numpy arrays handed between objects live in a store of arrays and are
      referred to by address, so that aliasing is visible. *)

From Stdlib Require Import List String Ascii ZArith QArith Qround Lia Bool Arith.
From Stdlib Require Import Permutation Sorted.
From Stdlib Require Import DecimalString DecimalPos DecimalZ.
From Stdlib Require Import Lqa.
Import ListNotations.

Set Implicit Arguments.

(* ================================================================== *)
(** ** Python results and exceptions *)
(* ================================================================== *)

(** The exception classes.  [ValueError], [KeyError], [IndexError] and
    [ZeroDivisionError] are the built-in classes raised by the sources and
    the libraries they call.  [ConfigurationError], [DataError] and
    [ReproducibilityError] are the kinds named by the specification; no
    [raise] in the sources produces them. *)
Inductive exn : Type :=
| ValueError
| KeyError
| IndexError
| ZeroDivisionError
| ConfigurationError
| DataError
| ReproducibilityError.

Inductive result (A : Type) : Type :=
| Ok (a : A)
| Raise (e : exn).

Arguments Ok {A} a.
Arguments Raise {A} e.

Definition bind {A B : Type} (r : result A) (f : A -> result B) : result B :=
  match r with
  | Ok a => f a
  | Raise e => Raise e
  end.

Notation "x <- c1 ;; c2" := (bind c1 (fun x => c2))
  (at level 61, c1 at next level, right associativity).

(** [for x in xs: acc = body(acc, x)], stopping at the first exception. *)
Fixpoint for_each {A S : Type} (body : S -> A -> result S) (xs : list A) (s : S)
  : result S :=
  match xs with
  | [] => Ok s
  | x :: xs' => s' <- body s x ;; for_each body xs' s'
  end.

(** [enumerate(xs)] counted from [i]. *)
Fixpoint enumerate_from {A : Type} (i : nat) (xs : list A) : list (nat * A) :=
  match xs with
  | [] => []
  | x :: xs' => (i, x) :: enumerate_from (S i) xs'
  end.

Definition enumerate {A : Type} (xs : list A) : list (nat * A) :=
  enumerate_from 0 xs.

(** [xs.index(x)] on a list of strings: position of the first occurrence,
    [ValueError] when there is none. *)
Fixpoint list_index (xs : list string) (x : string) : result nat :=
  match xs with
  | [] => Raise ValueError
  | y :: xs' =>
      if String.eqb y x then Ok 0%nat
      else i <- list_index xs' x ;; Ok (S i)
  end.

(* ------------------------------------------------------------------ *)
(** *** Strings *)

Open Scope string_scope.

Fixpoint string_mem (c : ascii) (s : string) : bool :=
  match s with
  | EmptyString => false
  | String c' s' => Ascii.eqb c' c || string_mem c s'
  end.

(** [s.split(sep)] for a non-empty [sep]: scan left to right; at each
    position where [sep] starts, close the current piece and jump over the
    separator.  [skip] counts the separator characters still to jump over,
    [cur] is the piece being read. *)
Fixpoint split_scan (sep : string) (s : string) (skip : nat) (cur : string)
  : list string :=
  match s with
  | EmptyString => [cur]
  | String c s' =>
      match skip with
      | S k => split_scan sep s' k cur
      | O =>
          if String.prefix sep s
          then cur :: split_scan sep s' (String.length sep - 1) ""
          else split_scan sep s' 0 (cur ++ String c "")
      end
  end.

(** [s.split(sep)]: an empty separator is a [ValueError]. *)
Definition str_split (s sep : string) : result (list string) :=
  if String.eqb sep "" then Raise ValueError
  else Ok (split_scan sep s 0 "").

(** [c.lower()] on one character of ASCII text: [A] to [Z] move to
    [a] to [z], every other character stays. *)
Definition ascii_lower (c : ascii) : ascii :=
  let n := nat_of_ascii c in
  if (Nat.leb 65 n && Nat.leb n 90)%bool then ascii_of_nat (n + 32) else c.

(** [s.lower()] on ASCII text. *)
Fixpoint str_lower (s : string) : string :=
  match s with
  | EmptyString => EmptyString
  | String c s' => String (ascii_lower c) (str_lower s')
  end.

(** [sub in s] on strings: [sub] starts at some position of [s]. *)
Fixpoint str_contains (sub s : string) : bool :=
  (String.prefix sub s
   || match s with
      | EmptyString => false
      | String _ s' => str_contains sub s'
      end)%bool.

(** [s.replace(c, "")] for a one-character [c]: every [c] is dropped. *)
Fixpoint str_remove (c : ascii) (s : string) : string :=
  match s with
  | EmptyString => EmptyString
  | String c' s' =>
      if Ascii.eqb c' c then str_remove c s' else String c' (str_remove c s')
  end.

(** [sep.join(parts)]. *)
Fixpoint str_join (sep : string) (parts : list string) : string :=
  match parts with
  | [] => ""
  | [p] => p
  | p :: parts' => p ++ sep ++ str_join sep parts'
  end.

(** [str(n)] for a Python integer: the decimal numeral, ["-"] first for
    a negative one. *)
Definition py_str_int (n : Z) : string := NilZero.string_of_int (Z.to_int n).

(** [x in xs] on a list of strings. *)
Definition list_mem (x : string) (xs : list string) : bool :=
  existsb (String.eqb x) xs.

(** [[f(x) for x in xs]] where [f] may raise: the first exception ends the
    comprehension. *)
Fixpoint map_result {A B : Type} (f : A -> result B) (xs : list A)
  : result (list B) :=
  match xs with
  | [] => Ok []
  | x :: xs' =>
      y <- f x ;;
      ys <- map_result f xs' ;;
      Ok (y :: ys)
  end.

(* ------------------------------------------------------------------ *)
(** *** Dictionaries in insertion order *)

Definition dict (V : Type) : Type := list (string * V).

Fixpoint dict_get {V : Type} (d : dict V) (k : string) : option V :=
  match d with
  | [] => None
  | (k', v) :: d' => if String.eqb k' k then Some v else dict_get d' k
  end.

Definition dict_mem {V : Type} (d : dict V) (k : string) : bool :=
  match dict_get d k with Some _ => true | None => false end.

(** [d[k] = v]: an existing key keeps its position, a new key goes last. *)
Fixpoint dict_set {V : Type} (d : dict V) (k : string) (v : V) : dict V :=
  match d with
  | [] => [(k, v)]
  | (k', v') :: d' =>
      if String.eqb k' k then (k', v) :: d'
      else (k', v') :: dict_set d' k v
  end.

Definition dict_keys {V : Type} (d : dict V) : list string := map fst d.

(* ================================================================== *)
(** ** dss_name, dss_phase, dss_connection, dss_load, dss_transformer *)
(* ================================================================== *)

Module dss_name.

Record Name : Type := { class_ : string; element : string }.

(** The [object] property: ["{class_}.{element}"]. *)
Definition object (n : Name) : string := class_ n ++ "." ++ element n.

End dss_name.

(** The engine as the sources query it: a command text goes in through
    [dss.Text.Command], the answer is read from [dss.Text.Result].  Only
    property queries (["? object.property"]) are issued by the code
    embedded here, so the engine is the function from a query to its
    answer. *)
Definition Engine : Type := string -> string.

(** Python's [int(text, base=10)].  The parser belongs to Python; the
    functions that call it take it as an argument. *)
Definition IntParser : Type := string -> result Z.

Module dss_command.

Definition run (dss : Engine) (cmd : string) : string := dss cmd.

End dss_command.

Module dss_phase.

Inductive Phase : Type := A | B | C | AB | AC | BC | ABC.

Definition value (p : Phase) : Z :=
  match p with
  | A => 0 | B => 1 | C => 2 | AB => 3 | AC => 4 | BC => 5 | ABC => 6
  end%Z.

(** The [name] of each enum member. *)
Definition Phase_name (p : Phase) : string :=
  match p with
  | A => "A" | B => "B" | C => "C" | AB => "AB" | AC => "AC" | BC => "BC"
  | ABC => "ABC"
  end.

(** Equality of two Python sets of integers given by their elements. *)
Definition set_eqb (s t : list Z) : bool :=
  (forallb (fun x => existsb (Z.eqb x) t) s
   && forallb (fun x => existsb (Z.eqb x) s) t)%bool.

(** The dictionary [phase_mapping] of [object_name_to_phase], in its
    order: the set of terminals of each phase. *)
Definition phase_mapping : list (Phase * list Z) :=
  [(A, [1]); (B, [2]); (C, [3]); (AB, [1; 2]); (AC, [1; 3]); (BC, [2; 3])]%Z.

(** [values.index(terminals)] on a list of sets: the first position
    holding an equal set, [ValueError] when there is none. *)
Fixpoint index_of_set (values : list (list Z)) (terminals : list Z)
  : result nat :=
  match values with
  | [] => Raise ValueError
  | v :: values' =>
      if set_eqb v terminals then Ok 0%nat
      else i <- index_of_set values' terminals ;; Ok (S i)
  end.

(** [object_name_to_phase]: three phases are [ABC]; otherwise the
    terminals after the bus name in [bus1] decide. *)
Definition object_name_to_phase (int : IntParser) (dss : Engine)
    (name : dss_name.Name) : result Phase :=
  phase_count <-
    int (dss_command.run dss ("? " ++ dss_name.object name ++ ".phases")) ;;
  if Z.eqb phase_count 3 then Ok ABC
  else
    let bus1 :=
      dss_command.run dss ("? " ++ dss_name.object name ++ ".bus1") in
    substrings <- str_split bus1 "." ;;
    terminals <- map_result int (tl substrings) ;;
    index <- index_of_set (map snd phase_mapping) terminals ;;
    match nth_error (map fst phase_mapping) index with
    | Some phase => Ok phase
    | None => Raise IndexError
    end.

End dss_phase.

Module dss_connection.

Inductive Connection : Type := WYE | DELTA.


Definition Connection_name (c : Connection) : string :=
  match c with
  | WYE => "WYE"
  | DELTA => "DELTA"
  end.

Definition valid_wyes : list string := ["wye"; "y"; "ln"].
Definition valid_deltas : list string := ["delta"; "d"; "ll"].

(** [string_to_connection]: the lower-cased text is looked up among the
    wye spellings, then among the delta spellings; [KeyError]
    otherwise. *)
Definition string_to_connection (a_string : string) : result Connection :=
  if list_mem (str_lower a_string) valid_wyes then Ok WYE
  else if list_mem (str_lower a_string) valid_deltas then Ok DELTA
  else Raise KeyError.

End dss_connection.

Module dss_object.

(** [ObjectMixin.get_property]: the answer to ["? object.key"], or
    [KeyError] when the answer reports an unknown property. *)
Definition get_property (dss : Engine) (name : dss_name.Name) (key : string)
  : result string :=
  let result :=
    dss_command.run dss ("? " ++ dss_name.object name ++ "." ++ key) in
  if str_contains "property unknown" (str_lower result) then Raise KeyError
  else Ok result.

End dss_object.

Module dss_load.

Definition _meter_counts (p : dss_phase.Phase) : nat :=
  match p with
  | dss_phase.A => 1
  | dss_phase.B => 1
  | dss_phase.C => 1
  | dss_phase.AB => 2
  | dss_phase.AC => 2
  | dss_phase.BC => 2
  | dss_phase.ABC => 3
  end.

(** A load as its initializer leaves it.  [connection], [phase] and
    [phase_count] are read from the engine; [meter_count] is set to
    [_meter_counts[self.phase]] and never written again, so it is a
    function of the record. *)
Record Load : Type := {
  name : dss_name.Name;
  connection : dss_connection.Connection;
  phase : dss_phase.Phase;
  phase_count : Z
}.

Definition meter_count (l : Load) : nat := _meter_counts (phase l).


(** [Load.__init__]: the name, then the connection, the phase and the
    phase count read from the engine ([PhaseMixin.__init__]). *)
Definition __init__ (int : IntParser) (dss : Engine) (name : string)
  : result Load :=
  let load_name := {| dss_name.class_ := "load"; dss_name.element := name |} in
  connection <-
    dss_connection.string_to_connection
      (dss_command.run dss ("? " ++ dss_name.object load_name ++ ".conn")) ;;
  phase <- dss_phase.object_name_to_phase int dss load_name ;;
  phase_count <-
    int (dss_command.run dss ("? " ++ dss_name.object load_name ++ ".phases")) ;;
  Ok {| name := load_name;
        connection := connection;
        phase := phase;
        phase_count := phase_count |}.

End dss_load.

Module dss_transformer.

Record Transformer : Type := { name : dss_name.Name }.

End dss_transformer.

(* ================================================================== *)
(** ** numpy and scipy on one-dimensional arrays of samples *)
(* ================================================================== *)

Open Scope Q_scope.

Definition Qlt_bool (x y : Q) : bool := negb (Qle_bool y x).

Definition Qsum (v : list Q) : Q := fold_right Qplus 0 v.

(** [v.min()] and [v.max()]: [ValueError] on an array of size zero. *)
Definition Qmin_list (v : list Q) : result Q :=
  match v with
  | [] => Raise ValueError
  | x :: v' => Ok (fold_left (fun m y => if Qle_bool m y then m else y) v' x)
  end.

Definition Qmax_list (v : list Q) : result Q :=
  match v with
  | [] => Raise ValueError
  | x :: v' => Ok (fold_left (fun m y => if Qle_bool y m then m else y) v' x)
  end.

(** [np.mean(v)]; [None] stands for the NaN numpy returns on an empty array. *)
Definition np_mean (v : list Q) : option Q :=
  match v with
  | [] => None
  | _ => Some (Qsum v / inject_Z (Z.of_nat (List.length v)))
  end.

(** [v - np.mean(v)].  The mean is NaN only when [v] is empty, and then the
    difference is the empty array. *)
Definition zero_center (v : list Q) : list Q :=
  match np_mean v with
  | Some m => map (fun x => x - m) v
  | None => []
  end.

(** [a + b] on one-dimensional arrays, with numpy's broadcasting of an
    operand of size one. *)
Definition np_add (a b : list Q) : result (list Q) :=
  if Nat.eqb (List.length a) (List.length b) then
    Ok (map (fun p => fst p + snd p) (combine a b))
  else
    match a, b with
    | [x], _ => Ok (map (fun y => x + y) b)
    | _, [y] => Ok (map (fun x => x + y) a)
    | _, _ => Raise ValueError
    end.

(** Insertion sort, for the order statistics below. *)
Fixpoint insert_sorted (x : Q) (v : list Q) : list Q :=
  match v with
  | [] => [x]
  | y :: v' => if Qle_bool x y then x :: y :: v' else y :: insert_sorted x v'
  end.

Definition sort (v : list Q) : list Q := fold_right insert_sorted [] v.

(** [np.percentile(v, q)] with the default linear method: the sample at the
    virtual position [(n-1) * q / 100] of the sorted array, interpolated
    between its two neighbours.  [None] is NaN (empty array). *)
Definition np_percentile (v : list Q) (q : Q) : option Q :=
  match v with
  | [] => None
  | _ =>
      let a := sort v in
      let n := List.length a in
      let vi := inject_Z (Z.of_nat (n - 1)) * q / 100 in
      let lo := Z.to_nat (Qfloor vi) in
      let hi := Nat.min (lo + 1) (n - 1) in
      let g := vi - inject_Z (Z.of_nat lo) in
      Some (nth lo a 0 + g * (nth hi a 0 - nth lo a 0))
  end.

(** [scipy.stats.iqr(x)]: the 75th minus the 25th percentile. *)
Definition scipy_stats_iqr (x : list Q) : option Q :=
  match np_percentile x 75, np_percentile x 25 with
  | Some p75, Some p25 => Some (p75 - p25)
  | _, _ => None
  end.

(** [np.arange(start, stop, step)] for a non-zero float step:
    [ceil((stop - start) / step)] points [start + i * step]. *)
Definition np_arange (start stop step : Q) : list Q :=
  let n := Z.to_nat (Qceiling ((stop - start) / step)) in
  map (fun i => start + inject_Z (Z.of_nat i) * step) (seq 0 n).

(** [np.arange(n)]. *)
Definition np_arange_int (n : nat) : list Q :=
  map (fun i => inject_Z (Z.of_nat i)) (seq 0 n).

(** [np.searchsorted(x, v)] on an increasing [x]: how many entries lie
    strictly below [v]. *)
Definition np_searchsorted (x : list Q) (v : Q) : nat :=
  List.length (filter (fun a => Qlt_bool a v) x).

(** The interpolant of [scipy.interpolate.interp1d(x, y, kind="linear",
    fill_value="extrapolate")] at one point: locate the segment by
    [searchsorted], clip the index to [1 .. len(x)-1] so that points outside
    the data use the first or the last segment, and follow that segment's
    line. *)
Definition interp1d_eval (x y : list Q) (x_new : Q) : Q :=
  let i := Nat.min (Nat.max (np_searchsorted x x_new) 1) (List.length x - 1) in
  let lo := (i - 1)%nat in
  let hi := i in
  let x_lo := nth lo x 0 in
  let x_hi := nth hi x 0 in
  let y_lo := nth lo y 0 in
  let y_hi := nth hi y 0 in
  let slope := (y_hi - y_lo) / (x_hi - x_lo) in
  slope * (x_new - x_lo) + y_lo.

(** Building the interpolant: [x] and [y] must have equal length, and a
    line needs two points.  (With a single point scipy either refuses or
    divides 0 by 0, depending on its version; the embedding refuses.) *)
Definition interp1d (x y : list Q) : result (Q -> Q) :=
  if negb (Nat.eqb (List.length x) (List.length y)) then Raise ValueError
  else if Nat.ltb (List.length x) 2 then Raise ValueError
  else Ok (interp1d_eval x y).

(** [np.interp(x, xp=(xp0, xp1), fp=(fp0, fp1))] at one point, following
    numpy's search: beyond the last abscissa the right value, before the
    first the left value; otherwise the index [j] of the last abscissa not
    above [x] is searched; [j] last gives [fp1], an exact hit on [xp0] gives
    [fp0], and only a point strictly inside is interpolated. *)
Definition np_interp1 (xp0 xp1 fp0 fp1 : Q) (x : Q) : Q :=
  if Qlt_bool xp1 x then fp1
  else if Qlt_bool x xp0 then fp0
  else if Qle_bool xp1 x then fp1
  else if Qeq_bool xp0 x then fp0
  else (fp1 - fp0) / (xp1 - xp0) * (x - xp0) + fp0.

Definition np_interp (x : list Q) (xp0 xp1 fp0 fp1 : Q) : list Q :=
  map (np_interp1 xp0 xp1 fp0 fp1) x.

(** [len(values) / n]: true division of Python integers. *)
Definition py_truediv (a b : Z) : result Q :=
  if Z.eqb b 0 then Raise ZeroDivisionError
  else Ok (inject_Z a / inject_Z b).

(* ------------------------------------------------------------------ *)
(** *** The store of arrays *)

(** numpy arrays are objects: an array is known by its address in the
    store, and two names may hold the same address. *)
Definition addr : Type := nat.
Definition store : Type := list (list Q).

(** A computation that reads and extends the store and may raise.  The
    store is returned in both cases: an exception does not undo effects. *)
Definition St (A : Type) : Type := store -> result A * store.

Definition st_ret {A : Type} (a : A) : St A := fun h => (Ok a, h).

Definition st_bind {A B : Type} (m : St A) (f : A -> St B) : St B :=
  fun h =>
    match m h with
    | (Ok a, h') => f a h'
    | (Raise e, h') => (Raise e, h')
    end.

Definition st_lift {A : Type} (r : result A) : St A := fun h => (r, h).

Notation "x <~ c1 ;; c2" := (st_bind c1 (fun x => c2))
  (at level 61, c1 at next level, right associativity).

(** The array at an address. *)
Definition deref (h : store) (a : addr) : list Q := nth a h [].

Definition read_array (a : addr) : St (list Q) := fun h => (Ok (deref h a), h).

(** A new array object. *)
Definition new_array (v : list Q) : St addr :=
  fun h => (Ok (List.length h), (h ++ [v])%list).

(** [a.copy()]. *)
Definition np_copy (a : addr) : St addr :=
  v <~ read_array a ;; new_array v.

(* ================================================================== *)
(** ** dss_loadshape *)
(* ================================================================== *)

Module dss_loadshape.

Inductive Recurrence : Type := DAILY | YEARLY.

Definition Recurrence_value (r : Recurrence) : string :=
  match r with
  | DAILY => "daily"
  | YEARLY => "yearly"
  end.

(** The attributes of a load shape.  [values] is the address of the
    array object the load shape owns.  ([command_add], a rendering of
    the samples as text, is not part of the embedding.) *)
Record LoadShape : Type := {
  name : dss_name.Name;
  profile_name : string;
  recurrence : Recurrence;
  values : addr
}.

(** The resampling step of the initializer, on the samples: build the
    linear interpolant through [(i, values[i])] and evaluate it at
    [np.arange(0, len(values), len(values) / n_interpolate)]. *)
Definition resample (values : list Q) (n_interpolate : Z) : result (list Q) :=
  make_interpolated_values <-
    interp1d (np_arange_int (List.length values)) values ;;
  step <- py_truediv (Z.of_nat (List.length values)) n_interpolate ;;
  Ok (map make_interpolated_values
          (np_arange 0 (inject_Z (Z.of_nat (List.length values))) step)).

(** The scaling step: [np.interp(x, xp=(x.min(), x.max()), fp=(0, 1))]. *)
Definition normalize (values : list Q) : result (list Q) :=
  lo <- Qmin_list values ;;
  hi <- Qmax_list values ;;
  Ok (np_interp values lo hi 0 1).

(** [LoadShape.__init__].  [values] is the caller's array object.  The
    engine handle [dss] and [hour_interval] only reach [command_add] and
    the base initializer, which stores the name. *)
Definition __init__ (name profile_name : string) (recurrence : Recurrence)
    (values : addr) (n_interpolate : option Z) : St LoadShape :=
  let loadshape_name :=
    {| dss_name.class_ := "loadshape"; dss_name.element := name |} in
  self_values <~ np_copy values ;;
  self_values <~
    match n_interpolate with
    | None => st_ret self_values
    | Some n =>
        v <~ read_array values ;;
        v' <~ st_lift (resample v n) ;;
        new_array v'
    end ;;
  v <~ read_array self_values ;;
  v' <~ st_lift (normalize v) ;;
  self_values <~ new_array v' ;;
  st_ret {| name := loadshape_name;
            profile_name := profile_name;
            recurrence := recurrence;
            values := self_values |}.

End dss_loadshape.

(* ================================================================== *)
(** ** numpy.random.Generator *)
(* ================================================================== *)

(** The generator behind [np.random.default_rng]: a state, its seeding,
    and one bounded draw that returns a value and the advanced state.  The
    bit generator itself belongs to numpy; what the sources rely on is
    stated by [draws_in_range]. *)
Record Generator : Type := {
  rng_state : Type;
  default_rng : Z -> rng_state;
  bounded_draw : rng_state -> Z -> Z -> Z * rng_state
}.

(** numpy's contract for [integers(low, high)]: a value of [[low, high)]. *)
Definition draws_in_range (G : Generator) : Prop :=
  forall (st : rng_state G) (low high : Z),
    (low < high)%Z ->
    (low <= fst (bounded_draw G st low high) < high)%Z.

(** [rng.integers(low=low, high=high)]: [ValueError] when the range is
    empty. *)
Definition integers (G : Generator) (st : rng_state G) (low high : Z)
  : result (Z * rng_state G) :=
  if (high <=? low)%Z then Raise ValueError
  else Ok (bounded_draw G st low high).

(** [np.iinfo(np.int32).max]. *)
Definition int32_max : Z := 2147483647.

(** The standard normal draws of [scipy.stats.norm.rvs] for an integer
    [random_state]: [standard_normal seed i] is the draw at position [i]. *)
Definition NormalSource : Type := Z -> nat -> Q.

(** [scipy.stats.norm.rvs(loc, scale, size, random_state)]: the standard
    draws scaled and shifted; a NaN or negative scale is a domain error. *)
Definition norm_rvs (standard_normal : NormalSource) (loc : Q) (scale : option Q)
    (size : nat) (random_state : Z) : result (list Q) :=
  match scale with
  | None => Raise ValueError
  | Some s =>
      if Qlt_bool s 0 then Raise ValueError
      else Ok (map (fun i => standard_normal random_state i * s + loc)
                   (seq 0 size))
  end.

(** [xs[i]] for a Python integer [i]: a negative index counts from the
    end, an index outside the list is an [IndexError]. *)
Definition list_getitem {A : Type} (xs : list A) (i : Z) : result A :=
  let n := Z.of_nat (List.length xs) in
  let j := if (i <? 0)%Z then (n + i)%Z else i in
  if ((j <? 0) || (n <=? j))%Z then Raise IndexError
  else
    match nth_error xs (Z.to_nat j) with
    | Some x => Ok x
    | None => Raise IndexError
    end.

(** [d[k]] on a dictionary: [KeyError] for a missing key. *)
Definition dict_getitem {V : Type} (d : dict V) (k : string) : result V :=
  match dict_get d k with
  | Some v => Ok v
  | None => Raise KeyError
  end.

(** [[f(x) for x in xs]] where [f] works on the store. *)
Fixpoint st_map {A B : Type} (f : A -> St B) (xs : list A) : St (list B) :=
  match xs with
  | [] => st_ret []
  | x :: xs' =>
      y <~ f x ;;
      ys <~ st_map f xs' ;;
      st_ret (y :: ys)
  end.

(* ================================================================== *)
(** ** loadshape_prototype *)
(* ================================================================== *)

Module loadshape_prototype.

(** The prototype's attributes.  A [phase_profile_mapping] is a
    dictionary keyed by phase: [None] is a missing key.  [profiles_df]
    maps a column name to the samples of that profile.  The first
    argument of [make_values] is the IQR, with [None] for NaN. *)
Record IqrRandomLoadShapePrototype : Type := {
  _make_values : option Q -> nat -> Z -> result (list Q);
  _phase_profile_mapping : dss_phase.Phase -> option (list string);
  _profiles_df : dict (list Q);
  _recurrence : dss_loadshape.Recurrence;
  _n_interpolate : option Z
}.

(** The profile selection at the head of [clone]: the candidates of the
    load's phase, and one of them at an index drawn from a generator
    seeded with the load's random state. *)
Definition select_profile (G : Generator) (self : IqrRandomLoadShapePrototype)
    (load : dss_load.Load) (random_state : Z) : result (Z * string) :=
  profile_names <-
    match _phase_profile_mapping self (dss_load.phase load) with
    | Some names => Ok names
    | None => Raise KeyError
    end ;;
  let rng := default_rng G random_state in
  drawn <- integers G rng 0 (Z.of_nat (List.length profile_names)) ;;
  let profile_index := fst drawn in
  profile_name <- list_getitem profile_names profile_index ;;
  Ok (profile_index, profile_name).

(** The samples handed to the load shape: the profile plus the random
    values scaled by the IQR of the zero-centred profile. *)
Definition make_series (self : IqrRandomLoadShapePrototype)
    (profile_name : string) (random_state : Z) : result (list Q) :=
  profile <- dict_getitem (_profiles_df self) profile_name ;;
  let iqr := scipy_stats_iqr (zero_center profile) in
  random_values <-
    _make_values self iqr (List.length profile) random_state ;;
  np_add profile random_values.

(** [IqrRandomLoadShapePrototype.clone(load=..., random_state=...)]. *)
Definition clone (G : Generator) (self : IqrRandomLoadShapePrototype)
    (load : dss_load.Load) (random_state : Z)
  : St (string * dss_loadshape.LoadShape) :=
  selected <~ st_lift (select_profile G self load random_state) ;;
  let profile_name := snd selected in
  v <~ st_lift (make_series self profile_name random_state) ;;
  values <~ new_array v ;;
  loadshape <~
    dss_loadshape.__init__
      ("load_" ++ dss_name.element (dss_load.name load) ++ "_" ++ profile_name)
      profile_name (_recurrence self) values (_n_interpolate self) ;;
  let command_edit :=
    (dss_name.object (dss_load.name load) ++ "."
       ++ dss_loadshape.Recurrence_value (dss_loadshape.recurrence loadshape))
    ++ "=" ++ dss_name.element (dss_loadshape.name loadshape) in
  st_ret (command_edit, loadshape).


Module RandomLoadShapePrototype.

(** The attributes of the prototype of purely random load shapes. *)
Record t : Type := {
  _make_values : nat -> Z -> result (list Q);
  _recurrence : dss_loadshape.Recurrence;
  _n_timestep : nat
}.

(** [RandomLoadShapePrototype.clone(load=..., random_state=...)]. *)
Definition clone (self : t) (load : dss_load.Load) (random_state : Z)
  : St (string * dss_loadshape.LoadShape) :=
  v <~ st_lift (_make_values self (_n_timestep self) random_state) ;;
  values <~ new_array v ;;
  loadshape <~
    dss_loadshape.__init__
      ("load_" ++ dss_name.element (dss_load.name load))
      (py_str_int random_state) (_recurrence self) values None ;;
  let command_edit :=
    (dss_name.object (dss_load.name load) ++ "."
       ++ dss_loadshape.Recurrence_value (dss_loadshape.recurrence loadshape))
    ++ "=" ++ dss_name.element (dss_loadshape.name loadshape) in
  st_ret (command_edit, loadshape).

End RandomLoadShapePrototype.

End loadshape_prototype.

(* ================================================================== *)
(** ** loadshape_factory *)
(* ================================================================== *)

Module loadshape_factory.

Definition single_wye : list string := [
  "BUSLOLF_SCENT"; "BUSLOPV_SCENT"; "BUSLOWD_SCENT"; "BUSLODG_SCENT";
  "RESLOWR_SCENT"; "RESHIWR_SCENT"; "RESLOPV_SCENT"; "RESHIPV_SCENT";
  "RESLOWD_SCENT"; "RESHIWD_SCENT"; "RESLODG_SCENT"; "RESHIDG_SCENT"
].

Definition single_delta : list string :=
  ["BUSMEDLF_SCENT"; "BUSMEDPV_SCENT"; "BUSMEDWD_SCENT"; "BUSMEDDG_SCENT"].

Definition triple : list string :=
  ["BUSHILF_SCENT"; "BUSHIPV_SCENT"; "BUSHIWD_SCENT"; "BUSHIDG_SCENT"].

Definition phase_profile_mapping (p : dss_phase.Phase) : option (list string) :=
  Some match p with
       | dss_phase.A => single_wye
       | dss_phase.B => single_wye
       | dss_phase.C => single_wye
       | dss_phase.AB => single_delta
       | dss_phase.AC => single_delta
       | dss_phase.BC => single_delta
       | dss_phase.ABC => triple
       end.

(** The [make_values] lambda: normal noise of scale [0.1 * iqr]. *)
Definition make_values (standard_normal : NormalSource)
    (iqr : option Q) (n_timestep : nat) (random_state : Z) : result (list Q) :=
  norm_rvs standard_normal 0 (option_map (fun q => 0.1 * q) iqr)
           n_timestep random_state.

(** [[rng.integers(np.iinfo(np.int32).max) for _ in range(n)]]: each
    draw advances the generator. *)
Fixpoint draw_random_states (G : Generator) (n : nat) (rng : rng_state G)
  : result (list Z * rng_state G) :=
  match n with
  | O => Ok ([], rng)
  | S n' =>
      drawn <- integers G rng 0 int32_max ;;
      rest <- draw_random_states G n' (snd drawn) ;;
      Ok (fst drawn :: fst rest, snd rest)
  end.

(** The first statement of the factory: one random state per load. *)
Definition allocate_random_states (G : Generator) (loads : list dss_load.Load)
    (rng : rng_state G) : result (list Z * rng_state G) :=
  draw_random_states G (List.length loads) rng.

(** The prototype the factory builds: the noise above, the mapping
    above, the profile table, and no resampling. *)
Definition make_prototype (standard_normal : NormalSource)
    (profiles_df : dict (list Q)) (recurrence : dss_loadshape.Recurrence)
  : loadshape_prototype.IqrRandomLoadShapePrototype :=
  {| loadshape_prototype._make_values := make_values standard_normal;
     loadshape_prototype._phase_profile_mapping := phase_profile_mapping;
     loadshape_prototype._profiles_df := profiles_df;
     loadshape_prototype._recurrence := recurrence;
     loadshape_prototype._n_interpolate := None |}.

(** [make_ercot_iqr_random_loadshapes].  [profiles_df] is the table read
    from [ercot_loadprofile_path].  The generator object [rng] is the
    caller's: its advanced state is returned with the result. *)
Definition make_ercot_iqr_random_loadshapes (G : Generator)
    (standard_normal : NormalSource) (profiles_df : dict (list Q))
    (loads : list dss_load.Load) (recurrence : dss_loadshape.Recurrence)
    (rng : rng_state G)
  : St ((list string * list dss_loadshape.LoadShape * list Z) * rng_state G) :=
  allocated <~ st_lift (allocate_random_states G loads rng) ;;
  let random_states := fst allocated in
  let prototype := make_prototype standard_normal profiles_df recurrence in
  loadshape_tuples <~
    st_map (fun p => loadshape_prototype.clone G prototype (fst p) (snd p))
           (combine loads random_states) ;;
  let edit_commands := map fst loadshape_tuples in
  let loadshapes := map snd loadshape_tuples in
  st_ret ((edit_commands, loadshapes, random_states), snd allocated).

(** The caller in [run.py]: the generator is seeded with the circuit's
    master [random_state] just before the factory is called. *)
Definition seeded_random_states (G : Generator) (random_state : Z)
    (loads : list dss_load.Load) : result (list Z) :=
  allocated <- allocate_random_states G loads (default_rng G random_state) ;;
  Ok (fst allocated).

End loadshape_factory.

(* ================================================================== *)
(** ** dss_monitor *)
(* ================================================================== *)

(** A two-dimensional numpy array of shape [(shape0, shape1)]. *)
Record ndarray2 : Type := {
  shape0 : nat;
  shape1 : nat;
  cell : nat -> nat -> Q
}.

(** [a[:, j]] for [j >= 0]: column [j], [IndexError] outside the shape. *)
Definition get_column (a : ndarray2) (j : nat) : result (list Q) :=
  if Nat.ltb j (shape1 a) then Ok (map (fun i => cell a i j) (seq 0 (shape0 a)))
  else Raise IndexError.

Module dss_monitor.

Record MonitorData : Type := {
  channel_names : list string;
  data : ndarray2;
  monitor_name : dss_name.Name
}.

(** A monitor after the simulation.  Reading the recorded channels goes
    through the engine's COM interface; [make_data] is the
    [MonitorData] that the method of this name returns. *)
Record Monitor : Type := {
  name : dss_name.Name;
  make_data : MonitorData
}.


(** The name [Monitor.__init__] gives a monitor of [target_object]. *)
Definition make_name (target_object : dss_name.Name) (mode terminal : Z)
  : dss_name.Name :=
  {| dss_name.class_ := "monitor";
     dss_name.element :=
       str_join "-"
         [dss_name.class_ target_object ++ "_" ++ dss_name.element target_object;
          "mode_" ++ py_str_int mode;
          "terminal_" ++ py_str_int terminal] |}.

(** The [command_add] built by [Monitor.__init__]. *)
Definition command_add (target_object : dss_name.Name) (mode terminal : Z)
  : string :=
  str_join " "
    ["new " ++ dss_name.object (make_name target_object mode terminal);
     "element=" ++ dss_name.object target_object;
     "mode=" ++ py_str_int mode;
     "terminal=" ++ py_str_int terminal].

(** What the COM interface [ActiveCircuit.Monitors] reports once the
    monitor is the active one. *)
Record MonitorsInterface : Type := {
  NumChannels : nat;
  dblHour : list Q;
  SampleCount : nat;
  Channel : nat -> list Q;
  Header : list string
}.

(** [data[:, j] = values] on a matrix of [n_row] rows: [values] must have
    [n_row] entries, or one entry, which is repeated. *)
Definition assign_column (n_row : nat) (values : list Q) : result (list Q) :=
  if Nat.eqb (List.length values) n_row then Ok values
  else
    match values with
    | [x] => Ok (repeat x n_row)
    | _ => Raise ValueError
    end.

(** The body of [Monitor.make_data], from what the interface reports:
    a matrix of [SampleCount] rows with the hours in column 0 and channel
    [index] in column [index], and the names ["hours"] and the header
    names with their spaces removed. *)
Definition make_data_of (i_monitors : MonitorsInterface)
    (name : dss_name.Name) : result MonitorData :=
  let channel_count := NumChannels i_monitors in
  let channel_indices := seq 1 channel_count in
  let hours := dblHour i_monitors in
  let sample_count := SampleCount i_monitors in
  column0 <- assign_column sample_count hours ;;
  columns <-
    map_result (fun index => assign_column sample_count
                               (Channel i_monitors index))
               channel_indices ;;
  let channel_names := ("hours" :: Header i_monitors)%list in
  let channel_names := map (str_remove " "%char) channel_names in
  Ok {| channel_names := channel_names;
        data := {| shape0 := sample_count;
                   shape1 := (channel_count + 1)%nat;
                   cell := fun i j => nth i (nth j (column0 :: columns) []) 0 |};
        monitor_name := name |}.

End dss_monitor.

(* ================================================================== *)
(** ** data_factory *)
(* ================================================================== *)

Module data_factory.

(** A data frame: its columns in order, each with its samples. *)
Definition DataFrame : Type := dict (list Q).

Definition columns (df : DataFrame) : list string := dict_keys df.

(** [pd.DataFrame(data)] from a dictionary of arrays: the arrays must all
    have the same length. *)
Definition pd_DataFrame (data : dict (list Q)) : result DataFrame :=
  match data with
  | [] => Ok data
  | (_, v) :: rest =>
      if forallb (fun kv => Nat.eqb (List.length (snd kv)) (List.length v)) rest
      then Ok data
      else Raise ValueError
  end.

Definition all_channels : list string := ["V1"; "V2"; "V3"].

Section WithDelimiter.

(** [simulator.parameters.delimiter]: the separator of a column name's
    parts.  The module that sets it is not among the sources. *)
Variable delimiter : string.

(** Body of the channel loop of [make_transformer_voltage_magnitude_data]. *)
Definition transformer_channel_step (transformer : dss_transformer.Transformer)
    (data_primary_md data_secondary_md : dss_monitor.MonitorData)
    (data : dict (list Q)) (channel_name : string) : result (dict (list Q)) :=
  channel_index_primary <-
    list_index (dss_monitor.channel_names data_primary_md) channel_name ;;
  channel_index_secondary <-
    list_index (dss_monitor.channel_names data_secondary_md) channel_name ;;
  column_primary <-
    get_column (dss_monitor.data data_primary_md) channel_index_primary ;;
  let data :=
    dict_set data
      (dss_name.object (dss_transformer.name transformer)
         ++ delimiter ++ "primary" ++ delimiter ++ channel_name)
      column_primary in
  column_secondary <-
    get_column (dss_monitor.data data_secondary_md) channel_index_secondary ;;
  Ok (dict_set data
        (dss_name.object (dss_transformer.name transformer)
           ++ delimiter ++ "secondary" ++ delimiter ++ channel_name)
        column_secondary).

(** Body of the transformer loop. *)
Definition transformer_step (data : dict (list Q))
    (item : dss_transformer.Transformer
            * (dss_monitor.Monitor * dss_monitor.Monitor))
  : result (dict (list Q)) :=
  let transformer := fst item in
  let data_primary_md := dss_monitor.make_data (fst (snd item)) in
  let data_secondary_md := dss_monitor.make_data (snd (snd item)) in
  for_each
    (transformer_channel_step transformer data_primary_md data_secondary_md)
    all_channels data.

Definition make_transformer_voltage_magnitude_data
    (monitors_primary monitors_secondary : list dss_monitor.Monitor)
    (transformers : list dss_transformer.Transformer) : result DataFrame :=
  data <-
    for_each transformer_step
      (combine transformers (combine monitors_primary monitors_secondary))
      [] ;;
  pd_DataFrame data.

(** Body of the channel loop of [make_load_voltage_magnitude_data]. *)
Definition load_channel_step (load : dss_load.Load)
    (data_md : dss_monitor.MonitorData)
    (data : dict (list Q)) (channel_name : string) : result (dict (list Q)) :=
  channel_index <- list_index (dss_monitor.channel_names data_md) channel_name ;;
  column <- get_column (dss_monitor.data data_md) channel_index ;;
  Ok (dict_set data
        (dss_name.object (dss_load.name load) ++ delimiter ++ channel_name)
        column).

(** Body of the load loop: the channels are
    [["V1", "V2", "V3"][:load.meter_count]]. *)
Definition load_step (data : dict (list Q))
    (item : dss_load.Load * dss_monitor.Monitor) : result (dict (list Q)) :=
  let load := fst item in
  let data_md := dss_monitor.make_data (snd item) in
  let channel_names := firstn (dss_load.meter_count load) all_channels in
  for_each (load_channel_step load data_md) channel_names data.

(** Body of the loop that builds the channel map from the column
    names: the name must split into exactly two parts. *)
Definition channel_map_step (channel_map : dict (list nat))
    (item : nat * string) : result (dict (list nat)) :=
  let i := fst item in
  let meter_name := snd item in
  parts <- str_split meter_name delimiter ;;
  match parts with
  | [load_name; _] =>
      let channel_map :=
        if dict_mem channel_map load_name then channel_map
        else dict_set channel_map load_name [] in
      indices <- dict_getitem channel_map load_name ;;
      Ok (dict_set channel_map load_name (indices ++ [i])%list)
  | _ => Raise ValueError
  end.

Definition make_load_voltage_magnitude_data
    (loads : list dss_load.Load) (monitors : list dss_monitor.Monitor)
  : result (DataFrame * dict (list nat)) :=
  data <- for_each load_step (combine loads monitors) [] ;;
  data_df <- pd_DataFrame data ;;
  channel_map <- for_each channel_map_step (enumerate (columns data_df)) [] ;;
  Ok (data_df, channel_map).

End WithDelimiter.


(** [make_loadshape_data]: one column per load shape, under the load
    shape's object name, holding its samples. *)
Definition make_loadshape_data (loadshapes : list dss_loadshape.LoadShape)
    (h : store) : result DataFrame :=
  pd_DataFrame
    (fold_left
       (fun data loadshape =>
          dict_set data
            (dss_name.object (dss_loadshape.name loadshape))
            (deref h (dss_loadshape.values loadshape)))
       loadshapes []).

End data_factory.

(* ================================================================== *)
(** ** label_factory *)
(* ================================================================== *)

Module label_factory.

(** The dictionary [labels]: one list per label. *)
Record Labels : Type := {
  base_kv : list string;
  connection : list string;
  load_name : list string;
  loadshape_name : list string;
  meter_count : list nat;
  phase_count : list Z;
  phase_name : list string;
  phase_value : list Z;
  profile_name : list string;
  random_state : list Z
}.

Definition empty_labels : Labels :=
  {| base_kv := []; connection := []; load_name := []; loadshape_name := [];
     meter_count := []; phase_count := []; phase_name := [];
     phase_value := []; profile_name := []; random_state := [] |}.

(** Body of the loop of [make_load_labels]: one entry is appended to
    every list; reading [kv] from the engine may raise. *)
Definition label_step (dss : Engine) (labels : Labels)
    (item : dss_load.Load * (dss_loadshape.LoadShape * Z)) : result Labels :=
  let load := fst item in
  let loadshape := fst (snd item) in
  let rs := snd (snd item) in
  kv <- dss_object.get_property dss (dss_load.name load) "kv" ;;
  Ok {| load_name :=
          (load_name labels ++ [dss_name.object (dss_load.name load)])%list;
        loadshape_name :=
          (loadshape_name labels
             ++ [dss_name.object (dss_loadshape.name loadshape)])%list;
        base_kv := (base_kv labels ++ [kv])%list;
        connection :=
          (connection labels
             ++ [str_lower (dss_connection.Connection_name
                              (dss_load.connection load))])%list;
        meter_count :=
          (meter_count labels ++ [dss_load.meter_count load])%list;
        phase_count :=
          (phase_count labels ++ [dss_load.phase_count load])%list;
        phase_name :=
          (phase_name labels
             ++ [dss_phase.Phase_name (dss_load.phase load)])%list;
        phase_value :=
          (phase_value labels ++ [dss_phase.value (dss_load.phase load)])%list;
        profile_name :=
          (profile_name labels
             ++ [dss_loadshape.profile_name loadshape])%list;
        random_state := (random_state labels ++ [rs])%list |}.

(** [make_load_labels] called with a list of random states.  The lists
    of the result all have the same length, so the data frame is always
    built. *)
Definition make_load_labels (dss : Engine) (loads : list dss_load.Load)
    (loadshapes : list dss_loadshape.LoadShape) (random_states : list Z)
  : result Labels :=
  for_each (label_step dss)
    (combine loads (combine loadshapes random_states)) empty_labels.

End label_factory.

(* ================================================================== *)
(** ** Concrete instances *)
(* ================================================================== *)

(** A small linear congruential generator that meets [draws_in_range]; the
    state is a 64-bit word and a draw reduces it into the range. *)
Definition lcg : Generator := {|
  rng_state := Z;
  default_rng := fun seed => (seed mod 2 ^ 64)%Z;
  bounded_draw := fun st low high =>
    ((low + st mod (high - low))%Z,
     ((st * 6364136223846793005 + 1442695040888963407) mod 2 ^ 64)%Z)
|}.

(** Standard normal draws fixed to a short cycle of values. *)
Definition cycle_normal : NormalSource :=
  fun seed i =>
    match (i mod 3)%nat with
    | 0%nat => 1 # 2
    | 1%nat => - (3 # 4)
    | _ => 1 # 4
    end.

Definition example_load (element : string) (p : dss_phase.Phase) : dss_load.Load :=
  {| dss_load.name := {| dss_name.class_ := "load"; dss_name.element := element |};
     dss_load.connection := dss_connection.WYE;
     dss_load.phase := p;
     dss_load.phase_count := 1%Z |}.

Definition example_transformer (element : string) : dss_transformer.Transformer :=
  {| dss_transformer.name :=
       {| dss_name.class_ := "transformer"; dss_name.element := element |} |}.

(** A monitor whose read-out has the given channel names and [rows]
    samples per channel. *)
Definition example_monitor (element : string) (channels : list string) (rows : nat)
  : dss_monitor.Monitor :=
  let monitor_name :=
    {| dss_name.class_ := "monitor"; dss_name.element := element |} in
  {| dss_monitor.name := monitor_name;
     dss_monitor.make_data :=
       {| dss_monitor.channel_names := channels;
          dss_monitor.data :=
            {| shape0 := rows;
               shape1 := List.length channels;
               cell := fun i j => inject_Z (Z.of_nat (i + j)) |};
          dss_monitor.monitor_name := monitor_name |} |}.

Definition mode0_channels : list string := ["hours"; "V1"; "V2"; "V3"].

(** A parser of plain decimal numerals with an optional minus sign, as an
    [int(text, base=10)] for the examples: any other text is a
    [ValueError]. *)
Definition decimal_int : IntParser :=
  fun text =>
    match NilZero.int_of_string text with
    | Some d => Ok (Z.of_int d)
    | None => Raise ValueError
    end.

(** An engine that answers the queries of a table and reports every
    other property as unknown. *)
Definition table_engine (answers : list (string * string)) : Engine :=
  fun cmd =>
    match dict_get answers cmd with
    | Some answer => answer
    | None => "Property Unknown"%string
    end.

(** The answers of an engine about one load. *)
Definition load_answers (element conn phases bus1 kv : string)
  : list (string * string) :=
  [("? load." ++ element ++ ".conn", conn);
   ("? load." ++ element ++ ".phases", phases);
   ("? load." ++ element ++ ".bus1", bus1);
   ("? load." ++ element ++ ".kv", kv)]%string.

(** What the interface reports for a monitor of mode 0 with three voltage
    channels and [rows] samples; the header names come with a leading
    space. *)
Definition example_interface (rows : nat) : dss_monitor.MonitorsInterface :=
  {| dss_monitor.NumChannels := 3;
     dss_monitor.dblHour := map (fun i => inject_Z (Z.of_nat i)) (seq 1 rows);
     dss_monitor.SampleCount := rows;
     dss_monitor.Channel :=
       fun index => map (fun i => inject_Z (Z.of_nat (100 * index + i)))
                        (seq 0 rows);
     dss_monitor.Header := [" V1"; " V2"; " V3"]%string |}.

(** A profile table with the same four samples under every pool name. *)
Definition example_profiles : dict (list Q) :=
  map (fun profile_name => (profile_name, [1; 2; 3; 4]))
      (loadshape_factory.single_wye ++ loadshape_factory.single_delta
         ++ loadshape_factory.triple)%list.

(* ================================================================== *)
(** ** Auxiliary definitions for the statements *)
(* ================================================================== *)

(** [disjointb l1 l2]: no name of [l1] is a name of [l2]. *)
Definition disjointb (l1 l2 : list string) : bool :=
  forallb (fun x => negb (existsb (String.eqb x) l2)) l1.


(** What [__init__] leaves in the store and returns, case by case: the
    store only grows, by the copy, then by the resampled array if any, then
    by the scaled array. *)
Definition init_outcome (name profile_name : string)
    (recurrence : dss_loadshape.Recurrence) (v : list Q)
    (n_interpolate : option Z) (h : store)
  : result dss_loadshape.LoadShape * store :=
  let shape (a : addr) :=
    {| dss_loadshape.name :=
         {| dss_name.class_ := "loadshape"; dss_name.element := name |};
       dss_loadshape.profile_name := profile_name;
       dss_loadshape.recurrence := recurrence;
       dss_loadshape.values := a |} in
  match n_interpolate with
  | None =>
      match dss_loadshape.normalize v with
      | Ok v2 => (Ok (shape (List.length h + 1)%nat), (h ++ [v; v2])%list)
      | Raise e => (Raise e, (h ++ [v])%list)
      end
  | Some n =>
      match dss_loadshape.resample v n with
      | Raise e => (Raise e, (h ++ [v])%list)
      | Ok v1 =>
          match dss_loadshape.normalize v1 with
          | Ok v2 => (Ok (shape (List.length h + 2)%nat), (h ++ [v; v1; v2])%list)
          | Raise e => (Raise e, (h ++ [v; v1])%list)
          end
      end
  end.


(** A series with two samples that differ. *)
Definition non_constant (v : list Q) : Prop :=
  exists x y, In x v /\ In y v /\ ~ x == y.

(** A non-empty series whose samples all equal [c]. *)
Definition constant_series (c : Q) (v : list Q) : Prop :=
  v <> [] /\ Forall (fun x => x == c) v.

(** No character of [s] is a character of [delimiter]. *)
Fixpoint delimiter_free (delimiter s : string) : bool :=
  match s with
  | EmptyString => true
  | String c s' => negb (string_mem c delimiter) && delimiter_free delimiter s'
  end.

(** The matrix of a monitor read-out has one column per channel name. *)
Definition monitor_well_shaped (m : dss_monitor.Monitor) : Prop :=
  shape1 (dss_monitor.data (dss_monitor.make_data m))
  = List.length (dss_monitor.channel_names (dss_monitor.make_data m)).

(** The read-out of [m] names every channel of [channels]. *)
Definition has_channels (channels : list string) (m : dss_monitor.Monitor) : Prop :=
  forall ch, In ch channels ->
             In ch (dss_monitor.channel_names (dss_monitor.make_data m)).

(** The number of samples per channel in the read-out of [m]. *)
Definition sample_count (m : dss_monitor.Monitor) : nat :=
  shape0 (dss_monitor.data (dss_monitor.make_data m)).

(** The channels requested for a load. *)
Definition requested_channels (load : dss_load.Load) : list string :=
  firstn (dss_load.meter_count load) data_factory.all_channels.

(** The samples of the channel named [ch] in a read-out. *)
Definition channel_column (md : dss_monitor.MonitorData) (ch : string) : list Q :=
  match list_index (dss_monitor.channel_names md) ch with
  | Ok j => map (fun i => cell (dss_monitor.data md) i j)
                (seq 0 (shape0 (dss_monitor.data md)))
  | Raise _ => []
  end.

(** The column names a load contributes: its object name joined with each
    requested channel. *)
Definition load_columns (delimiter : string) (load : dss_load.Load) : list string :=
  map (fun ch => dss_name.object (dss_load.name load) ++ delimiter ++ ch)
      (requested_channels load).

(** The column names a transformer contributes: for each channel, the
    primary and then the secondary side. *)
Definition transformer_columns (delimiter : string)
    (t : dss_transformer.Transformer) : list string :=
  flat_map
    (fun ch =>
       [dss_name.object (dss_transformer.name t)
          ++ delimiter ++ "primary" ++ delimiter ++ ch;
        dss_name.object (dss_transformer.name t)
          ++ delimiter ++ "secondary" ++ delimiter ++ ch])
    data_factory.all_channels.

(** The channel map that gives each load, in order, the next
    [meter_count] column positions, counted from [start]. *)
Fixpoint consecutive_channel_map (start : nat) (loads : list dss_load.Load)
  : dict (list nat) :=
  match loads with
  | [] => []
  | load :: loads' =>
      (dss_name.object (dss_load.name load),
       seq start (dss_load.meter_count load))
      :: consecutive_channel_map (start + dss_load.meter_count load) loads'
  end.

(** The named columns one pair of a load and its monitor writes. *)
Definition load_entries (delimiter : string)
    (item : dss_load.Load * dss_monitor.Monitor) : list (string * list Q) :=
  map (fun ch =>
         (dss_name.object (dss_load.name (fst item)) ++ delimiter ++ ch,
          channel_column (dss_monitor.make_data (snd item)) ch))
      (requested_channels (fst item)).

Definition load_object (load : dss_load.Load) : string :=
  dss_name.object (dss_load.name load).

Definition transformer_object (t : dss_transformer.Transformer) : string :=
  dss_name.object (dss_transformer.name t).

(** A single-sided aggregation input: one monitor per load; loads known
    by different object names; a non-empty delimiter none of whose
    characters occurs in an object name or a channel name; read-outs with
    one matrix column per channel name, all of the same number of samples,
    each naming the channels requested for its load. *)
Definition single_sided_input (delimiter : string)
    (loads : list dss_load.Load) (monitors : list dss_monitor.Monitor) : Prop :=
  List.length monitors = List.length loads
  /\ NoDup (map load_object loads)
  /\ delimiter <> ""%string
  /\ Forall (fun load => delimiter_free delimiter (load_object load) = true) loads
  /\ Forall (fun ch => delimiter_free delimiter ch = true) data_factory.all_channels
  /\ Forall monitor_well_shaped monitors
  /\ Forall (fun item => has_channels (requested_channels (fst item)) (snd item))
            (combine loads monitors)
  /\ exists n : nat, Forall (fun m => sample_count m = n) monitors.

(** Two index lists share no column. *)
Definition disjoint_indices (l1 l2 : list nat) : Prop :=
  forall i, In i l1 -> ~ In i l2.

(** The named columns one transformer with its two monitors writes. *)
Definition transformer_entries (delimiter : string)
    (item : dss_transformer.Transformer
            * (dss_monitor.Monitor * dss_monitor.Monitor))
  : list (string * list Q) :=
  flat_map
    (fun ch =>
       [(transformer_object (fst item)
           ++ delimiter ++ "primary" ++ delimiter ++ ch,
         channel_column (dss_monitor.make_data (fst (snd item))) ch);
        (transformer_object (fst item)
           ++ delimiter ++ "secondary" ++ delimiter ++ ch,
         channel_column (dss_monitor.make_data (snd (snd item))) ch)])
    data_factory.all_channels.

(** A paired-sided aggregation input: a primary and a secondary monitor
    per transformer; transformers known by different object names;
    read-outs with one matrix column per channel name, all of the same
    number of samples, each naming the three voltage channels. *)
Definition paired_sided_input
    (monitors_primary monitors_secondary : list dss_monitor.Monitor)
    (transformers : list dss_transformer.Transformer) : Prop :=
  List.length monitors_primary = List.length transformers
  /\ List.length monitors_secondary = List.length transformers
  /\ NoDup (map transformer_object transformers)
  /\ Forall monitor_well_shaped (monitors_primary ++ monitors_secondary)
  /\ Forall (has_channels data_factory.all_channels)
            (monitors_primary ++ monitors_secondary)
  /\ exists n : nat,
       Forall (fun m => sample_count m = n)
              (monitors_primary ++ monitors_secondary).

(** The rational number of a position. *)
Abbreviation QN i := (inject_Z (Z.of_nat i)).

(** The series the scaling step of the initializer receives: the input
    samples, or the resampled ones when [n_interpolate] is given. *)
Definition scaling_input (values : list Q) (n_interpolate : option Z)
  : result (list Q) :=
  match n_interpolate with
  | None => Ok values
  | Some n => dss_loadshape.resample values n
  end.

(** Two lists of terminals denote the same set. *)
Definition same_terminals (s t : list Z) : Prop :=
  forall z : Z, In z s <-> In z t.

(** The text of the [phases] and [bus1] answers of the engine about an
    object, and the terminal texts that follow the bus name. *)
Definition phases_answer (dss : Engine) (name : dss_name.Name) : string :=
  dss ("? " ++ dss_name.object name ++ ".phases")%string.

Definition bus1_answer (dss : Engine) (name : dss_name.Name) : string :=
  dss ("? " ++ dss_name.object name ++ ".bus1")%string.

Definition terminal_texts (dss : Engine) (name : dss_name.Name) : list string :=
  tl (split_scan "." (bus1_answer dss name) 0 "").

Definition conn_answer (dss : Engine) (name : dss_name.Name) : string :=
  dss ("? " ++ dss_name.object name ++ ".conn")%string.

(** The values that can be assigned to a column of [n_row] entries: as
    many values, or a single one. *)
Definition fits_column (n_row : nat) (values : list Q) : Prop :=
  List.length values = n_row \/ List.length values = 1%nat.

(** The channel names of a read-out, from the header the interface
    reports. *)
Definition names_of_header (header : list string) : list string :=
  map (str_remove " "%char) ("hours"%string :: header).

Definition loadshape_object (ls : dss_loadshape.LoadShape) : string :=
  dss_name.object (dss_loadshape.name ls).

(** The samples a load shape holds in the store. *)
Definition loadshape_samples (h : store) (ls : dss_loadshape.LoadShape)
  : list Q :=
  deref h (dss_loadshape.values ls).

(** The triples the label loop runs over. *)
Definition label_rows (loads : list dss_load.Load)
    (loadshapes : list dss_loadshape.LoadShape) (random_states : list Z)
  : list (dss_load.Load * (dss_loadshape.LoadShape * Z)) :=
  combine loads (combine loadshapes random_states).

(** The engine's answer about the [kv] property of a load. *)
Definition kv_answer (dss : Engine) (load : dss_load.Load) : string :=
  dss ("? " ++ dss_name.object (dss_load.name load) ++ ".kv")%string.

(** The labels of a list of triples, given the [kv] of each. *)
Definition labels_of
    (rows : list (dss_load.Load * (dss_loadshape.LoadShape * Z)))
    (kvs : list string) : label_factory.Labels :=
  {| label_factory.base_kv := kvs;
     label_factory.connection :=
       map (fun r => str_lower (dss_connection.Connection_name
                                  (dss_load.connection (fst r)))) rows;
     label_factory.load_name :=
       map (fun r => dss_name.object (dss_load.name (fst r))) rows;
     label_factory.loadshape_name :=
       map (fun r => loadshape_object (fst (snd r))) rows;
     label_factory.meter_count :=
       map (fun r => dss_load.meter_count (fst r)) rows;
     label_factory.phase_count :=
       map (fun r => dss_load.phase_count (fst r)) rows;
     label_factory.phase_name :=
       map (fun r => dss_phase.Phase_name (dss_load.phase (fst r))) rows;
     label_factory.phase_value :=
       map (fun r => dss_phase.value (dss_load.phase (fst r))) rows;
     label_factory.profile_name :=
       map (fun r => dss_loadshape.profile_name (fst (snd r))) rows;
     label_factory.random_state := map (fun r => snd (snd r)) rows |}.

(** Two label dictionaries, list by list one after the other. *)
Definition labels_app (a b : label_factory.Labels) : label_factory.Labels :=
  {| label_factory.base_kv :=
       label_factory.base_kv a ++ label_factory.base_kv b;
     label_factory.connection :=
       label_factory.connection a ++ label_factory.connection b;
     label_factory.load_name :=
       label_factory.load_name a ++ label_factory.load_name b;
     label_factory.loadshape_name :=
       label_factory.loadshape_name a ++ label_factory.loadshape_name b;
     label_factory.meter_count :=
       label_factory.meter_count a ++ label_factory.meter_count b;
     label_factory.phase_count :=
       label_factory.phase_count a ++ label_factory.phase_count b;
     label_factory.phase_name :=
       label_factory.phase_name a ++ label_factory.phase_name b;
     label_factory.phase_value :=
       label_factory.phase_value a ++ label_factory.phase_value b;
     label_factory.profile_name :=
       label_factory.profile_name a ++ label_factory.profile_name b;
     label_factory.random_state :=
       label_factory.random_state a ++ label_factory.random_state b |}%list.

(** The number of entries of each of the ten lists of labels. *)
Definition labels_row_counts (labels : label_factory.Labels) : list nat :=
  [List.length (label_factory.base_kv labels);
   List.length (label_factory.connection labels);
   List.length (label_factory.load_name labels);
   List.length (label_factory.loadshape_name labels);
   List.length (label_factory.meter_count labels);
   List.length (label_factory.phase_count labels);
   List.length (label_factory.phase_name labels);
   List.length (label_factory.phase_value labels);
   List.length (label_factory.profile_name labels);
   List.length (label_factory.random_state labels)].

(** The pool of profile names the factory's mapping holds for a phase. *)
Definition phase_pool (p : dss_phase.Phase) : list string :=
  match loadshape_factory.phase_profile_mapping p with
  | Some names => names
  | None => []
  end.

(** A profile table that holds a non-empty profile under every name of
    every pool. *)
Definition complete_profile_table (profiles_df : dict (list Q)) : Prop :=
  forall (p : dss_phase.Phase) (profile_name : string),
    In profile_name (phase_pool p) ->
    exists profile,
      dict_get profiles_df profile_name = Some profile /\ profile <> [].

(** The load shape the factory makes for a load, with its samples in the
    store [h]: named after the load and a profile of the pool of the load's
    phase, with one sample per sample of that profile, all in [[0, 1]]. *)
Definition loadshape_for (profiles_df : dict (list Q))
    (recurrence : dss_loadshape.Recurrence) (h : store)
    (load : dss_load.Load) (ls : dss_loadshape.LoadShape) : Prop :=
  exists (profile_name : string) (profile : list Q),
    In profile_name (phase_pool (dss_load.phase load))
    /\ dict_get profiles_df profile_name = Some profile
    /\ dss_loadshape.name ls
       = {| dss_name.class_ := "loadshape";
            dss_name.element :=
              ("load_" ++ dss_name.element (dss_load.name load)
                 ++ "_" ++ profile_name)%string |}
    /\ dss_loadshape.profile_name ls = profile_name
    /\ dss_loadshape.recurrence ls = recurrence
    /\ List.length (loadshape_samples h ls) = List.length profile
    /\ Forall (fun s => 0 <= s <= 1) (loadshape_samples h ls)
    /\ In 1 (loadshape_samples h ls).

(** The command that attaches a load shape to its load. *)
Definition edit_command_for (load : dss_load.Load)
    (ls : dss_loadshape.LoadShape) : string :=
  ((dss_name.object (dss_load.name load) ++ "."
      ++ dss_loadshape.Recurrence_value (dss_loadshape.recurrence ls))
     ++ "=" ++ dss_name.element (dss_loadshape.name ls))%string.

(* ================================================================== *)
(** * Properties *)
(* ================================================================== *)

Unset Implicit Arguments.

(** ** Random states: one per load, from the master seed *)

Section Allocation.

Variable G : Generator.
Hypothesis G_in_range : draws_in_range G.

Lemma integers_ok (st : rng_state G) (low high : Z) :
  (low < high)%Z ->
  integers G st low high = Ok (bounded_draw G st low high).
Proof.
  intros H. unfold integers.
  destruct (Z.leb_spec high low); [lia | reflexivity].
Qed.

Lemma draw_random_states_ok (n : nat) :
  forall rng : rng_state G,
  exists seeds rng',
    loadshape_factory.draw_random_states G n rng = Ok (seeds, rng')
    /\ List.length seeds = n
    /\ Forall (fun s => (0 <= s < int32_max)%Z) seeds.
Proof.
  induction n as [|n IH]; intros rng;
    cbn [loadshape_factory.draw_random_states].
  - exists [], rng. repeat split; constructor.
  - rewrite integers_ok by (unfold int32_max; lia).
    cbn [bind fst snd].
    destruct (IH (snd (bounded_draw G rng 0 int32_max)))
      as (seeds & rng' & E & Hlen & Hall).
    rewrite E. cbn [bind fst snd].
    exists (fst (bounded_draw G rng 0 int32_max) :: seeds), rng'.
    repeat split.
    + simpl. now rewrite Hlen.
    + constructor; [|exact Hall].
      apply G_in_range. unfold int32_max. lia.
Qed.

End Allocation.

Lemma st_bind_ok_inv {A B : Type} (m : St A) (f : A -> St B) h b h' :
  st_bind m f h = (Ok b, h') ->
  exists a h1, m h = (Ok a, h1) /\ f a h1 = (Ok b, h').
Proof.
  unfold st_bind. destruct (m h) as [[a|e] h1]; intros E.
  - now exists a, h1.
  - discriminate.
Qed.

Lemma combine_fst_same_length {A B : Type} (xs : list A) :
  forall ys : list B, List.length ys = List.length xs ->
  map fst (combine xs ys) = xs.
Proof.
  induction xs as [|x xs IH]; intros [|y ys] H; simpl in *; try discriminate.
  - reflexivity.
  - f_equal. apply IH. lia.
Qed.

(** C1.  For every master seed and every list of loads, seeding the
    generator with the master seed and allocating returns exactly one
    random state per load, each a non-negative integer below
    [2^31 - 1] (hence representable in 32 bits), paired with the loads in
    their order.  The states depend only on the master seed and on the
    number of loads: any other list of the same length gets the same
    states, and whenever the factory returns, in whatever store, with
    whatever profile table, noise source and recurrence, it returns these
    states. *)
Theorem random_states_deterministic
    (G : Generator) (G_in_range : draws_in_range G)
    (random_state : Z) (loads : list dss_load.Load) :
  exists seeds : list Z,
    loadshape_factory.seeded_random_states G random_state loads = Ok seeds
    /\ List.length seeds = List.length loads
    /\ Forall (fun s => (0 <= s < int32_max)%Z /\ (s < 2 ^ 32)%Z) seeds
    /\ map fst (combine loads seeds) = loads
    /\ (forall loads' : list dss_load.Load,
          List.length loads' = List.length loads ->
          loadshape_factory.seeded_random_states G random_state loads' = Ok seeds)
    /\ (forall standard_normal profiles_df recurrence (h h' : store) r,
          loadshape_factory.make_ercot_iqr_random_loadshapes
            G standard_normal profiles_df loads recurrence
            (default_rng G random_state) h = (Ok r, h') ->
          snd (fst r) = seeds).
Proof.
  destruct (draw_random_states_ok G G_in_range (List.length loads)
              (default_rng G random_state))
    as (seeds & rng' & E & Hlen & Hall).
  exists seeds.
  assert (Es : forall loads' : list dss_load.Load,
             List.length loads' = List.length loads ->
             loadshape_factory.seeded_random_states G random_state loads'
             = Ok seeds).
  { intros loads' Hl.
    unfold loadshape_factory.seeded_random_states,
      loadshape_factory.allocate_random_states.
    rewrite Hl, E. reflexivity. }
  split; [apply Es; reflexivity|].
  split; [exact Hlen|].
  split.
  { eapply Forall_impl; [|exact Hall].
    intros s Hs. split; [exact Hs|]. unfold int32_max in Hs. lia. }
  split; [apply combine_fst_same_length; exact Hlen|].
  split; [exact Es|].
  intros standard_normal profiles_df recurrence h h' r Hr.
  unfold loadshape_factory.make_ercot_iqr_random_loadshapes in Hr.
  apply st_bind_ok_inv in Hr. destruct Hr as (alloc & h1 & Ha & Hr).
  unfold st_lift, loadshape_factory.allocate_random_states in Ha.
  rewrite E in Ha. injection Ha as <- <-.
  apply st_bind_ok_inv in Hr. destruct Hr as (tuples & h2 & _ & Hr).
  unfold st_ret in Hr. injection Hr as <- _. reflexivity.
Qed.

(** The contract holds for the concrete generator. *)
Lemma lcg_in_range : draws_in_range lcg.
Proof.
  intros st low high H. simpl.
  pose proof (Z.mod_pos_bound st (high - low)). lia.
Qed.

Lemma random_states_deterministic_witness :
  draws_in_range lcg
  /\ exists seeds : list Z,
       loadshape_factory.seeded_random_states lcg 42
         [example_load "a" dss_phase.A; example_load "b" dss_phase.ABC] = Ok seeds
       /\ List.length seeds = 2%nat.
Proof.
  split; [exact lcg_in_range|].
  destruct (random_states_deterministic lcg lcg_in_range 42
              [example_load "a" dss_phase.A; example_load "b" dss_phase.ABC])
    as (seeds & E & Hlen & _).
  exists seeds. split; [exact E | exact Hlen].
Defined.

(** ** The embedding on small inputs *)

Example split_on_underscore :
  str_split "load.a_V1" "_" = Ok ["load.a"; "V1"]%string.
Proof. reflexivity. Qed.

Example split_on_longer_separator :
  str_split "a--b-c---d" "--" = Ok ["a"; "b-c"; "-d"]%string.
Proof. reflexivity. Qed.

Example split_name_with_separator :
  str_split "load.a_b_V1" "_" = Ok ["load.a"; "b"; "V1"]%string.
Proof. reflexivity. Qed.

Example split_empty_separator : str_split "load.a" "" = Raise ValueError.
Proof. reflexivity. Qed.

Example iqr_of_four :
  exists q, scipy_stats_iqr [1; 2; 3; 4] = Some q /\ q == 3 # 2.
Proof. eexists. split; [vm_compute; reflexivity | reflexivity]. Qed.

Example scaled_samples :
  dss_loadshape.normalize [3; 1; 2; 5] = Ok [2 # 4; 0; 1 # 4; 1].
Proof. vm_compute. reflexivity. Qed.

Example resampled_to_double_length :
  exists v,
    dss_loadshape.resample [3; 1; 2; 5] 8 = Ok v
    /\ Forall2 Qeq v [3; 2; 1; 3 # 2; 2; 7 # 2; 5; 13 # 2].
Proof.
  eexists. split; [vm_compute; reflexivity|].
  repeat constructor.
Qed.

Example resample_to_zero_length :
  dss_loadshape.resample [3; 1; 2; 5] 0 = Raise ZeroDivisionError.
Proof. reflexivity. Qed.

Example three_seeds :
  loadshape_factory.seeded_random_states lcg 42
    [example_load "a" dss_phase.A; example_load "b" dss_phase.AB;
     example_load "c" dss_phase.ABC]
  = Ok [42; 719156366; 968681144]%Z.
Proof. vm_compute. reflexivity. Qed.

(** ** Profile pools and the profile of a three-phase load *)

Lemma disjointb_spec (l1 l2 : list string) :
  disjointb l1 l2 = true -> forall x, In x l1 -> ~ In x l2.
Proof.
  unfold disjointb. rewrite forallb_forall. intros H x H1 H2.
  specialize (H x H1). apply negb_true_iff in H.
  assert (E : existsb (String.eqb x) l2 = true).
  { apply existsb_exists. exists x. split; [exact H2 | apply String.eqb_refl]. }
  congruence.
Qed.

Lemma list_getitem_in_range {A : Type} (xs : list A) (i : Z) :
  (0 <= i < Z.of_nat (List.length xs))%Z ->
  exists x, list_getitem xs i = Ok x /\ nth_error xs (Z.to_nat i) = Some x.
Proof.
  intros H. unfold list_getitem.
  destruct (Z.ltb_spec i 0); [lia|].
  destruct (Z.ltb_spec i 0); [lia|].
  destruct (Z.leb_spec (Z.of_nat (List.length xs)) i); [lia|]. simpl.
  destruct (nth_error xs (Z.to_nat i)) as [x|] eqn:E.
  - now exists x.
  - apply nth_error_None in E. lia.
Qed.

(** C5.  The three pools of the factory are pairwise disjoint, and for
    every prototype that carries the factory's mapping, every load of
    phase ABC and every random state, the selection succeeds with an index
    in [[0, len(triple))] and the profile name at that index of [triple];
    the name is in no other pool. *)
Theorem three_phase_profile_in_triple_pool
    (G : Generator) (G_in_range : draws_in_range G) :
  (forall x, In x loadshape_factory.single_wye ->
             ~ In x loadshape_factory.single_delta)
  /\ (forall x, In x loadshape_factory.single_wye ->
                ~ In x loadshape_factory.triple)
  /\ (forall x, In x loadshape_factory.single_delta ->
                ~ In x loadshape_factory.triple)
  /\ forall (self : loadshape_prototype.IqrRandomLoadShapePrototype)
            (load : dss_load.Load) (random_state : Z),
       loadshape_prototype._phase_profile_mapping self
         = loadshape_factory.phase_profile_mapping ->
       dss_load.phase load = dss_phase.ABC ->
       exists (profile_index : Z) (profile_name : string),
         loadshape_prototype.select_profile G self load random_state
           = Ok (profile_index, profile_name)
         /\ (0 <= profile_index
               < Z.of_nat (List.length loadshape_factory.triple))%Z
         /\ nth_error loadshape_factory.triple (Z.to_nat profile_index)
              = Some profile_name
         /\ In profile_name loadshape_factory.triple
         /\ ~ In profile_name loadshape_factory.single_wye
         /\ ~ In profile_name loadshape_factory.single_delta.
Proof.
  assert (D1 := disjointb_spec loadshape_factory.single_wye
                  loadshape_factory.single_delta eq_refl).
  assert (D2 := disjointb_spec loadshape_factory.single_wye
                  loadshape_factory.triple eq_refl).
  assert (D3 := disjointb_spec loadshape_factory.single_delta
                  loadshape_factory.triple eq_refl).
  repeat (split; [assumption|]).
  intros self load random_state Hmap Hphase.
  unfold loadshape_prototype.select_profile.
  rewrite Hmap, Hphase.
  cbn [loadshape_factory.phase_profile_mapping bind].
  set (n := Z.of_nat (List.length loadshape_factory.triple)).
  assert (Hn : (0 < n)%Z) by (subst n; simpl; lia).
  rewrite (integers_ok G _ _ _ Hn). cbn [bind fst].
  pose proof (G_in_range (default_rng G random_state) _ _ Hn) as Hr.
  destruct (list_getitem_in_range loadshape_factory.triple _ Hr)
    as (x & Eget & Enth).
  rewrite Eget. cbn [bind].
  exists (fst (bounded_draw G (default_rng G random_state) 0 n)), x.
  assert (Hin : In x loadshape_factory.triple)
    by (eapply nth_error_In; exact Enth).
  repeat split; try assumption; try apply Hr.
  - intros Hw. exact (D2 x Hw Hin).
  - intros Hd. exact (D3 x Hd Hin).
Qed.

Lemma three_phase_profile_in_triple_pool_witness :
  draws_in_range lcg
  /\ exists (profile_index : Z) (profile_name : string),
       loadshape_prototype.select_profile lcg
         (loadshape_factory.make_prototype cycle_normal [] dss_loadshape.YEARLY)
         (example_load "a" dss_phase.ABC) 7
         = Ok (profile_index, profile_name)
       /\ In profile_name loadshape_factory.triple.
Proof.
  split; [exact lcg_in_range|].
  destruct (three_phase_profile_in_triple_pool lcg lcg_in_range)
    as (_ & _ & _ & H).
  destruct (H (loadshape_factory.make_prototype cycle_normal []
                 dss_loadshape.YEARLY)
              (example_load "a" dss_phase.ABC) 7%Z eq_refl eq_refl)
    as (i & nm & E & _ & _ & Hin & _).
  exists i, nm. split; [exact E | exact Hin].
Defined.

(** ** Scaling the samples into [0, 1] *)

Lemma Qlt_bool_iff (x y : Q) : Qlt_bool x y = true <-> x < y.
Proof.
  unfold Qlt_bool. rewrite negb_true_iff. split.
  - intros H. apply Qnot_le_lt. intros Hle.
    apply Qle_bool_iff in Hle. congruence.
  - intros H. destruct (Qle_bool y x) eqn:E; [|reflexivity].
    apply Qle_bool_iff in E. exfalso. exact (Qlt_not_le _ _ H E).
Qed.

Lemma Qlt_bool_false_iff (x y : Q) : Qlt_bool x y = false <-> y <= x.
Proof.
  unfold Qlt_bool. rewrite negb_false_iff. apply Qle_bool_iff.
Qed.

Lemma Qle_bool_false_iff (x y : Q) : Qle_bool x y = false <-> y < x.
Proof.
  rewrite <- Qlt_bool_iff. unfold Qlt_bool.
  destruct (Qle_bool x y); simpl; intuition congruence.
Qed.

Lemma fold_min_spec (v : list Q) :
  forall x : Q,
    let m := fold_left (fun m y => if Qle_bool m y then m else y) v x in
    m <= x /\ (forall y, In y v -> m <= y) /\ (m = x \/ In m v).
Proof.
  induction v as [|a v IH]; intros x; simpl.
  - split; [apply Qle_refl|]. split; [intros y []|now left].
  - destruct (Qle_bool x a) eqn:E.
    + apply Qle_bool_iff in E.
      destruct (IH x) as (H1 & H2 & H3).
      split; [exact H1|]. split.
      * intros y [<-|Hy]; [eapply Qle_trans; eauto | auto].
      * destruct H3; [now left | right; now right].
    + apply Qle_bool_false_iff in E.
      destruct (IH a) as (H1 & H2 & H3).
      split; [eapply Qle_trans; [exact H1 | apply Qlt_le_weak; exact E]|].
      split.
      * intros y [<-|Hy]; [exact H1 | auto].
      * right. destruct H3 as [->|H3]; [now left | now right].
Qed.

Lemma fold_max_spec (v : list Q) :
  forall x : Q,
    let m := fold_left (fun m y => if Qle_bool y m then m else y) v x in
    x <= m /\ (forall y, In y v -> y <= m) /\ (m = x \/ In m v).
Proof.
  induction v as [|a v IH]; intros x; simpl.
  - split; [apply Qle_refl|]. split; [intros y []|now left].
  - destruct (Qle_bool a x) eqn:E.
    + apply Qle_bool_iff in E.
      destruct (IH x) as (H1 & H2 & H3).
      split; [exact H1|]. split.
      * intros y [<-|Hy]; [eapply Qle_trans; eauto | auto].
      * destruct H3; [now left | right; now right].
    + apply Qle_bool_false_iff in E.
      destruct (IH a) as (H1 & H2 & H3).
      split; [eapply Qle_trans; [apply Qlt_le_weak; exact E | exact H1]|].
      split.
      * intros y [<-|Hy]; [exact H1 | auto].
      * right. destruct H3 as [->|H3]; [now left | now right].
Qed.

Lemma Qmin_list_spec (v : list Q) :
  v <> [] ->
  exists m, Qmin_list v = Ok m /\ In m v /\ forall y, In y v -> m <= y.
Proof.
  destruct v as [|x v]; [congruence|]. intros _. simpl.
  destruct (fold_min_spec v x) as (H1 & H2 & H3).
  eexists. split; [reflexivity|]. split.
  - destruct H3 as [->|H3]; [now left | now right].
  - intros y [<-|Hy]; auto.
Qed.

Lemma Qmax_list_spec (v : list Q) :
  v <> [] ->
  exists m, Qmax_list v = Ok m /\ In m v /\ forall y, In y v -> y <= m.
Proof.
  destruct v as [|x v]; [congruence|]. intros _. simpl.
  destruct (fold_max_spec v x) as (H1 & H2 & H3).
  eexists. split; [reflexivity|]. split.
  - destruct H3 as [->|H3]; [now left | now right].
  - intros y [<-|Hy]; auto.
Qed.

(** The scaling of one sample that lies between the two abscissae. *)
Lemma np_interp1_at_max (lo hi x : Q) :
  lo <= x -> hi <= x -> np_interp1 lo hi 0 1 x = 1.
Proof.
  intros H1 H2. unfold np_interp1.
  destruct (Qlt_bool hi x) eqn:E1; [reflexivity|].
  destruct (Qlt_bool x lo) eqn:E2.
  - apply Qlt_bool_iff in E2. exfalso. exact (Qlt_not_le _ _ E2 H1).
  - assert (E3 : Qle_bool hi x = true) by (apply Qle_bool_iff; exact H2).
    rewrite E3. reflexivity.
Qed.

Lemma np_interp1_at_min (lo hi x : Q) :
  lo < hi -> x == lo -> np_interp1 lo hi 0 1 x = 0.
Proof.
  intros Hlt Hx. unfold np_interp1.
  assert (E1 : Qlt_bool hi x = false).
  { apply Qlt_bool_false_iff. rewrite Hx. apply Qlt_le_weak. exact Hlt. }
  assert (E2 : Qlt_bool x lo = false).
  { apply Qlt_bool_false_iff. rewrite Hx. apply Qle_refl. }
  assert (E3 : Qle_bool hi x = false).
  { apply Qle_bool_false_iff. rewrite Hx. exact Hlt. }
  assert (E4 : Qeq_bool lo x = true).
  { apply Qeq_bool_iff. symmetry. exact Hx. }
  rewrite E1, E2, E3, E4. reflexivity.
Qed.

Lemma np_interp1_bounds (lo hi x : Q) :
  lo <= x -> x <= hi -> 0 <= np_interp1 lo hi 0 1 x <= 1.
Proof.
  intros H1 H2. unfold np_interp1.
  destruct (Qlt_bool hi x) eqn:E1; [split; discriminate|].
  destruct (Qlt_bool x lo) eqn:E2; [split; [apply Qle_refl | discriminate]|].
  destruct (Qle_bool hi x) eqn:E3; [split; discriminate|].
  destruct (Qeq_bool lo x) eqn:E4; [split; [apply Qle_refl | discriminate]|].
  apply Qle_bool_false_iff in E3.
  assert (Hd : 0 < hi - lo).
  { unfold Qminus. rewrite <- (Qplus_opp_r lo).
    apply Qplus_lt_l. eapply Qle_lt_trans; eauto. }
  assert (Hn : ~ hi - lo == 0).
  { intros E. rewrite E in Hd. exact (Qlt_irrefl _ Hd). }
  assert (Hx0 : 0 <= x - lo).
  { unfold Qminus. rewrite <- (Qplus_opp_r lo). apply Qplus_le_l. exact H1. }
  assert (Hx1 : x - lo <= hi - lo).
  { unfold Qminus. apply Qplus_le_l. exact H2. }
  assert (Eq : (1 - 0) / (hi - lo) * (x - lo) + 0 == (x - lo) / (hi - lo)).
  { field. exact Hn. }
  rewrite Eq. split.
  - apply Qle_shift_div_l; [exact Hd|]. rewrite Qmult_0_l. exact Hx0.
  - apply Qle_shift_div_r; [exact Hd|]. rewrite Qmult_1_l. exact Hx1.
Qed.

(** ** The initializer of a load shape on the store *)

Lemma deref_old (h ext : store) (a : addr) :
  (a < List.length h)%nat -> deref (h ++ ext)%list a = deref h a.
Proof. intros H. unfold deref. now rewrite app_nth1. Qed.

Lemma deref_new (h ext : store) (k : nat) :
  deref (h ++ ext)%list (List.length h + k)%nat = deref ext k.
Proof.
  unfold deref. rewrite app_nth2 by lia.
  f_equal. lia.
Qed.

Lemma init_unfold (name profile_name : string)
    (recurrence : dss_loadshape.Recurrence) (values : addr)
    (n_interpolate : option Z) (h : store) :
  (values < List.length h)%nat ->
  dss_loadshape.__init__ name profile_name recurrence values n_interpolate h
  = init_outcome name profile_name recurrence (deref h values) n_interpolate h.
Proof.
  intros Ha.
  unfold dss_loadshape.__init__, init_outcome, np_copy, st_bind, read_array,
    new_array, st_lift, st_ret.
  destruct n_interpolate as [n|].
  - rewrite (@deref_old h [deref h values] values Ha).
    destruct (dss_loadshape.resample (deref h values) n) as [v1|e];
      [|reflexivity].
    rewrite length_app. cbn [List.length].
    replace (deref ((h ++ [deref h values]) ++ [v1])%list
               (List.length h + 1)%nat) with v1.
    2:{ rewrite <- app_assoc. rewrite deref_new. reflexivity. }
    destruct (dss_loadshape.normalize v1) as [v2|e].
    + rewrite !length_app. cbn [List.length].
      rewrite <- !app_assoc. cbn [app].
      replace (List.length h + 1 + 1)%nat with (List.length h + 2)%nat by lia.
      reflexivity.
    + rewrite <- !app_assoc. reflexivity.
  - replace (deref (h ++ [deref h values])%list (List.length h))
      with (deref h values).
    2:{ pose proof (deref_new h [deref h values] 0) as E.
        rewrite Nat.add_0_r in E. rewrite E. reflexivity. }
    destruct (dss_loadshape.normalize (deref h values)) as [v2|e];
      [|reflexivity].
    rewrite length_app. cbn [List.length].
    rewrite <- app_assoc. reflexivity.
Qed.

Lemma normalize_eq (v : list Q) (lo hi : Q) :
  Qmin_list v = Ok lo -> Qmax_list v = Ok hi ->
  dss_loadshape.normalize v = Ok (np_interp v lo hi 0 1).
Proof.
  intros E1 E2. unfold dss_loadshape.normalize. rewrite E1, E2. reflexivity.
Qed.

Lemma init_None_ok (name profile_name : string)
    (recurrence : dss_loadshape.Recurrence) (values : addr) (h : store)
    (v2 : list Q) :
  (values < List.length h)%nat ->
  dss_loadshape.normalize (deref h values) = Ok v2 ->
  exists ls h',
    dss_loadshape.__init__ name profile_name recurrence values None h
      = (Ok ls, h')
    /\ deref h' (dss_loadshape.values ls) = v2.
Proof.
  intros Ha En. rewrite init_unfold by exact Ha.
  unfold init_outcome. rewrite En.
  eexists. eexists. split; [reflexivity|].
  cbn [dss_loadshape.values]. rewrite deref_new. reflexivity.
Qed.

(** The initializer returns as soon as the series reaching the scaling
    step can be scaled, and its load shape holds the scaled samples. *)
Lemma init_ok (name profile_name : string)
    (recurrence : dss_loadshape.Recurrence) (values : addr)
    (n_interpolate : option Z) (h : store) (series scaled : list Q) :
  (values < List.length h)%nat ->
  scaling_input (deref h values) n_interpolate = Ok series ->
  dss_loadshape.normalize series = Ok scaled ->
  exists ls h',
    dss_loadshape.__init__ name profile_name recurrence values n_interpolate h
      = (Ok ls, h')
    /\ deref h' (dss_loadshape.values ls) = scaled.
Proof.
  intros Ha Es En. destruct n_interpolate as [n|]; cbn [scaling_input] in Es.
  - rewrite init_unfold by exact Ha. unfold init_outcome. rewrite Es, En.
    eexists. eexists. split; [reflexivity|].
    cbn [dss_loadshape.values]. rewrite deref_new. reflexivity.
  - injection Es as <-. apply init_None_ok; assumption.
Qed.

(** C4.  For every series with two different samples, the scaling step
    succeeds and keeps the length; every scaled sample lies in [[0, 1]];
    the value [0] and the value [1] both occur among the scaled samples.
    Whenever such a series is what the scaling step of the initializer
    receives (the input array's samples, or the resampled ones), the
    initializer returns a load shape whose array holds exactly these
    scaled samples. *)
Theorem normalized_samples_span_unit_interval (series : list Q) :
  non_constant series ->
  exists scaled : list Q,
    dss_loadshape.normalize series = Ok scaled
    /\ List.length scaled = List.length series
    /\ Forall (fun s => 0 <= s <= 1) scaled
    /\ In 0 scaled
    /\ In 1 scaled
    /\ forall (name profile_name : string)
              (recurrence : dss_loadshape.Recurrence) (a : addr) (h : store)
              (n_interpolate : option Z),
         (a < List.length h)%nat ->
         scaling_input (deref h a) n_interpolate = Ok series ->
         exists ls h',
           dss_loadshape.__init__ name profile_name recurrence a n_interpolate h
             = (Ok ls, h')
           /\ deref h' (dss_loadshape.values ls) = scaled.
Proof.
  intros (x & y & Hx & Hy & Hxy).
  assert (Hne : series <> []) by (intros ->; exact Hx).
  destruct (Qmin_list_spec _ Hne) as (lo & Elo & Hlo_in & Hlo).
  destruct (Qmax_list_spec _ Hne) as (hi & Ehi & Hhi_in & Hhi).
  assert (Hlt : lo < hi).
  { apply Qnot_le_lt. intros Hle.
    apply Hxy. apply Qle_antisym.
    - eapply Qle_trans; [apply Hhi; exact Hx|].
      eapply Qle_trans; [exact Hle|]. apply Hlo; exact Hy.
    - eapply Qle_trans; [apply Hhi; exact Hy|].
      eapply Qle_trans; [exact Hle|]. apply Hlo; exact Hx. }
  assert (En : dss_loadshape.normalize series = Ok (np_interp series lo hi 0 1))
    by (apply normalize_eq; assumption).
  exists (np_interp series lo hi 0 1).
  split; [exact En|].
  split; [unfold np_interp; apply length_map|].
  split.
  { unfold np_interp. apply Forall_map. apply Forall_forall.
    intros s Hs. apply np_interp1_bounds; [apply Hlo | apply Hhi]; exact Hs. }
  split.
  { unfold np_interp. apply in_map_iff. exists lo.
    split; [apply np_interp1_at_min; [exact Hlt | apply Qeq_refl] | exact Hlo_in]. }
  split.
  { unfold np_interp. apply in_map_iff. exists hi.
    split; [apply np_interp1_at_max; [apply Qlt_le_weak; exact Hlt | apply Qle_refl]
           | exact Hhi_in]. }
  intros name profile_name recurrence a h n_interpolate Ha Hs.
  eapply init_ok; eassumption.
Qed.

Lemma normalized_samples_span_unit_interval_witness :
  non_constant [3; 1; 2; 5]
  /\ exists scaled : list Q,
       dss_loadshape.normalize [3; 1; 2; 5] = Ok scaled
       /\ In 0 scaled /\ In 1 scaled.
Proof.
  assert (H : non_constant [3; 1; 2; 5]).
  { exists 3, 1. split; [simpl; auto|]. split; [simpl; auto|].
    intros E. discriminate E. }
  split; [exact H|].
  destruct (normalized_samples_span_unit_interval _ H)
    as (scaled & E & _ & _ & H0 & H1 & _).
  exists scaled. auto.
Defined.

(** Scaling a constant series: every sample meets the last abscissa and
    takes the right value, [1]. *)
Lemma normalize_constant (values : list Q) (c : Q) :
  constant_series c values ->
  exists scaled : list Q,
    dss_loadshape.normalize values = Ok scaled
    /\ List.length scaled = List.length values
    /\ Forall (fun s => s = 1) scaled.
Proof.
  intros (Hne & Hall).
  destruct (Qmin_list_spec _ Hne) as (lo & Elo & Hlo_in & Hlo).
  destruct (Qmax_list_spec _ Hne) as (hi & Ehi & Hhi_in & Hhi).
  rewrite Forall_forall in Hall.
  exists (np_interp values lo hi 0 1).
  split; [apply normalize_eq; assumption|].
  split; [unfold np_interp; apply length_map|].
  unfold np_interp. apply Forall_map. apply Forall_forall.
  intros s Hs. apply np_interp1_at_max; [apply Hlo; exact Hs|].
  rewrite (Hall s Hs), (Hall hi Hhi_in). apply Qle_refl.
Qed.

(** C10.  For every store, every array of it passed as [values] and every
    [n_interpolate], whether the initializer returns or raises: the array
    at [values] holds the samples it held before, and so does every other
    array that existed; the array of the returned load shape is a new
    object, at an address that did not exist before. *)
Theorem init_leaves_input_array (name profile_name : string)
    (recurrence : dss_loadshape.Recurrence) (values : addr)
    (n_interpolate : option Z) (h : store) :
  (values < List.length h)%nat ->
  let out :=
    dss_loadshape.__init__ name profile_name recurrence values n_interpolate h in
  deref (snd out) values = deref h values
  /\ (forall a : addr, (a < List.length h)%nat -> deref (snd out) a = deref h a)
  /\ (forall ls, fst out = Ok ls ->
        (List.length h <= dss_loadshape.values ls)%nat
        /\ dss_loadshape.values ls <> values).
Proof.
  intros Ha out. subst out. rewrite init_unfold by exact Ha.
  unfold init_outcome.
  destruct n_interpolate as [n|].
  - destruct (dss_loadshape.resample (deref h values) n) as [v1|e].
    + destruct (dss_loadshape.normalize v1) as [v2|e]; cbn [fst snd].
      * split; [apply deref_old; exact Ha|].
        split; [intros a Hlt; apply deref_old; exact Hlt|].
        intros ls E. injection E as <-. cbn [dss_loadshape.values]. lia.
      * split; [apply deref_old; exact Ha|].
        split; [intros a Hlt; apply deref_old; exact Hlt|].
        intros ls E. discriminate E.
    + cbn [fst snd].
      split; [apply deref_old; exact Ha|].
      split; [intros a Hlt; apply deref_old; exact Hlt|].
      intros ls E. discriminate E.
  - destruct (dss_loadshape.normalize (deref h values)) as [v2|e]; cbn [fst snd].
    + split; [apply deref_old; exact Ha|].
      split; [intros a Hlt; apply deref_old; exact Hlt|].
      intros ls E. injection E as <-. cbn [dss_loadshape.values]. lia.
    + split; [apply deref_old; exact Ha|].
      split; [intros a Hlt; apply deref_old; exact Hlt|].
      intros ls E. discriminate E.
Qed.

Lemma init_leaves_input_array_witness :
  (0 < List.length [[3; 1; 2; 5]])%nat
  /\ deref (snd (dss_loadshape.__init__ "load_a_BUSHILF_SCENT" "BUSHILF_SCENT"
                   dss_loadshape.YEARLY 0%nat (Some 8%Z) [[3; 1; 2; 5]]))
           0%nat
     = [3; 1; 2; 5].
Proof.
  assert (H : (0 < List.length [[3; 1; 2; 5]])%nat) by (simpl; lia).
  split; [exact H|].
  exact (proj1 (init_leaves_input_array "load_a_BUSHILF_SCENT" "BUSHILF_SCENT"
                  dss_loadshape.YEARLY 0%nat (Some 8%Z) [[3; 1; 2; 5]] H)).
Defined.

(** ** Resampling *)

Lemma QN_neq_0 (n : nat) : (0 < n)%nat -> ~ QN n == 0.
Proof.
  intros H E. unfold Qeq in E. simpl in E. lia.
Qed.

Lemma inject_Z_neq_0 (z : Z) : z <> 0%Z -> ~ inject_Z z == 0.
Proof.
  intros H E. unfold Qeq in E. simpl in E. lia.
Qed.

Lemma QN_lt (i j : nat) : QN i < QN j <-> (i < j)%nat.
Proof. rewrite <- Zlt_Qlt. lia. Qed.

Lemma QN_le (i j : nat) : QN i <= QN j <-> (i <= j)%nat.
Proof. rewrite <- Zle_Qle. lia. Qed.

Lemma nth_arange_int (L k : nat) :
  (k < L)%nat -> nth k (np_arange_int L) 0 = QN k.
Proof.
  intros H. unfold np_arange_int.
  rewrite (nth_indep _ 0 (QN 0)) by (rewrite length_map, length_seq; exact H).
  rewrite (map_nth (fun i => QN i)). now rewrite seq_nth.
Qed.

Lemma length_arange_int (L : nat) : List.length (np_arange_int L) = L.
Proof. unfold np_arange_int. now rewrite length_map, length_seq. Qed.

(** The number of grid points below a point that sits on the grid. *)
Lemma searchsorted_arange_int (L i : nat) (v : Q) :
  v == QN i -> np_searchsorted (np_arange_int L) v = Nat.min L i.
Proof.
  intros Hv. unfold np_searchsorted, np_arange_int.
  induction L as [|L IH]; [reflexivity|].
  rewrite seq_S, map_app, filter_app, length_app, IH. cbn [map filter Nat.add].
  destruct (Qlt_bool (QN L) v) eqn:E.
  - apply Qlt_bool_iff in E. rewrite Hv in E. apply QN_lt in E.
    cbn [List.length]. lia.
  - apply Qlt_bool_false_iff in E. rewrite Hv in E. apply QN_le in E.
    cbn [List.length]. lia.
Qed.

(** The evenly spaced positions: when the step divides the length into
    [n] parts there are exactly [n] of them. *)
Lemma np_arange_positions (L : nat) (n : Z) :
  (0 < L)%nat -> (0 < n)%Z ->
  np_arange 0 (QN L) (QN L / inject_Z n)
  = map (fun i => 0 + QN i * (QN L / inject_Z n)) (seq 0 (Z.to_nat n)).
Proof.
  intros HL Hn. unfold np_arange.
  assert (E : (QN L - 0) / (QN L / inject_Z n) == inject_Z n).
  { field. split; [apply inject_Z_neq_0; lia | apply QN_neq_0; exact HL]. }
  rewrite (Qceiling_comp _ _ E), Qceiling_Z. reflexivity.
Qed.

(** At a grid point the interpolant returns the sample of that point. *)
Lemma interp1d_eval_on_grid (y : list Q) (i : nat) (v : Q) :
  (2 <= List.length y)%nat -> (i < List.length y)%nat -> v == QN i ->
  interp1d_eval (np_arange_int (List.length y)) y v == nth i y 0.
Proof.
  intros HL Hi Hv. unfold interp1d_eval.
  rewrite (searchsorted_arange_int (List.length y) i v Hv), length_arange_int.
  rewrite (Nat.min_r _ i) by lia.
  destruct i as [|i].
  - replace (Nat.min (Nat.max 0 1) (List.length y - 1)) with 1%nat by lia.
    cbn [Nat.sub].
    rewrite !nth_arange_int by lia.
    rewrite Hv. cbn. field.
  - replace (Nat.min (Nat.max (S i) 1) (List.length y - 1)) with (S i) by lia.
    replace (S i - 1)%nat with i by lia.
    rewrite !nth_arange_int by lia.
    rewrite Hv.
    assert (E : QN (S i) == QN i + 1).
    { rewrite Nat2Z.inj_succ. unfold Z.succ. rewrite inject_Z_plus. reflexivity. }
    rewrite E. field.
    intros E0.
    assert (E1 : QN i + 1 - QN i == 1) by ring.
    rewrite E1 in E0. discriminate E0.
Qed.

Lemma Forall2_map_pointwise {A B C : Type} (R : B -> C -> Prop)
    (f : A -> B) (g : A -> C) (l : list A) :
  (forall x, In x l -> R (f x) (g x)) -> Forall2 R (map f l) (map g l).
Proof.
  induction l as [|a l IH]; intros H; simpl; constructor.
  - apply H. now left.
  - apply IH. intros x Hx. apply H. now right.
Qed.

Lemma map_nth_seq (v : list Q) :
  map (fun i => nth i v 0) (seq 0 (List.length v)) = v.
Proof.
  induction v as [|x v IH]; [reflexivity|].
  cbn [List.length seq map nth]. f_equal.
  rewrite <- seq_shift, map_map. exact IH.
Qed.

(** C7.  For every series of at least two samples, resampling to the
    series' own length succeeds and returns, sample by sample, the
    original series. *)
Theorem resample_same_length_identity (values : list Q) :
  (2 <= List.length values)%nat ->
  exists resampled : list Q,
    dss_loadshape.resample values (Z.of_nat (List.length values)) = Ok resampled
    /\ List.length resampled = List.length values
    /\ Forall2 Qeq resampled values.
Proof.
  intros HL. unfold dss_loadshape.resample.
  set (L := List.length values) in *.
  unfold interp1d. rewrite length_arange_int.
  fold L. rewrite Nat.eqb_refl. cbn [negb].
  destruct (Nat.ltb_spec L 2) as [Hlt|_]; [lia|].
  cbn [bind]. unfold py_truediv.
  destruct (Z.eqb_spec (Z.of_nat L) 0) as [E0|_]; [lia|].
  cbn [bind].
  rewrite np_arange_positions by lia.
  rewrite Nat2Z.id, map_map.
  eexists. split; [reflexivity|].
  split; [now rewrite length_map, length_seq|].
  assert (Hpt : Forall2 Qeq
            (map (fun x => interp1d_eval (np_arange_int L) values
                             (0 + QN x * (QN L / QN L))) (seq 0 L))
            (map (fun i => nth i values 0) (seq 0 L))).
  2:{ subst L. rewrite map_nth_seq in Hpt. exact Hpt. }
  apply Forall2_map_pointwise.
  intros i Hi. apply in_seq in Hi.
  subst L. apply interp1d_eval_on_grid; [exact HL | lia|].
  field. apply QN_neq_0. lia.
Qed.

Lemma resample_same_length_identity_witness :
  (2 <= List.length [3; 1; 2; 5])%nat
  /\ exists resampled : list Q,
       dss_loadshape.resample [3; 1; 2; 5] 4 = Ok resampled
       /\ Forall2 Qeq resampled [3; 1; 2; 5].
Proof.
  assert (H : (2 <= List.length [3; 1; 2; 5])%nat) by (simpl; lia).
  split; [exact H|].
  destruct (resample_same_length_identity [3; 1; 2; 5] H)
    as (resampled & E & _ & HF).
  exists resampled. split; [exact E | exact HF].
Defined.

(** On a constant series every segment is flat: the interpolant returns
    the constant at every point, inside the data or outside. *)
Lemma interp1d_eval_constant (y : list Q) (c x_new : Q) :
  Forall (fun s => s == c) y -> (2 <= List.length y)%nat ->
  interp1d_eval (np_arange_int (List.length y)) y x_new == c.
Proof.
  intros Hall HL. unfold interp1d_eval. rewrite length_arange_int.
  set (i := Nat.min (Nat.max (np_searchsorted (np_arange_int (List.length y))
                                x_new) 1) (List.length y - 1)).
  assert (Hi : (1 <= i <= List.length y - 1)%nat) by (subst i; lia).
  assert (Hlo : nth (i - 1) y 0 == c).
  { rewrite Forall_forall in Hall. apply Hall. apply nth_In. lia. }
  assert (Hhi : nth i y 0 == c).
  { rewrite Forall_forall in Hall. apply Hall. apply nth_In. lia. }
  rewrite Hlo, Hhi. unfold Qdiv. ring.
Qed.

Lemma resample_constant (values : list Q) (c : Q) (n : Z) :
  constant_series c values -> (2 <= List.length values)%nat -> (0 < n)%Z ->
  exists resampled : list Q,
    dss_loadshape.resample values n = Ok resampled
    /\ constant_series c resampled
    /\ List.length resampled = Z.to_nat n.
Proof.
  intros (Hne & Hall) HL Hn. unfold dss_loadshape.resample, interp1d.
  rewrite length_arange_int, Nat.eqb_refl. cbn [negb].
  destruct (Nat.ltb_spec (List.length values) 2) as [Hlt|_]; [lia|].
  cbn [bind]. unfold py_truediv.
  destruct (Z.eqb_spec n 0) as [E0|_]; [lia|].
  cbn [bind]. rewrite np_arange_positions by lia. rewrite map_map.
  eexists. split; [reflexivity|].
  assert (Hlen : List.length
                   (map (fun x => interp1d_eval
                                    (np_arange_int (List.length values)) values
                                    (0 + QN x * (QN (List.length values)
                                                 / inject_Z n)))
                      (seq 0 (Z.to_nat n))) = Z.to_nat n)
    by now rewrite length_map, length_seq.
  split; [split|exact Hlen].
  - intros E. rewrite E in Hlen. simpl in Hlen. lia.
  - apply Forall_map. apply Forall_forall. intros x _.
    apply interp1d_eval_constant; assumption.
Qed.

(** C3.  For every non-empty series whose samples are all equal, the
    scaling step raises nothing and returns a series of the same length
    whose samples are all [1]: each sample meets the last abscissa and
    takes the right value, and nothing is divided.  The initializer called
    without resampling on an array holding such a series returns a load
    shape whose array holds these samples.  Called with resampling to a
    positive length on such a series of at least two samples, it returns a
    load shape whose array holds that many samples, all [1]. *)
Theorem constant_series_scales_to_one (values : list Q) (c : Q) :
  constant_series c values ->
  exists scaled : list Q,
    dss_loadshape.normalize values = Ok scaled
    /\ List.length scaled = List.length values
    /\ Forall (fun s => s = 1) scaled
    /\ (forall (name profile_name : string)
               (recurrence : dss_loadshape.Recurrence) (a : addr) (h : store),
         (a < List.length h)%nat ->
         deref h a = values ->
         exists ls h',
           dss_loadshape.__init__ name profile_name recurrence a None h
             = (Ok ls, h')
           /\ deref h' (dss_loadshape.values ls) = scaled)
    /\ (forall (name profile_name : string)
               (recurrence : dss_loadshape.Recurrence) (a : addr) (h : store)
               (n : Z),
          (a < List.length h)%nat ->
          deref h a = values ->
          (2 <= List.length values)%nat ->
          (0 < n)%Z ->
          exists ls h',
            dss_loadshape.__init__ name profile_name recurrence a (Some n) h
              = (Ok ls, h')
            /\ List.length (deref h' (dss_loadshape.values ls)) = Z.to_nat n
            /\ Forall (fun s => s = 1) (deref h' (dss_loadshape.values ls))).
Proof.
  intros Hconst.
  destruct (normalize_constant _ _ Hconst) as (scaled & En & Hlen & Hone).
  exists scaled. repeat (split; [assumption|]).
  split.
  - intros name profile_name recurrence a h Ha Hv.
    apply init_None_ok; [exact Ha|]. rewrite Hv. exact En.
  - intros name profile_name recurrence a h n Ha Hv HL Hn.
    destruct (resample_constant values c n Hconst HL Hn)
      as (resampled & Er & Hrc & Hrl).
    destruct (normalize_constant _ _ Hrc) as (scaled' & En' & Hlen' & Hone').
    rewrite init_unfold by exact Ha. unfold init_outcome.
    rewrite Hv, Er, En'.
    eexists. eexists. split; [reflexivity|].
    cbn [dss_loadshape.values]. rewrite deref_new. cbn [deref nth].
    split; [congruence | exact Hone'].
Qed.

Lemma constant_series_scales_to_one_witness :
  constant_series 10 [10; 10; 10; 10]
  /\ exists ls h',
       dss_loadshape.__init__ "load_a_BUSHILF_SCENT" "BUSHILF_SCENT"
         dss_loadshape.YEARLY 0%nat None [[10; 10; 10; 10]] = (Ok ls, h')
       /\ Forall (fun s => s = 1) (deref h' (dss_loadshape.values ls)).
Proof.
  assert (H : constant_series 10 [10; 10; 10; 10]).
  { split; [discriminate|]. repeat constructor. }
  split; [exact H|].
  destruct (constant_series_scales_to_one _ _ H)
    as (scaled & _ & _ & Hone & Hinit & _).
  destruct (Hinit "load_a_BUSHILF_SCENT" "BUSHILF_SCENT" dss_loadshape.YEARLY
              0%nat [[10; 10; 10; 10]]) as (ls & h' & E & Hd).
  - simpl. lia.
  - reflexivity.
  - exists ls, h'. split; [exact E|]. rewrite Hd. exact Hone.
Defined.


(** ** Strings, splitting and dictionaries *)

Lemma str_app_assoc (a b c : string) : ((a ++ b) ++ c = a ++ (b ++ c))%string.
Proof. induction a as [|x a IH]; simpl; [reflexivity | now rewrite IH]. Qed.

Lemma str_app_nil_r (a : string) : (a ++ "" = a)%string.
Proof. induction a as [|x a IH]; simpl; [reflexivity | now rewrite IH]. Qed.

Lemma str_length_app (a b : string) :
  String.length (a ++ b) = (String.length a + String.length b)%nat.
Proof. induction a as [|x a IH]; simpl; [reflexivity | now rewrite IH]. Qed.

Lemma str_app_inv_head (a s1 s2 : string) :
  (a ++ s1 = a ++ s2)%string -> s1 = s2.
Proof.
  induction a as [|x a IH]; simpl; intros H; [exact H|].
  injection H as H. auto.
Qed.

(** Two strings that end in tails of equal length agree part by part. *)
Lemma str_app_inj_tail (a b s1 s2 : string) :
  String.length s1 = String.length s2 ->
  (a ++ s1 = b ++ s2)%string -> a = b /\ s1 = s2.
Proof.
  revert b. induction a as [|x a IH]; intros [|y b] Hlen H; simpl in H.
  - now split.
  - exfalso. subst s1. simpl in Hlen. rewrite str_length_app in Hlen. lia.
  - exfalso. subst s2. simpl in Hlen. rewrite str_length_app in Hlen. lia.
  - injection H as -> H. destruct (IH b Hlen H) as [-> ->]. now split.
Qed.

Lemma prefix_app (d rest : string) : String.prefix d (d ++ rest) = true.
Proof.
  induction d as [|c d IH]; simpl.
  - now destruct rest.
  - destruct (ascii_dec c c) as [_|N]; [exact IH | congruence].
Qed.

Lemma prefix_head_mismatch (d s : string) (c : ascii) :
  d <> ""%string -> string_mem c d = false -> String.prefix d (String c s) = false.
Proof.
  destruct d as [|c0 d]; [congruence|]. intros _ H. simpl in *.
  apply orb_false_iff in H. destruct H as [H _].
  destruct (ascii_dec c0 c) as [E|_]; [|reflexivity].
  subst. rewrite Ascii.eqb_refl in H. discriminate.
Qed.

Lemma split_scan_skip (sep s : string) :
  forall cur rest,
    split_scan sep (s ++ rest) (String.length s) cur = split_scan sep rest 0 cur.
Proof.
  induction s as [|c s IH]; intros cur rest; [reflexivity|].
  simpl. apply IH.
Qed.

Section Splitting.

Variable d : string.
Hypothesis d_nonempty : d <> ""%string.

Lemma split_scan_read (s : string) :
  delimiter_free d s = true ->
  forall cur rest,
    split_scan d (s ++ rest) 0 cur = split_scan d rest 0 (cur ++ s).
Proof.
  induction s as [|c s IH]; intros Hfree cur rest.
  - simpl. now rewrite str_app_nil_r.
  - simpl in Hfree. apply andb_true_iff in Hfree. destruct Hfree as [Hc Hs].
    apply negb_true_iff in Hc.
    change (String c s ++ rest)%string with (String c (s ++ rest)).
    cbn [split_scan].
    rewrite (@prefix_head_mismatch d (s ++ rest) c d_nonempty Hc).
    rewrite (IH Hs). rewrite str_app_assoc. reflexivity.
Qed.

Lemma split_scan_at_separator (cur rest : string) :
  split_scan d (d ++ rest) 0 cur = cur :: split_scan d rest 0 "".
Proof.
  destruct d as [|c0 d'] eqn:Ed; [congruence|].
  change (String c0 d' ++ rest)%string with (String c0 (d' ++ rest)).
  cbn [split_scan].
  change (String c0 (d' ++ rest)) with (String c0 d' ++ rest)%string.
  rewrite prefix_app. f_equal.
  cbn [String.length]. rewrite Nat.sub_1_r. cbn [Nat.pred].
  apply split_scan_skip.
Qed.

(** A name and a channel joined by the separator split back into the
    two, when neither contains a character of the separator. *)
Lemma str_split_joined (name ch : string) :
  delimiter_free d name = true ->
  delimiter_free d ch = true ->
  str_split (name ++ d ++ ch) d = Ok [name; ch].
Proof.
  intros Hn Hc. unfold str_split.
  destruct (String.eqb_spec d "") as [E|_]; [contradiction|].
  f_equal.
  rewrite (split_scan_read name Hn). cbn [append].
  rewrite split_scan_at_separator. f_equal.
  rewrite <- (str_app_nil_r ch) at 1.
  rewrite (split_scan_read ch Hc). reflexivity.
Qed.

End Splitting.

(** *** Dictionaries *)

Lemma dict_get_absent {V : Type} (dct : dict V) (k : string) :
  ~ In k (dict_keys dct) -> dict_get dct k = None.
Proof.
  induction dct as [|[k' v'] dct IH]; intros H; [reflexivity|].
  simpl in *. destruct (String.eqb_spec k' k) as [E|_].
  - exfalso. apply H. now left.
  - apply IH. intros Hin. apply H. now right.
Qed.

Lemma dict_set_absent {V : Type} (dct : dict V) (k : string) (v : V) :
  ~ In k (dict_keys dct) -> dict_set dct k v = (dct ++ [(k, v)])%list.
Proof.
  induction dct as [|[k' v'] dct IH]; intros H; [reflexivity|].
  simpl in *. destruct (String.eqb_spec k' k) as [E|_].
  - exfalso. apply H. now left.
  - f_equal. apply IH. intros Hin. apply H. now right.
Qed.

Lemma dict_get_last {V : Type} (dct : dict V) (k : string) (v : V) :
  ~ In k (dict_keys dct) -> dict_get (dct ++ [(k, v)])%list k = Some v.
Proof.
  induction dct as [|[k' v'] dct IH]; intros H; simpl in *.
  - now rewrite String.eqb_refl.
  - destruct (String.eqb_spec k' k) as [E|_].
    + exfalso. apply H. now left.
    + apply IH. intros Hin. apply H. now right.
Qed.

Lemma dict_set_last {V : Type} (dct : dict V) (k : string) (v v' : V) :
  ~ In k (dict_keys dct) ->
  dict_set (dct ++ [(k, v)])%list k v' = (dct ++ [(k, v')])%list.
Proof.
  induction dct as [|[k' w] dct IH]; intros H; simpl in *.
  - now rewrite String.eqb_refl.
  - destruct (String.eqb_spec k' k) as [E|_].
    + exfalso. apply H. now left.
    + f_equal. apply IH. intros Hin. apply H. now right.
Qed.

(** Writing fresh, pairwise different keys appends them in order. *)
Lemma dict_set_all_fresh {V : Type} (kvs : list (string * V)) :
  forall dct : dict V,
    NoDup (dict_keys dct ++ map fst kvs)%list ->
    fold_left (fun acc kv => dict_set acc (fst kv) (snd kv)) kvs dct
    = (dct ++ kvs)%list.
Proof.
  induction kvs as [|[k v] kvs IH]; intros dct H; simpl.
  - now rewrite app_nil_r.
  - rewrite dict_set_absent.
    + rewrite IH.
      * now rewrite <- app_assoc.
      * unfold dict_keys in *. rewrite map_app, <- app_assoc. exact H.
    + simpl in H. apply NoDup_remove_2 in H.
      intros Hin. apply H. apply in_or_app. now left.
Qed.

(** ** Aggregation: looking up the channels *)

Lemma list_index_present (xs : list string) (x : string) :
  In x xs -> exists i, list_index xs x = Ok i /\ (i < List.length xs)%nat.
Proof.
  induction xs as [|y xs IH]; intros H; [contradiction|].
  simpl. destruct (String.eqb_spec y x) as [E|N].
  - exists 0%nat. split; [reflexivity | simpl; lia].
  - destruct H as [H|H]; [contradiction|].
    destruct (IH H) as (i & Ei & Hi). rewrite Ei.
    exists (S i). split; [reflexivity | simpl; lia].
Qed.

Lemma list_index_absent (xs : list string) (x : string) :
  ~ In x xs -> list_index xs x = Raise ValueError.
Proof.
  induction xs as [|y xs IH]; intros H; [reflexivity|].
  simpl. destruct (String.eqb_spec y x) as [E|N].
  - exfalso. apply H. now left.
  - rewrite IH; [reflexivity|]. intros Hin. apply H. now right.
Qed.

Section LoadLoop.

Variable delimiter : string.

(** One channel of one load: with the channel present the column is
    written under the joined name; with the channel absent the lookup
    raises [ValueError]. *)
Lemma load_channel_step_present (load : dss_load.Load)
    (m : dss_monitor.Monitor) (data : dict (list Q)) (ch : string) :
  monitor_well_shaped m ->
  In ch (dss_monitor.channel_names (dss_monitor.make_data m)) ->
  data_factory.load_channel_step delimiter load (dss_monitor.make_data m) data ch
  = Ok (dict_set data
          (dss_name.object (dss_load.name load) ++ delimiter ++ ch)
          (channel_column (dss_monitor.make_data m) ch)).
Proof.
  intros Hshape Hin. unfold data_factory.load_channel_step, channel_column.
  destruct (list_index_present _ _ Hin) as (j & Ej & Hj).
  rewrite Ej. cbn [bind]. unfold get_column.
  unfold monitor_well_shaped in Hshape. rewrite Hshape.
  destruct (Nat.ltb_spec j
              (List.length (dss_monitor.channel_names (dss_monitor.make_data m))))
    as [_|Hge]; [reflexivity | lia].
Qed.

Lemma load_channel_step_absent (load : dss_load.Load)
    (md : dss_monitor.MonitorData) (data : dict (list Q)) (ch : string) :
  ~ In ch (dss_monitor.channel_names md) ->
  data_factory.load_channel_step delimiter load md data ch = Raise ValueError.
Proof.
  intros H. unfold data_factory.load_channel_step.
  rewrite (list_index_absent _ _ H). reflexivity.
Qed.

(** The channel loop of one load either writes every channel, all of
    them present, or raises [ValueError]. *)
Lemma load_channels_cases (load : dss_load.Load) (m : dss_monitor.Monitor)
    (chs : list string) :
  monitor_well_shaped m ->
  forall data : dict (list Q),
    match for_each (data_factory.load_channel_step delimiter load
                      (dss_monitor.make_data m)) chs data with
    | Ok data' =>
        has_channels chs m
        /\ data' =
           fold_left (fun acc kv => dict_set acc (fst kv) (snd kv))
             (map (fun ch =>
                     (dss_name.object (dss_load.name load) ++ delimiter ++ ch,
                      channel_column (dss_monitor.make_data m) ch)) chs)
             data
    | Raise e => e = ValueError
    end.
Proof.
  intros Hshape. induction chs as [|ch chs IH]; intros data.
  - simpl. split; [intros ch []|reflexivity].
  - cbn [for_each].
    destruct (in_dec string_dec ch
                (dss_monitor.channel_names (dss_monitor.make_data m)))
      as [Hin|Hout].
    + rewrite (load_channel_step_present load m data ch Hshape Hin). cbn [bind].
      specialize (IH (dict_set data
          (dss_name.object (dss_load.name load) ++ delimiter ++ ch)
          (channel_column (dss_monitor.make_data m) ch))).
      destruct (for_each _ chs _) as [data'|e]; [|exact IH].
      destruct IH as [Hall ->]. split; [|reflexivity].
      intros c [<-|Hc]; [exact Hin | apply Hall; exact Hc].
    + rewrite (load_channel_step_absent load _ data ch Hout). reflexivity.
Qed.

(** The load loop raises [ValueError] as soon as one of the pairs lacks a
    requested channel. *)
Lemma load_loop_missing_channel
    (items : list (dss_load.Load * dss_monitor.Monitor)) :
  Forall (fun item => monitor_well_shaped (snd item)) items ->
  Exists (fun item => ~ has_channels (requested_channels (fst item)) (snd item))
         items ->
  forall data : dict (list Q),
    for_each (data_factory.load_step delimiter) items data = Raise ValueError.
Proof.
  induction items as [|[load m] items IH]; intros Hshape Hex data.
  - inversion Hex.
  - cbn [for_each]. unfold data_factory.load_step at 1. cbn [fst snd].
    inversion Hshape as [|? ? Hm Hrest]; subst.
    pose proof (load_channels_cases load m
                  (firstn (dss_load.meter_count load) data_factory.all_channels)
                  Hm data) as Hc.
    destruct (for_each _ (firstn _ _) data) as [data'|e].
    + cbn [bind]. destruct Hc as [Hall _].
      apply IH; [exact Hrest|].
      inversion Hex as [? ? Hbad|? ? Hlater]; subst; [|exact Hlater].
      exfalso. apply Hbad. exact Hall.
    + cbn [bind]. now subst e.
Qed.

End LoadLoop.

Lemma nth_error_combine_in {A B : Type} (xs : list A) :
  forall (ys : list B) (i : nat) (x : A) (y : B),
    nth_error xs i = Some x -> nth_error ys i = Some y ->
    In (x, y) (combine xs ys).
Proof.
  induction xs as [|a xs IH]; intros [|b ys] [|i] x y Hx Hy;
    simpl in *; try discriminate.
  - injection Hx as ->. injection Hy as ->. now left.
  - right. eapply IH; eauto.
Qed.

(** C6 as the specification words it fails: with ["V2"] missing from the
    second monitor, the exception raised is the built-in [ValueError] of
    [list.index], not a [DataError]. *)
Lemma missing_channel_is_not_data_error :
  data_factory.make_load_voltage_magnitude_data "_"
    [example_load "a" dss_phase.A; example_load "b" dss_phase.AB]
    [example_monitor "a" mode0_channels 2;
     example_monitor "b" ["hours"; "V1"; "V3"] 2]
  = Raise ValueError
  /\ data_factory.make_load_voltage_magnitude_data "_"
       [example_load "a" dss_phase.A; example_load "b" dss_phase.AB]
       [example_monitor "a" mode0_channels 2;
        example_monitor "b" ["hours"; "V1"; "V3"] 2]
     <> Raise DataError.
Proof. split; vm_compute; [reflexivity | discriminate]. Qed.

(** C6 (amended).  For every call in which some load, paired with its
    monitor, requests a channel that the monitor's channel names lack, the
    whole call raises [ValueError] and returns no table and no channel
    map. *)
Theorem missing_channel_raises_value_error (delimiter : string)
    (loads : list dss_load.Load) (monitors : list dss_monitor.Monitor)
    (i : nat) (load : dss_load.Load) (monitor : dss_monitor.Monitor)
    (ch : string) :
  Forall monitor_well_shaped monitors ->
  nth_error loads i = Some load ->
  nth_error monitors i = Some monitor ->
  In ch (requested_channels load) ->
  ~ In ch (dss_monitor.channel_names (dss_monitor.make_data monitor)) ->
  data_factory.make_load_voltage_magnitude_data delimiter loads monitors
  = Raise ValueError.
Proof.
  intros Hshape Hl Hm Hreq Habs.
  unfold data_factory.make_load_voltage_magnitude_data.
  rewrite load_loop_missing_channel; [reflexivity| |].
  - apply Forall_forall. intros [l m] Hin. cbn [snd].
    apply in_combine_r in Hin.
    rewrite Forall_forall in Hshape. apply Hshape. exact Hin.
  - apply Exists_exists. exists (load, monitor). split.
    + eapply nth_error_combine_in; eauto.
    + cbn [fst snd]. intros Hall. apply Habs. apply Hall. exact Hreq.
Qed.

Lemma missing_channel_raises_value_error_witness :
  data_factory.make_load_voltage_magnitude_data "_"
    [example_load "a" dss_phase.A; example_load "b" dss_phase.AB]
    [example_monitor "a" mode0_channels 2;
     example_monitor "b" ["hours"; "V1"; "V3"] 2]
  = Raise ValueError.
Proof.
  apply (missing_channel_raises_value_error "_"
           [example_load "a" dss_phase.A; example_load "b" dss_phase.AB]
           [example_monitor "a" mode0_channels 2;
            example_monitor "b" ["hours"; "V1"; "V3"] 2]
           1%nat (example_load "b" dss_phase.AB)
           (example_monitor "b" ["hours"; "V1"; "V3"] 2) "V2").
  - repeat constructor.
  - reflexivity.
  - reflexivity.
  - simpl. auto.
  - simpl. intros [H|[H|[H|[]]]]; discriminate H.
Defined.

(** ** Aggregation of the loads: the table *)

Lemma for_each_app {A S : Type} (body : S -> A -> result S) (xs ys : list A) :
  forall s : S,
    for_each body (xs ++ ys) s
    = bind (for_each body xs s) (fun s' => for_each body ys s').
Proof.
  induction xs as [|x xs IH]; intros s; [reflexivity|].
  cbn [app for_each]. destruct (body s x) as [s'|e]; [apply IH | reflexivity].
Qed.

Lemma enumerate_from_app {A : Type} (xs ys : list A) :
  forall i : nat,
    enumerate_from i (xs ++ ys)
    = (enumerate_from i xs ++ enumerate_from (i + List.length xs) ys)%list.
Proof.
  induction xs as [|x xs IH]; intros i; cbn [app enumerate_from List.length].
  - now rewrite Nat.add_0_r.
  - rewrite IH. do 3 f_equal. lia.
Qed.

Lemma requested_channels_cases (load : dss_load.Load) :
  requested_channels load = ["V1"]%string
  \/ requested_channels load = ["V1"; "V2"]%string
  \/ requested_channels load = ["V1"; "V2"; "V3"]%string.
Proof.
  unfold requested_channels, dss_load.meter_count.
  destruct (dss_load.phase load); cbn; auto.
Qed.

Lemma requested_channels_length (load : dss_load.Load) :
  List.length (requested_channels load) = dss_load.meter_count load.
Proof.
  unfold requested_channels, dss_load.meter_count.
  destruct (dss_load.phase load); reflexivity.
Qed.

Lemma requested_channels_incl (load : dss_load.Load) (ch : string) :
  In ch (requested_channels load) -> In ch data_factory.all_channels.
Proof.
  destruct (requested_channels_cases load) as [E|[E|E]]; rewrite E;
    simpl; intuition.
Qed.

Lemma requested_channels_NoDup (load : dss_load.Load) :
  NoDup (requested_channels load).
Proof.
  destruct (requested_channels_cases load) as [E|[E|E]]; rewrite E;
    repeat constructor; simpl; intuition discriminate.
Qed.

Lemma all_channels_length (ch : string) :
  In ch data_factory.all_channels -> String.length ch = 2%nat.
Proof. simpl. intros [<-|[<-|[<-|[]]]]; reflexivity. Qed.

Section LoadTable.

Variable delimiter : string.

(** A column name determines the object name and the channel. *)
Lemma load_column_inj (o1 o2 c1 c2 : string) :
  In c1 data_factory.all_channels -> In c2 data_factory.all_channels ->
  (o1 ++ delimiter ++ c1 = o2 ++ delimiter ++ c2)%string ->
  o1 = o2 /\ c1 = c2.
Proof.
  intros H1 H2 E.
  apply str_app_inj_tail in E.
  - destruct E as [-> E]. split; [reflexivity|].
    eapply str_app_inv_head; exact E.
  - rewrite !str_length_app, (all_channels_length _ H1),
      (all_channels_length _ H2). reflexivity.
Qed.

Lemma load_columns_in (load : dss_load.Load) (key : string) :
  In key (load_columns delimiter load) ->
  exists ch, In ch data_factory.all_channels
             /\ key = (load_object load ++ delimiter ++ ch)%string.
Proof.
  unfold load_columns. rewrite in_map_iff. intros (ch & <- & Hch).
  exists ch. split; [eapply requested_channels_incl; eauto | reflexivity].
Qed.

Lemma load_columns_NoDup (load : dss_load.Load) :
  NoDup (load_columns delimiter load).
Proof.
  unfold load_columns. apply NoDup_map_NoDup_ForallPairs.
  - intros c1 c2 H1 H2 E.
    apply load_column_inj in E;
      [tauto | eapply requested_channels_incl; eauto ..].
  - apply requested_channels_NoDup.
Qed.

Lemma all_load_columns_NoDup (loads : list dss_load.Load) :
  NoDup (map load_object loads) ->
  NoDup (flat_map (load_columns delimiter) loads).
Proof.
  induction loads as [|load loads IH]; intros H; [constructor|].
  cbn [flat_map map] in *. inversion H as [|? ? Hnot Hrest]; subst.
  apply NoDup_app; [apply load_columns_NoDup | apply IH; exact Hrest|].
  intros key H1 H2. apply in_flat_map in H2. destruct H2 as (l2 & Hl2 & H2).
  apply load_columns_in in H1. destruct H1 as (c1 & Hc1 & ->).
  apply load_columns_in in H2. destruct H2 as (c2 & Hc2 & E).
  apply load_column_inj in E; [|assumption..].
  destruct E as [E _]. apply Hnot. rewrite E. apply in_map. exact Hl2.
Qed.

Lemma load_entries_keys (loads : list dss_load.Load) :
  forall monitors : list dss_monitor.Monitor,
    List.length monitors = List.length loads ->
    map fst (flat_map (load_entries delimiter) (combine loads monitors))
    = flat_map (load_columns delimiter) loads.
Proof.
  induction loads as [|load loads IH]; intros [|m monitors] Hlen;
    simpl in Hlen; try discriminate; [reflexivity|].
  cbn [combine flat_map]. rewrite map_app, IH by lia. f_equal.
  unfold load_entries, load_columns. cbn [fst snd].
  rewrite map_map. reflexivity.
Qed.

(** The load loop with every requested channel present writes the
    entries of all the pairs, in order. *)
Lemma load_loop_ok (items : list (dss_load.Load * dss_monitor.Monitor)) :
  Forall (fun item => monitor_well_shaped (snd item)) items ->
  Forall (fun item => has_channels (requested_channels (fst item)) (snd item))
         items ->
  forall data : dict (list Q),
    for_each (data_factory.load_step delimiter) items data
    = Ok (fold_left (fun acc kv => dict_set acc (fst kv) (snd kv))
            (flat_map (load_entries delimiter) items) data).
Proof.
  induction items as [|[load m] items IH]; intros Hshape Hch data;
    [reflexivity|].
  inversion Hshape as [|? ? Hm Hrest]; subst.
  inversion Hch as [|? ? Hc Hcrest]; subst.
  cbn [for_each flat_map]. unfold data_factory.load_step at 1. cbn [fst snd].
  pose proof (load_channels_cases delimiter load m
                (firstn (dss_load.meter_count load) data_factory.all_channels)
                Hm data) as Hcases.
  destruct (for_each _ (firstn _ _) data) as [data'|e] eqn:E.
  - destruct Hcases as [_ ->]. cbn [bind]. rewrite IH by assumption.
    rewrite fold_left_app. reflexivity.
  - exfalso.
    (* every requested channel is present, so each step returns *)
    clear IH Hcases. cbn [fst snd] in Hc. unfold requested_channels in Hc.
    revert data E.
    induction (firstn (dss_load.meter_count load) data_factory.all_channels)
      as [|ch chs IHc]; intros data E; [discriminate|].
    cbn [for_each] in E.
    rewrite (load_channel_step_present delimiter load m data ch Hm) in E
      by (apply Hc; now left).
    cbn [bind] in E. eapply IHc; [|exact E].
    intros c Hin. apply Hc. now right.
Qed.

End LoadTable.

Lemma channel_column_length (m : dss_monitor.Monitor) (ch : string) :
  In ch (dss_monitor.channel_names (dss_monitor.make_data m)) ->
  List.length (channel_column (dss_monitor.make_data m) ch) = sample_count m.
Proof.
  intros H. unfold channel_column, sample_count.
  destruct (list_index_present _ _ H) as (j & -> & _).
  now rewrite length_map, length_seq.
Qed.

Lemma pd_DataFrame_ok (data : dict (list Q)) (n : nat) :
  Forall (fun kv => List.length (snd kv) = n) data ->
  data_factory.pd_DataFrame data = Ok data.
Proof.
  intros H. unfold data_factory.pd_DataFrame.
  destruct data as [|[k v] rest]; [reflexivity|].
  inversion H as [|? ? Hv Hrest]; subst. cbn [snd] in *.
  replace (forallb _ rest) with true; [reflexivity|].
  symmetry. apply forallb_forall. intros kv Hin.
  rewrite Forall_forall in Hrest. rewrite (Hrest kv Hin).
  apply Nat.eqb_refl.
Qed.

(** ** Aggregation of the loads: the channel map *)

Section ChannelMap.

Variable delimiter : string.
Hypothesis delimiter_nonempty : delimiter <> ""%string.
Hypothesis channels_free :
  Forall (fun ch => delimiter_free delimiter ch = true) data_factory.all_channels.

(** The first column of a load opens its entry. *)
Lemma channel_map_step_first (cm : dict (list nat)) (i : nat) (o ch : string) :
  delimiter_free delimiter o = true ->
  In ch data_factory.all_channels ->
  ~ In o (dict_keys cm) ->
  data_factory.channel_map_step delimiter cm (i, (o ++ delimiter ++ ch)%string)
  = Ok (cm ++ [(o, [i])])%list.
Proof.
  intros Ho Hch Hnew. unfold data_factory.channel_map_step. cbn [fst snd].
  rewrite Forall_forall in channels_free.
  rewrite (str_split_joined delimiter delimiter_nonempty o ch Ho
             (channels_free ch Hch)).
  cbn [bind]. unfold dict_mem. rewrite (dict_get_absent cm o Hnew).
  rewrite (dict_set_absent cm o [] Hnew).
  unfold dict_getitem. rewrite (dict_get_last cm o [] Hnew). cbn [bind].
  rewrite (dict_set_last cm o [] _ Hnew). reflexivity.
Qed.

(** A further column of the same load extends the entry. *)
Lemma channel_map_step_next (cm : dict (list nat)) (idxs : list nat)
    (i : nat) (o ch : string) :
  delimiter_free delimiter o = true ->
  In ch data_factory.all_channels ->
  ~ In o (dict_keys cm) ->
  data_factory.channel_map_step delimiter (cm ++ [(o, idxs)])%list
    (i, (o ++ delimiter ++ ch)%string)
  = Ok (cm ++ [(o, (idxs ++ [i])%list)])%list.
Proof.
  intros Ho Hch Hnew. unfold data_factory.channel_map_step. cbn [fst snd].
  rewrite Forall_forall in channels_free.
  rewrite (str_split_joined delimiter delimiter_nonempty o ch Ho
             (channels_free ch Hch)).
  cbn [bind]. unfold dict_mem. rewrite (dict_get_last cm o idxs Hnew).
  unfold dict_getitem. rewrite (dict_get_last cm o idxs Hnew). cbn [bind].
  rewrite (dict_set_last cm o idxs _ Hnew). reflexivity.
Qed.

Lemma channel_map_rest_of_load (o : string) (chs : list string) :
  delimiter_free delimiter o = true ->
  (forall ch, In ch chs -> In ch data_factory.all_channels) ->
  forall (cm : dict (list nat)) (idxs : list nat) (i : nat),
    ~ In o (dict_keys cm) ->
    for_each (data_factory.channel_map_step delimiter)
      (enumerate_from i (map (fun ch => o ++ delimiter ++ ch)%string chs))
      (cm ++ [(o, idxs)])%list
    = Ok (cm ++ [(o, (idxs ++ seq i (List.length chs))%list)])%list.
Proof.
  intros Ho. induction chs as [|ch chs IH]; intros Hchs cm idxs i Hnew.
  - cbn. now rewrite app_nil_r.
  - cbn [map enumerate_from for_each].
    rewrite (channel_map_step_next cm idxs i o ch Ho) by
      (try exact Hnew; apply Hchs; now left).
    cbn [bind]. rewrite IH; [|intros c Hc; apply Hchs; now right | exact Hnew].
    cbn [List.length seq]. rewrite <- app_assoc. reflexivity.
Qed.

Lemma channel_map_one_load (load : dss_load.Load) :
  delimiter_free delimiter (load_object load) = true ->
  forall (cm : dict (list nat)) (i : nat),
    ~ In (load_object load) (dict_keys cm) ->
    for_each (data_factory.channel_map_step delimiter)
      (enumerate_from i (load_columns delimiter load)) cm
    = Ok (cm ++ [(load_object load, seq i (dss_load.meter_count load))])%list.
Proof.
  intros Ho cm i Hnew. unfold load_columns.
  rewrite <- requested_channels_length.
  pose proof (requested_channels_incl load) as Hincl.
  destruct (requested_channels load) as [|ch chs] eqn:E.
  - exfalso. destruct (requested_channels_cases load) as [H|[H|H]];
      rewrite H in E; discriminate.
  - cbn [map enumerate_from for_each].
    fold (load_object load).
    rewrite (channel_map_step_first cm i (load_object load) ch Ho) by
      (try exact Hnew; apply Hincl; now left).
    cbn [bind].
    rewrite (channel_map_rest_of_load (load_object load) chs Ho);
      [|intros c Hc; apply Hincl; now right | exact Hnew].
    reflexivity.
Qed.

(** The whole loop: each load, in order, receives the next
    [meter_count] positions. *)
Lemma channel_map_loop (loads : list dss_load.Load) :
  Forall (fun load => delimiter_free delimiter (load_object load) = true) loads ->
  forall (cm : dict (list nat)) (i : nat),
    NoDup (dict_keys cm ++ map load_object loads)%list ->
    for_each (data_factory.channel_map_step delimiter)
      (enumerate_from i (flat_map (load_columns delimiter) loads)) cm
    = Ok (cm ++ consecutive_channel_map i loads)%list.
Proof.
  induction loads as [|load loads IH]; intros Hfree cm i Hnd.
  - cbn. now rewrite app_nil_r.
  - inversion Hfree as [|? ? Ho Hrest]; subst.
    cbn [flat_map consecutive_channel_map].
    rewrite enumerate_from_app, for_each_app.
    assert (Hnew : ~ In (load_object load) (dict_keys cm)).
    { cbn [map] in Hnd. apply NoDup_remove_2 in Hnd.
      intros Hin. apply Hnd. apply in_or_app. now left. }
    rewrite (channel_map_one_load load Ho cm i Hnew). cbn [bind].
    unfold load_columns at 1.
    rewrite length_map, requested_channels_length.
    rewrite IH; [now rewrite <- app_assoc | exact Hrest|].
    unfold dict_keys in *. rewrite map_app. cbn [map fst].
    rewrite <- app_assoc. exact Hnd.
Qed.

End ChannelMap.

(** *** What the consecutive channel map says *)

Lemma consecutive_keys (loads : list dss_load.Load) :
  forall start, dict_keys (consecutive_channel_map start loads)
                = map load_object loads.
Proof.
  induction loads as [|load loads IH]; intros start; [reflexivity|].
  cbn. f_equal. apply IH.
Qed.

Lemma consecutive_concat (delimiter : string) (loads : list dss_load.Load) :
  forall start,
    List.concat (map snd (consecutive_channel_map start loads))
    = seq start (List.length (flat_map (load_columns delimiter) loads)).
Proof.
  induction loads as [|load loads IH]; intros start; [reflexivity|].
  cbn [consecutive_channel_map map snd List.concat flat_map].
  assert (El : List.length (load_columns delimiter load)
               = dss_load.meter_count load).
  { unfold load_columns. now rewrite length_map, requested_channels_length. }
  rewrite length_app, seq_app, IH, El. reflexivity.
Qed.

Lemma consecutive_get (loads : list dss_load.Load) :
  NoDup (map load_object loads) ->
  forall (start : nat) (load : dss_load.Load),
    In load loads ->
    exists idxs,
      dict_get (consecutive_channel_map start loads) (load_object load)
        = Some idxs
      /\ List.length idxs = dss_load.meter_count load.
Proof.
  induction loads as [|l loads IH]; intros Hnd start load Hin; [contradiction|].
  cbn [map] in Hnd. inversion Hnd as [|? ? Hnot Hrest]; subst.
  cbn [consecutive_channel_map dict_get]. fold (load_object l).
  destruct Hin as [->|Hin].
  - rewrite String.eqb_refl. eexists. split; [reflexivity | apply length_seq].
  - destruct (String.eqb_spec (load_object l) (load_object load)) as [E|_].
    + exfalso. apply Hnot. rewrite E. apply in_map. exact Hin.
    + apply IH; assumption.
Qed.

Lemma dict_get_in {V : Type} (dct : dict V) (k : string) (v : V) :
  dict_get dct k = Some v -> In (k, v) dct.
Proof.
  induction dct as [|[k' v'] dct IH]; simpl; [discriminate|].
  destruct (String.eqb_spec k' k) as [->|_].
  - intros E. injection E as ->. now left.
  - intros E. right. apply IH. exact E.
Qed.

Lemma NoDup_app_disjoint {A : Type} (l1 l2 : list A) (x : A) :
  NoDup (l1 ++ l2) -> In x l1 -> ~ In x l2.
Proof.
  induction l1 as [|a l1 IH]; intros Hnd H1 H2; [contradiction|].
  cbn [app] in Hnd. inversion Hnd as [|? ? Hnot Hrest]; subst.
  destruct H1 as [->|H1].
  - apply Hnot. apply in_or_app. now right.
  - exact (IH Hrest H1 H2).
Qed.

(** Entries under different keys of a dictionary whose index lists
    concatenate without repetition share no index. *)
Lemma concat_NoDup_disjoint (dct : dict (list nat)) :
  NoDup (List.concat (map snd dct)) ->
  forall k1 k2 l1 l2,
    In (k1, l1) dct -> In (k2, l2) dct -> k1 <> k2 ->
    disjoint_indices l1 l2.
Proof.
  induction dct as [|[k l] dct IH]; intros Hnd k1 k2 l1 l2 H1 H2 Hne;
    [contradiction|].
  cbn [map snd List.concat] in Hnd.
  assert (Hcross : forall k' l' i, In (k', l') dct -> In i l ->
                                   ~ In i l').
  { intros k' l' i Hin Hi Hi'.
    apply (NoDup_app_disjoint _ _ i Hnd Hi). apply in_concat. exists l'. split; [|exact Hi'].
    apply in_map_iff. exists (k', l'). now split. }
  destruct H1 as [E1|H1], H2 as [E2|H2].
  - congruence.
  - injection E1 as <- <-. intros i Hi. eapply Hcross; eauto.
  - injection E2 as <- <-. intros i Hi Hi'. eapply Hcross; eauto.
  - apply NoDup_app_remove_l in Hnd. eapply IH; eauto.
Qed.

(** *** The channel map of any call that returns *)

Lemma dict_set_keys_present {V : Type} (dct : dict V) (k : string) (v : V) :
  In k (dict_keys dct) -> dict_keys (dict_set dct k v) = dict_keys dct.
Proof.
  induction dct as [|[k' v'] dct IH]; intros Hin; [contradiction|].
  simpl in *. destruct (String.eqb_spec k' k) as [E|N]; [reflexivity|].
  simpl. f_equal. apply IH. destruct Hin as [E|Hin]; [contradiction | exact Hin].
Qed.

Lemma dict_set_keys_NoDup {V : Type} (dct : dict V) (k : string) (v : V) :
  NoDup (dict_keys dct) -> NoDup (dict_keys (dict_set dct k v)).
Proof.
  intros Hnd. destruct (in_dec string_dec k (dict_keys dct)) as [Hin|Hout].
  - rewrite dict_set_keys_present by exact Hin. exact Hnd.
  - rewrite dict_set_absent by exact Hout.
    unfold dict_keys. rewrite map_app. cbn [map fst].
    apply NoDup_app; [exact Hnd | repeat constructor; intros [] |].
    intros a Ha [<-|[]]. exact (Hout Ha).
Qed.

Lemma dict_get_some_key {V : Type} (dct : dict V) (k : string) (v : V) :
  dict_get dct k = Some v -> In k (dict_keys dct).
Proof.
  intros H. apply dict_get_in in H.
  unfold dict_keys. change k with (fst (k, v)). apply in_map. exact H.
Qed.

(** Extending the index list of an existing key adds one index to the
    indices of the dictionary. *)
Lemma dict_set_extend_indices (dct : dict (list nat)) (k : string)
    (l : list nat) (i : nat) :
  dict_get dct k = Some l ->
  Permutation (List.concat (map snd (dict_set dct k (l ++ [i])%list)))
              (List.concat (map snd dct) ++ [i])%list.
Proof.
  induction dct as [|[k' v'] dct IH]; intros H; [discriminate|].
  simpl in *. destruct (String.eqb_spec k' k) as [E|N].
  - injection H as ->. cbn [map snd List.concat].
    rewrite <- !app_assoc. apply Permutation_app_head.
    apply Permutation_app_comm.
  - cbn [map snd List.concat]. rewrite <- app_assoc.
    apply Permutation_app_head. apply IH. exact H.
Qed.

Section AnyReturn.

Variable delimiter : string.

(** One step keeps the keys different and adds the position to the
    indices. *)
Lemma channel_map_step_indices (cm cm' : dict (list nat)) (i : nat)
    (meter_name : string) :
  data_factory.channel_map_step delimiter cm (i, meter_name) = Ok cm' ->
  NoDup (dict_keys cm) ->
  NoDup (dict_keys cm')
  /\ Permutation (List.concat (map snd cm'))
                 (List.concat (map snd cm) ++ [i])%list.
Proof.
  unfold data_factory.channel_map_step. cbn [fst snd].
  destruct (str_split meter_name delimiter) as [parts|e]; [|discriminate].
  cbn [bind].
  destruct parts as [|load_name [|ch [|x parts]]]; try discriminate.
  unfold dict_mem, dict_getitem.
  destruct (dict_get cm load_name) as [l|] eqn:Eget.
  - rewrite Eget. cbn [bind]. intros E Hnd. injection E as <-.
    split; [apply dict_set_keys_NoDup; exact Hnd|].
    apply dict_set_extend_indices. exact Eget.
  - assert (Hout : ~ In load_name (dict_keys cm)).
    { intros Hin. unfold dict_keys in Hin. apply in_map_iff in Hin.
      destruct Hin as ([k v] & <- & Hin). cbn [fst] in Eget.
      clear - Eget Hin.
      induction cm as [|[k' v'] cm IH]; [contradiction|].
      simpl in Eget. destruct (String.eqb_spec k' k) as [E|N];
        [discriminate|].
      destruct Hin as [Eq|Hin]; [injection Eq as -> _; contradiction|].
      exact (IH Eget Hin). }
    rewrite (dict_set_absent cm load_name [] Hout).
    rewrite (dict_get_last cm load_name [] Hout). cbn [bind].
    rewrite (dict_set_last cm load_name [] _ Hout).
    intros E Hnd. injection E as <-. split.
    + unfold dict_keys. rewrite map_app. cbn [map fst].
      apply NoDup_app; [exact Hnd | repeat constructor; intros [] |].
      intros a Ha [<-|[]]. exact (Hout Ha).
    + rewrite map_app, concat_app. cbn [map snd List.concat app].
      apply Permutation_refl.
Qed.

Lemma channel_map_loop_indices (names : list string) :
  forall (cm cm' : dict (list nat)) (i : nat),
    for_each (data_factory.channel_map_step delimiter)
      (enumerate_from i names) cm = Ok cm' ->
    NoDup (dict_keys cm) ->
    NoDup (dict_keys cm')
    /\ Permutation (List.concat (map snd cm'))
                   (List.concat (map snd cm) ++ seq i (List.length names))%list.
Proof.
  induction names as [|name names IH]; intros cm cm' i E Hnd.
  - cbn in E. injection E as <-. cbn. rewrite app_nil_r.
    split; [exact Hnd | apply Permutation_refl].
  - cbn [enumerate_from for_each] in E.
    destruct (data_factory.channel_map_step delimiter cm (i, name))
      as [cm1|e] eqn:E1; [|discriminate].
    cbn [bind] in E.
    destruct (channel_map_step_indices cm cm1 i name E1 Hnd) as [Hnd1 Hp1].
    destruct (IH cm1 cm' (S i) E Hnd1) as [Hnd' Hp'].
    split; [exact Hnd'|].
    eapply Permutation_trans; [exact Hp'|].
    cbn [List.length seq].
    replace (List.concat (map snd cm) ++ i :: seq (S i) (List.length names))%list
      with ((List.concat (map snd cm) ++ [i]) ++ seq (S i) (List.length names))%list
      by (rewrite <- app_assoc; reflexivity).
    apply Permutation_app_tail. exact Hp1.
Qed.

(** Whatever the loads, the monitors and the delimiter: when the call
    returns, the keys of the channel map are pairwise different and its
    index lists hold each column position exactly once. *)
Lemma returned_channel_map_partitions (loads : list dss_load.Load)
    (monitors : list dss_monitor.Monitor)
    (data_df : data_factory.DataFrame) (channel_map : dict (list nat)) :
  data_factory.make_load_voltage_magnitude_data delimiter loads monitors
    = Ok (data_df, channel_map) ->
  NoDup (dict_keys channel_map)
  /\ Permutation (List.concat (map snd channel_map))
                 (seq 0 (List.length (data_factory.columns data_df))).
Proof.
  unfold data_factory.make_load_voltage_magnitude_data.
  destruct (for_each (data_factory.load_step delimiter)
              (combine loads monitors) []) as [data|e];
    [|discriminate].
  cbn [bind].
  destruct (data_factory.pd_DataFrame data) as [df|e]; [|discriminate].
  cbn [bind].
  destruct (for_each (data_factory.channel_map_step delimiter)
              (enumerate (data_factory.columns df)) [])
    as [cm|e] eqn:E; [|discriminate].
  cbn [bind]. intros Eq. injection Eq as <- <-.
  unfold enumerate in E.
  destruct (channel_map_loop_indices _ [] cm 0%nat E) as [Hnd Hp].
  - constructor.
  - split; [exact Hnd | exact Hp].
Qed.

End AnyReturn.

Lemma dict_in_get {V : Type} (dct : dict V) (k : string) (v : V) :
  NoDup (dict_keys dct) -> In (k, v) dct -> dict_get dct k = Some v.
Proof.
  induction dct as [|[k' v'] dct IH]; intros Hnd Hin; [contradiction|].
  cbn [dict_keys map fst] in Hnd. inversion Hnd as [|? ? Hnot Hrest]; subst.
  cbn [dict_get]. destruct Hin as [E|Hin].
  - injection E as -> ->. now rewrite String.eqb_refl.
  - destruct (String.eqb_spec k' k) as [->|_].
    + exfalso. apply Hnot. unfold dict_keys.
      change k with (fst (k, v)). apply in_map. exact Hin.
    + apply IH; assumption.
Qed.

(** The table and the channel map of a single-sided input, in closed
    form. *)
Lemma load_aggregation_closed_form (delimiter : string)
    (loads : list dss_load.Load) (monitors : list dss_monitor.Monitor) :
  single_sided_input delimiter loads monitors ->
  data_factory.make_load_voltage_magnitude_data delimiter loads monitors
  = Ok (flat_map (load_entries delimiter) (combine loads monitors),
        consecutive_channel_map 0 loads).
Proof.
  intros (Hlen & Hnd & Hne & Hfree & Hchfree & Hshape & Hch & n & Hn).
  unfold data_factory.make_load_voltage_magnitude_data.
  assert (Hshape' : Forall (fun item => monitor_well_shaped (snd item))
                      (combine loads monitors)).
  { apply Forall_forall. intros [l m] Hin. cbn [snd].
    rewrite Forall_forall in Hshape. apply Hshape.
    eapply in_combine_r; exact Hin. }
  rewrite (load_loop_ok delimiter _ Hshape' Hch). cbn [bind].
  assert (Hkeys := load_entries_keys delimiter loads monitors Hlen).
  rewrite dict_set_all_fresh.
  2:{ cbn [dict_keys map app]. rewrite Hkeys.
      apply all_load_columns_NoDup. exact Hnd. }
  cbn [app].
  rewrite (pd_DataFrame_ok _ n).
  2:{ apply Forall_forall. intros [key col] Hin.
      apply in_flat_map in Hin. destruct Hin as ([l m] & Hitem & Hin).
      unfold load_entries in Hin. cbn [fst snd] in Hin.
      apply in_map_iff in Hin. destruct Hin as (ch & E & Hreq).
      injection E as _ <-. cbn [snd].
      rewrite Forall_forall in Hch. specialize (Hch (l, m) Hitem).
      cbn [fst snd] in Hch.
      rewrite channel_column_length by (apply Hch; exact Hreq).
      rewrite Forall_forall in Hn. apply Hn.
      eapply in_combine_r; exact Hitem. }
  cbn [bind]. unfold data_factory.columns, dict_keys, enumerate.
  rewrite Hkeys.
  rewrite (channel_map_loop delimiter Hne Hchfree loads Hfree [] 0%nat).
  - reflexivity.
  - cbn [dict_keys map app]. exact Hnd.
Qed.

(** C2.  Whatever the input, when the call returns, the keys of the
    channel map are pairwise different and its index lists together hold
    every column position of the table exactly once: no position is in two
    lists or twice in one, and the positions are exactly
    [0, 1, ..., number of columns - 1].
    For every single-sided input the call does return, and moreover: the
    table's columns are, load by load, the object name joined with each
    requested channel; the channel map has one key per load, in load
    order; the index list of each load has as many entries as its
    [meter_count]; the index lists under different keys share no index;
    concatenated in key order they are [0, 1, ..., number of columns - 1],
    so that a position is a column of the table if and only if it is in the
    index list of some key. *)
Theorem channel_map_partitions_columns (delimiter : string)
    (loads : list dss_load.Load) (monitors : list dss_monitor.Monitor) :
  (forall (data_df : data_factory.DataFrame) (channel_map : dict (list nat)),
     data_factory.make_load_voltage_magnitude_data delimiter loads monitors
       = Ok (data_df, channel_map) ->
     NoDup (dict_keys channel_map)
     /\ Permutation (List.concat (map snd channel_map))
                    (seq 0 (List.length (data_factory.columns data_df))))
  /\ (single_sided_input delimiter loads monitors ->
      exists (data_df : data_factory.DataFrame) (channel_map : dict (list nat)),
        data_factory.make_load_voltage_magnitude_data delimiter loads monitors
          = Ok (data_df, channel_map)
        /\ data_factory.columns data_df = flat_map (load_columns delimiter) loads
        /\ dict_keys channel_map = map load_object loads
        /\ (forall load, In load loads ->
              exists idxs,
                dict_get channel_map (load_object load) = Some idxs
                /\ List.length idxs = dss_load.meter_count load)
        /\ (forall k1 k2 l1 l2,
              k1 <> k2 ->
              dict_get channel_map k1 = Some l1 ->
              dict_get channel_map k2 = Some l2 ->
              disjoint_indices l1 l2)
        /\ List.concat (map snd channel_map)
           = seq 0 (List.length (data_factory.columns data_df))
        /\ (forall i : nat,
              (i < List.length (data_factory.columns data_df))%nat
              <-> exists k idxs,
                    dict_get channel_map k = Some idxs /\ In i idxs)).
Proof.
  split; [apply returned_channel_map_partitions|].
  intros Hin.
  pose proof (load_aggregation_closed_form delimiter loads monitors Hin) as E.
  destruct Hin as (Hlen & Hnd & _).
  exists (flat_map (load_entries delimiter) (combine loads monitors)),
         (consecutive_channel_map 0 loads).
  assert (Hcols : data_factory.columns
                    (flat_map (load_entries delimiter) (combine loads monitors))
                  = flat_map (load_columns delimiter) loads).
  { unfold data_factory.columns, dict_keys.
    apply load_entries_keys. exact Hlen. }
  assert (Hcat : List.concat (map snd (consecutive_channel_map 0 loads))
                 = seq 0 (List.length (flat_map (load_columns delimiter) loads)))
    by apply consecutive_concat.
  assert (Hkeys : NoDup (dict_keys (consecutive_channel_map 0 loads)))
    by (rewrite consecutive_keys; exact Hnd).
  split; [exact E|].
  split; [exact Hcols|].
  split; [apply consecutive_keys|].
  split; [intros load Hl; apply consecutive_get; assumption|].
  split.
  { intros k1 k2 l1 l2 Hne H1 H2.
    apply (concat_NoDup_disjoint (consecutive_channel_map 0 loads))
      with (k1 := k1) (k2 := k2).
    - rewrite Hcat. apply seq_NoDup.
    - apply dict_get_in. exact H1.
    - apply dict_get_in. exact H2.
    - exact Hne. }
  rewrite Hcols.
  split; [exact Hcat|].
  intros i. split.
  - intros Hi.
    assert (Hi' : In i (List.concat (map snd (consecutive_channel_map 0 loads)))).
    { rewrite Hcat. apply in_seq. lia. }
    apply in_concat in Hi'. destruct Hi' as (idxs & Hl & Hi').
    apply in_map_iff in Hl. destruct Hl as ([k l] & El & Hl).
    cbn [snd] in El. subst l.
    exists k, idxs. split; [apply dict_in_get; assumption | exact Hi'].
  - intros (k & idxs & Hget & Hi).
    assert (Hi' : In i (List.concat (map snd (consecutive_channel_map 0 loads)))).
    { apply in_concat. exists idxs. split; [|exact Hi].
      apply in_map_iff. exists (k, idxs). split; [reflexivity|].
      apply dict_get_in. exact Hget. }
    rewrite Hcat in Hi'. apply in_seq in Hi'. lia.
Qed.

Lemma channel_map_partitions_columns_witness :
  single_sided_input "_"
    [example_load "a" dss_phase.A; example_load "b" dss_phase.AB]
    [example_monitor "a" mode0_channels 2; example_monitor "b" mode0_channels 2]
  /\ exists (data_df : data_factory.DataFrame) (channel_map : dict (list nat)),
       data_factory.make_load_voltage_magnitude_data "_"
         [example_load "a" dss_phase.A; example_load "b" dss_phase.AB]
         [example_monitor "a" mode0_channels 2;
          example_monitor "b" mode0_channels 2]
       = Ok (data_df, channel_map)
       /\ List.concat (map snd channel_map)
          = seq 0 (List.length (data_factory.columns data_df)).
Proof.
  assert (H : single_sided_input "_"
                [example_load "a" dss_phase.A; example_load "b" dss_phase.AB]
                [example_monitor "a" mode0_channels 2;
                 example_monitor "b" mode0_channels 2]).
  { unfold single_sided_input.
    split; [reflexivity|].
    split; [repeat constructor; simpl; intuition discriminate|].
    split; [discriminate|].
    split; [repeat constructor|].
    split; [repeat constructor|].
    split; [repeat constructor|].
    split.
    - cbn [combine].
      constructor; [|constructor; [|constructor]];
        intros ch Hch; cbn in Hch |- *; intuition (subst; auto).
    - exists 2%nat. repeat constructor. }
  split; [exact H|].
  destruct (proj2 (channel_map_partitions_columns "_" _ _) H)
    as (data_df & channel_map & E & _ & _ & _ & _ & Hcat & _).
  exists data_df, channel_map. split; [exact E | exact Hcat].
Defined.

(** The example of the specification, evaluated: two loads with one and
    two meters, channel names [hours, V1, V2, V3]. *)
Example channel_map_of_two_loads :
  exists data_df,
    data_factory.make_load_voltage_magnitude_data "_"
      [example_load "a" dss_phase.A; example_load "b" dss_phase.AB]
      [example_monitor "a" mode0_channels 2; example_monitor "b" mode0_channels 2]
    = Ok (data_df, [("load.a", [0%nat]); ("load.b", [1%nat; 2%nat])])
    /\ data_factory.columns data_df = ["load.a_V1"; "load.b_V1"; "load.b_V2"]%string.
Proof. eexists. split; vm_compute; reflexivity. Qed.

(** ** Aggregation of the transformers *)

Section TransformerTable.

Variable delimiter : string.

Lemma transformer_channel_step_ok (t : dss_transformer.Transformer)
    (mp ms : dss_monitor.Monitor) (data : dict (list Q)) (ch : string) :
  monitor_well_shaped mp -> monitor_well_shaped ms ->
  In ch (dss_monitor.channel_names (dss_monitor.make_data mp)) ->
  In ch (dss_monitor.channel_names (dss_monitor.make_data ms)) ->
  data_factory.transformer_channel_step delimiter t
    (dss_monitor.make_data mp) (dss_monitor.make_data ms) data ch
  = Ok (dict_set
          (dict_set data
             (transformer_object t ++ delimiter ++ "primary" ++ delimiter ++ ch)
             (channel_column (dss_monitor.make_data mp) ch))
          (transformer_object t ++ delimiter ++ "secondary" ++ delimiter ++ ch)
          (channel_column (dss_monitor.make_data ms) ch)).
Proof.
  intros Hp Hs Hinp Hins.
  unfold data_factory.transformer_channel_step, channel_column.
  destruct (list_index_present _ _ Hinp) as (jp & Ejp & Hjp).
  destruct (list_index_present _ _ Hins) as (js & Ejs & Hjs).
  rewrite Ejp, Ejs. cbn [bind]. unfold get_column.
  unfold monitor_well_shaped in Hp, Hs. rewrite Hp, Hs.
  destruct (Nat.ltb_spec jp
              (List.length (dss_monitor.channel_names (dss_monitor.make_data mp))))
    as [_|Hge]; [|lia].
  destruct (Nat.ltb_spec js
              (List.length (dss_monitor.channel_names (dss_monitor.make_data ms))))
    as [_|Hge]; [|lia].
  reflexivity.
Qed.

Lemma transformer_step_ok (data : dict (list Q))
    (item : dss_transformer.Transformer
            * (dss_monitor.Monitor * dss_monitor.Monitor)) :
  monitor_well_shaped (fst (snd item)) ->
  monitor_well_shaped (snd (snd item)) ->
  has_channels data_factory.all_channels (fst (snd item)) ->
  has_channels data_factory.all_channels (snd (snd item)) ->
  data_factory.transformer_step delimiter data item
  = Ok (fold_left (fun acc kv => dict_set acc (fst kv) (snd kv))
          (transformer_entries delimiter item) data).
Proof.
  destruct item as [t [mp ms]]. cbn [fst snd]. intros Hp Hs Hcp Hcs.
  unfold data_factory.transformer_step, transformer_entries,
    data_factory.all_channels.
  cbn [fst snd for_each flat_map app fold_left].
  do 3 (rewrite transformer_channel_step_ok;
        [cbn [bind] | assumption | assumption
         | apply Hcp; simpl; tauto | apply Hcs; simpl; tauto]).
  reflexivity.
Qed.

Lemma transformer_loop_ok
    (items : list (dss_transformer.Transformer
                   * (dss_monitor.Monitor * dss_monitor.Monitor))) :
  Forall (fun item =>
            monitor_well_shaped (fst (snd item))
            /\ monitor_well_shaped (snd (snd item))
            /\ has_channels data_factory.all_channels (fst (snd item))
            /\ has_channels data_factory.all_channels (snd (snd item)))
         items ->
  forall data : dict (list Q),
    for_each (data_factory.transformer_step delimiter) items data
    = Ok (fold_left (fun acc kv => dict_set acc (fst kv) (snd kv))
            (flat_map (transformer_entries delimiter) items) data).
Proof.
  induction items as [|item items IH]; intros H data; [reflexivity|].
  inversion H as [|? ? (Hp & Hs & Hcp & Hcs) Hrest]; subst.
  cbn [for_each flat_map].
  rewrite transformer_step_ok by assumption. cbn [bind].
  rewrite IH by assumption. now rewrite fold_left_app.
Qed.

Lemma transformer_entries_keys (transformers : list dss_transformer.Transformer) :
  forall mps mss : list dss_monitor.Monitor,
    List.length mps = List.length transformers ->
    List.length mss = List.length transformers ->
    map fst (flat_map (transformer_entries delimiter)
               (combine transformers (combine mps mss)))
    = flat_map (transformer_columns delimiter) transformers.
Proof.
  induction transformers as [|t ts IH]; intros [|mp mps] [|ms mss] Hp Hs;
    simpl in Hp, Hs; try discriminate; [reflexivity|].
  cbn [combine flat_map]. rewrite map_app, IH by lia. f_equal.
Qed.

(** A column name determines the object name, the side and the channel. *)
Lemma transformer_column_inj (o1 o2 s1 s2 c1 c2 : string) :
  In s1 ["primary"; "secondary"]%string ->
  In s2 ["primary"; "secondary"]%string ->
  In c1 data_factory.all_channels -> In c2 data_factory.all_channels ->
  (o1 ++ delimiter ++ s1 ++ delimiter ++ c1
   = o2 ++ delimiter ++ s2 ++ delimiter ++ c2)%string ->
  o1 = o2 /\ s1 = s2 /\ c1 = c2.
Proof.
  intros Hs1 Hs2 Hc1 Hc2 E.
  pose proof (all_channels_length _ Hc1) as L1.
  pose proof (all_channels_length _ Hc2) as L2.
  assert (Hsame : forall s,
            (o1 ++ delimiter ++ s ++ delimiter ++ c1
             = o2 ++ delimiter ++ s ++ delimiter ++ c2)%string ->
            o1 = o2 /\ c1 = c2).
  { intros s Es. apply str_app_inj_tail in Es.
    - destruct Es as [-> Es]. split; [reflexivity|].
      apply str_app_inv_head in Es. apply str_app_inv_head in Es.
      apply str_app_inv_head in Es. exact Es.
    - rewrite !str_length_app, L1, L2. reflexivity. }
  assert (Hdiff : forall a b x y,
            (a ++ delimiter ++ "primary" ++ delimiter ++ x
             = b ++ delimiter ++ "secondary" ++ delimiter ++ y)%string ->
            String.length x = 2%nat -> String.length y = 2%nat -> False).
  { intros a b x y Ed Lx Ly.
    assert (Ed' : ((a ++ delimiter) ++ ("primary" ++ delimiter ++ x)
                   = ((b ++ delimiter) ++ "se")
                       ++ ("condary" ++ delimiter ++ y))%string).
    { rewrite !str_app_assoc. exact Ed. }
    apply str_app_inj_tail in Ed'.
    - destruct Ed' as [_ Ed']. discriminate Ed'.
    - cbn [append String.length]. rewrite !str_length_app, Lx, Ly.
      reflexivity. }
  simpl in Hs1, Hs2.
  destruct Hs1 as [<-|[<-|[]]], Hs2 as [<-|[<-|[]]].
  - destruct (Hsame _ E) as [-> ->]. auto.
  - exfalso. exact (Hdiff _ _ _ _ E L1 L2).
  - exfalso. symmetry in E. exact (Hdiff _ _ _ _ E L2 L1).
  - destruct (Hsame _ E) as [-> ->]. auto.
Qed.

Lemma transformer_columns_in (t : dss_transformer.Transformer) (key : string) :
  In key (transformer_columns delimiter t) ->
  exists s ch,
    In s ["primary"; "secondary"]%string
    /\ In ch data_factory.all_channels
    /\ key = (transformer_object t ++ delimiter ++ s ++ delimiter ++ ch)%string.
Proof.
  unfold transformer_columns. rewrite in_flat_map.
  intros (ch & Hch & [<-|[<-|[]]]).
  - exists "primary"%string, ch. simpl. tauto.
  - exists "secondary"%string, ch. simpl. tauto.
Qed.

Lemma transformer_columns_NoDup (t : dss_transformer.Transformer) :
  NoDup (transformer_columns delimiter t).
Proof.
  unfold transformer_columns, data_factory.all_channels.
  cbn [flat_map app].
  repeat constructor; cbn [In]; intros H;
    repeat (destruct H as [H|H];
            [apply transformer_column_inj in H;
             [destruct H as (_ & Hs & Hc); try discriminate Hs;
              try discriminate Hc
             | simpl; tauto ..]
            | ]);
    try contradiction.
Qed.

Lemma all_transformer_columns_NoDup
    (transformers : list dss_transformer.Transformer) :
  NoDup (map transformer_object transformers) ->
  NoDup (flat_map (transformer_columns delimiter) transformers).
Proof.
  induction transformers as [|t ts IH]; intros H; [constructor|].
  cbn [flat_map map] in *. inversion H as [|? ? Hnot Hrest]; subst.
  apply NoDup_app;
    [apply transformer_columns_NoDup | apply IH; exact Hrest|].
  intros key H1 H2. apply in_flat_map in H2. destruct H2 as (t2 & Ht2 & H2).
  apply transformer_columns_in in H1.
  destruct H1 as (s1 & c1 & Hs1 & Hc1 & ->).
  apply transformer_columns_in in H2.
  destruct H2 as (s2 & c2 & Hs2 & Hc2 & E).
  apply transformer_column_inj in E; [|assumption..].
  destruct E as [E _]. apply Hnot. rewrite E. apply in_map. exact Ht2.
Qed.

Lemma transformer_columns_count
    (transformers : list dss_transformer.Transformer) :
  List.length (flat_map (transformer_columns delimiter) transformers)
  = (6 * List.length transformers)%nat.
Proof.
  induction transformers as [|t ts IH]; [reflexivity|].
  cbn [flat_map]. rewrite length_app, IH.
  unfold transformer_columns, data_factory.all_channels.
  cbn [flat_map app List.length]. lia.
Qed.

End TransformerTable.

(** C9.  For every paired-sided input the call returns a table whose
    columns are, transformer by transformer and channel by channel over
    [V1], [V2], [V3], the object name joined by the delimiter with the side
    ([primary], then [secondary]) and the channel: six columns per
    transformer, no name twice, and every combination of a transformer, a
    side and a channel is a column. *)
Theorem transformer_table_six_columns_each (delimiter : string)
    (monitors_primary monitors_secondary : list dss_monitor.Monitor)
    (transformers : list dss_transformer.Transformer) :
  paired_sided_input monitors_primary monitors_secondary transformers ->
  exists data_df : data_factory.DataFrame,
    data_factory.make_transformer_voltage_magnitude_data delimiter
      monitors_primary monitors_secondary transformers = Ok data_df
    /\ data_factory.columns data_df
       = flat_map (transformer_columns delimiter) transformers
    /\ List.length (data_factory.columns data_df)
       = (6 * List.length transformers)%nat
    /\ NoDup (data_factory.columns data_df)
    /\ forall (t : dss_transformer.Transformer) (side ch : string),
         In t transformers ->
         In side ["primary"; "secondary"]%string ->
         In ch data_factory.all_channels ->
         In (transformer_object t ++ delimiter ++ side ++ delimiter ++ ch)%string
            (data_factory.columns data_df).
Proof.
  intros (Hlp & Hls & Hnd & Hshape & Hch & n & Hn).
  rewrite Forall_app in Hshape, Hch, Hn.
  destruct Hshape as [Hshp Hshs], Hch as [Hchp Hchs], Hn as [Hnp Hns].
  rewrite Forall_forall in Hshp, Hshs, Hchp, Hchs, Hnp, Hns.
  set (items := combine transformers (combine monitors_primary monitors_secondary)).
  assert (Hitem : forall t mp ms, In (t, (mp, ms)) items ->
                    In mp monitors_primary /\ In ms monitors_secondary).
  { intros t mp ms Hin. apply in_combine_r in Hin.
    split; [eapply in_combine_l | eapply in_combine_r]; exact Hin. }
  assert (Hkeys := transformer_entries_keys delimiter transformers
                     monitors_primary monitors_secondary Hlp Hls).
  fold items in Hkeys.
  assert (Hnodup := all_transformer_columns_NoDup delimiter transformers Hnd).
  unfold data_factory.make_transformer_voltage_magnitude_data. fold items.
  rewrite transformer_loop_ok.
  2:{ apply Forall_forall. intros [t [mp ms]] Hin. cbn [fst snd].
      destruct (Hitem t mp ms Hin) as [Hp Hs]. auto. }
  cbn [bind]. rewrite dict_set_all_fresh.
  2:{ cbn [dict_keys map app]. rewrite Hkeys. exact Hnodup. }
  cbn [app]. rewrite (pd_DataFrame_ok _ n).
  2:{ apply Forall_forall. intros [key col] Hin.
      apply in_flat_map in Hin. destruct Hin as ([t [mp ms]] & Hit & Hin).
      destruct (Hitem t mp ms Hit) as [Hp Hs].
      unfold transformer_entries in Hin. cbn [fst snd] in Hin.
      apply in_flat_map in Hin. destruct Hin as (ch & Hc & Hin).
      cbn [snd]. destruct Hin as [E|[E|[]]]; injection E as _ <-.
      - rewrite channel_column_length by (apply Hchp; assumption). auto.
      - rewrite channel_column_length by (apply Hchs; assumption). auto. }
  eexists. split; [reflexivity|].
  unfold data_factory.columns, dict_keys. rewrite Hkeys.
  split; [reflexivity|].
  split; [apply transformer_columns_count|].
  split; [exact Hnodup|].
  intros t side ch Ht Hside Hc.
  apply in_flat_map. exists t. split; [exact Ht|].
  unfold transformer_columns. apply in_flat_map. exists ch.
  split; [exact Hc|].
  simpl in Hside. destruct Hside as [<-|[<-|[]]]; simpl; tauto.
Qed.

Lemma transformer_table_six_columns_each_witness :
  paired_sided_input
    [example_monitor "p" mode0_channels 2]
    [example_monitor "s" mode0_channels 2]
    [example_transformer "MDV_SUB_1"]
  /\ exists data_df : data_factory.DataFrame,
       data_factory.make_transformer_voltage_magnitude_data "_"
         [example_monitor "p" mode0_channels 2]
         [example_monitor "s" mode0_channels 2]
         [example_transformer "MDV_SUB_1"] = Ok data_df
       /\ List.length (data_factory.columns data_df) = 6%nat.
Proof.
  assert (H : paired_sided_input
                [example_monitor "p" mode0_channels 2]
                [example_monitor "s" mode0_channels 2]
                [example_transformer "MDV_SUB_1"]).
  { unfold paired_sided_input.
    split; [reflexivity|].
    split; [reflexivity|].
    split; [repeat constructor; simpl; tauto|].
    split; [repeat constructor|].
    split.
    - cbn [app]. constructor; [|constructor; [|constructor]];
        intros ch Hch; cbn in Hch |- *; intuition (subst; auto).
    - exists 2%nat. repeat constructor. }
  split; [exact H|].
  destruct (transformer_table_six_columns_each "_" _ _ _ H)
    as (data_df & E & _ & Hcount & _).
  exists data_df. split; [exact E | exact Hcount].
Defined.

(** The example of the specification, evaluated: one transformer, the
    delimiter ["_"]. *)
Example columns_of_one_transformer :
  exists data_df,
    data_factory.make_transformer_voltage_magnitude_data "_"
      [example_monitor "p" mode0_channels 2]
      [example_monitor "s" mode0_channels 2]
      [example_transformer "MDV_SUB_1"] = Ok data_df
    /\ data_factory.columns data_df
       = ["transformer.MDV_SUB_1_primary_V1"; "transformer.MDV_SUB_1_secondary_V1";
          "transformer.MDV_SUB_1_primary_V2"; "transformer.MDV_SUB_1_secondary_V2";
          "transformer.MDV_SUB_1_primary_V3"; "transformer.MDV_SUB_1_secondary_V3"
         ]%string.
Proof. eexists. split; vm_compute; reflexivity. Qed.

(** ** The prototype on a constant profile *)

Lemma insert_sorted_Forall (P : Q -> Prop) (x : Q) (v : list Q) :
  P x -> Forall P v -> Forall P (insert_sorted x v).
Proof.
  intros Hx. induction v as [|y v IH]; intros Hv; simpl.
  - constructor; [exact Hx | constructor].
  - inversion Hv as [|? ? Hy Hrest]; subst.
    destruct (Qle_bool x y); constructor; auto.
Qed.

Lemma insert_sorted_length (x : Q) (v : list Q) :
  List.length (insert_sorted x v) = S (List.length v).
Proof.
  induction v as [|y v IH]; simpl; [reflexivity|].
  destruct (Qle_bool x y); simpl; [reflexivity | now rewrite IH].
Qed.

Lemma sort_Forall (P : Q -> Prop) (v : list Q) :
  Forall P v -> Forall P (sort v).
Proof.
  induction v as [|x v IH]; intros H; simpl; [constructor|].
  inversion H; subst. apply insert_sorted_Forall; auto.
Qed.

Lemma sort_length (v : list Q) : List.length (sort v) = List.length v.
Proof.
  induction v as [|x v IH]; simpl; [reflexivity|].
  now rewrite insert_sorted_length, IH.
Qed.

Lemma nth_Forall (P : Q -> Prop) (v : list Q) (k : nat) :
  Forall P v -> (k < List.length v)%nat -> P (nth k v 0).
Proof.
  intros H Hk. rewrite Forall_forall in H. apply H. apply nth_In. exact Hk.
Qed.

(** The lower neighbour of a quartile position is inside the array. *)
Lemma quartile_index_bound (k : nat) (q : Q) :
  q = 25 \/ q = 75 ->
  (Z.to_nat (Qfloor (inject_Z (Z.of_nat k) * q / 100)) <= k)%nat.
Proof.
  intros [-> | ->]; unfold Qfloor, Qdiv, Qmult, Qinv; cbn [Qnum Qden inject_Z];
    rewrite ?Z.mul_1_r;
    apply Nat2Z.inj_le; rewrite Z2Nat.id;
    try (apply Z.div_pos; lia);
    apply Z.div_le_upper_bound; lia.
Qed.

Lemma np_percentile_constant (v : list Q) (c q : Q) :
  constant_series c v -> q = 25 \/ q = 75 ->
  exists r, np_percentile v q = Some r /\ r == c.
Proof.
  intros (Hne & Hall) Hq. unfold np_percentile.
  destruct v as [|x v']; [congruence|].
  set (v := x :: v') in *.
  eexists. split; [reflexivity|].
  assert (Hs : Forall (fun y => y == c) (sort v)) by (apply sort_Forall; exact Hall).
  assert (Hl : (0 < List.length (sort v))%nat)
    by (rewrite sort_length; subst v; simpl; lia).
  pose proof (quartile_index_bound (List.length (sort v) - 1) q Hq) as Hlo.
  rewrite (nth_Forall _ (sort v) _ Hs) by lia.
  rewrite (nth_Forall _ (sort v) (Nat.min _ _) Hs) by lia.
  ring.
Qed.

Lemma zero_center_constant (v : list Q) (c : Q) :
  constant_series c v ->
  exists c', constant_series c' (zero_center v).
Proof.
  intros (Hne & Hall). unfold zero_center, np_mean.
  destruct v as [|x v']; [congruence|].
  set (m := Qsum (x :: v') / inject_Z (Z.of_nat (List.length (x :: v')))).
  exists (c - m). split; [discriminate|].
  apply Forall_map. eapply Forall_impl; [|exact Hall].
  intros y Hy. cbn beta. rewrite Hy. reflexivity.
Qed.

(** The IQR of a zero-centred constant profile is zero. *)
Lemma iqr_constant (v : list Q) (c : Q) :
  constant_series c v ->
  exists q, scipy_stats_iqr (zero_center v) = Some q /\ q == 0.
Proof.
  intros Hc. destruct (zero_center_constant v c Hc) as (c' & Hc').
  destruct (np_percentile_constant _ c' 75 Hc' (or_intror eq_refl))
    as (p75 & E75 & H75).
  destruct (np_percentile_constant _ c' 25 Hc' (or_introl eq_refl))
    as (p25 & E25 & H25).
  unfold scipy_stats_iqr. rewrite E75, E25.
  eexists. split; [reflexivity|]. rewrite H75, H25. ring.
Qed.

Lemma combine_add_constant (profile noise : list Q) (c : Q) :
  Forall (fun x => x == c) profile ->
  Forall (fun z => z == 0) noise ->
  Forall (fun x => x == c) (map (fun p => fst p + snd p) (combine profile noise)).
Proof.
  intros Hp. revert noise.
  induction Hp as [|x profile Hx Hp IH]; intros noise Hn; [constructor|].
  destruct Hn as [|z noise Hz Hn]; [constructor|].
  cbn [combine map fst snd]. constructor; [|apply IH; exact Hn].
  rewrite Hx, Hz. ring.
Qed.

Section ConstantProfile.

Variable standard_normal : NormalSource.
Variable profiles_df : dict (list Q).
Variable recurrence : dss_loadshape.Recurrence.

(** With a constant profile the noise has scale zero and the series
    handed to the load shape is the profile's constant again. *)
Lemma make_series_constant (profile_name : string) (random_state : Z)
    (profile : list Q) (c : Q) :
  dict_get profiles_df profile_name = Some profile ->
  constant_series c profile ->
  exists v,
    loadshape_prototype.make_series
      (loadshape_factory.make_prototype standard_normal profiles_df recurrence)
      profile_name random_state = Ok v
    /\ constant_series c v
    /\ List.length v = List.length profile.
Proof.
  intros Hget Hc.
  unfold loadshape_prototype.make_series, loadshape_factory.make_prototype.
  cbn [loadshape_prototype._profiles_df loadshape_prototype._make_values].
  unfold dict_getitem. rewrite Hget. cbn [bind].
  destruct (iqr_constant profile c Hc) as (q & Eq & Hq).
  rewrite Eq. unfold loadshape_factory.make_values, norm_rvs.
  cbn [option_map].
  assert (Hscale : Qlt_bool (0.1 * q) 0 = false).
  { apply Qlt_bool_false_iff. rewrite Hq. discriminate. }
  rewrite Hscale. cbn [bind]. unfold np_add.
  rewrite length_map, length_seq, Nat.eqb_refl.
  eexists. split; [reflexivity|].
  destruct Hc as (Hne & Hall).
  assert (Hlen : List.length
                   (map (fun p => fst p + snd p)
                      (combine profile
                         (map (fun i => standard_normal random_state i
                                          * (0.1 * q) + 0)
                            (seq 0 (List.length profile)))))
                 = List.length profile).
  { rewrite length_map, length_combine, length_map, length_seq.
    apply Nat.min_id. }
  split; [split|exact Hlen].
  - intros E. rewrite E in Hlen. destruct profile; [congruence | discriminate].
  - apply combine_add_constant; [exact Hall|].
    apply Forall_map. apply Forall_forall. intros i _.
    rewrite Hq. ring.
Qed.

(** A clone from a constant profile: a load shape whose samples are all
    [1], as many as the profile has. *)
Lemma clone_constant_profile (G : Generator) (load : dss_load.Load)
    (random_state : Z) (h : store) (profile_index : Z)
    (profile_name : string) (profile : list Q) (c : Q) :
  loadshape_prototype.select_profile G
    (loadshape_factory.make_prototype standard_normal profiles_df recurrence)
    load random_state
    = Ok (profile_index, profile_name) ->
  dict_get profiles_df profile_name = Some profile ->
  constant_series c profile ->
  exists command_edit loadshape h',
    loadshape_prototype.clone G
      (loadshape_factory.make_prototype standard_normal profiles_df recurrence)
      load random_state h
      = (Ok (command_edit, loadshape), h')
    /\ dss_loadshape.profile_name loadshape = profile_name
    /\ List.length (deref h' (dss_loadshape.values loadshape))
       = List.length profile
    /\ Forall (fun s => s = 1) (deref h' (dss_loadshape.values loadshape)).
Proof.
  intros Hsel Hget Hc.
  destruct (make_series_constant profile_name random_state profile c Hget Hc)
    as (v & Ev & Hv & Hlen).
  destruct (normalize_constant _ _ Hv) as (scaled & En & Hslen & Hone).
  unfold loadshape_prototype.clone, st_bind, st_lift, new_array.
  rewrite Hsel. cbn [snd]. rewrite Ev.
  rewrite init_unfold by (rewrite length_app; cbn [List.length]; lia).
  unfold init_outcome.
  cbn [loadshape_prototype._n_interpolate loadshape_factory.make_prototype].
  pose proof (deref_new h [v] 0) as Ed. rewrite Nat.add_0_r in Ed.
  rewrite Ed. cbn [deref nth]. rewrite En.
  unfold st_ret. eexists. eexists. eexists.
  split; [reflexivity|]. cbn [dss_loadshape.profile_name dss_loadshape.values].
  split; [reflexivity|].
  rewrite deref_new. cbn [deref nth].
  split; [congruence | exact Hone].
Qed.

End ConstantProfile.

(** ** Profiles of a single sample *)

(** C8 as the specification words it fails: a profile of one sample is
    not rejected.  The clone is made and its load shape holds the
    one sample [1]. *)
Lemma single_sample_profile_not_rejected :
  exists command_edit loadshape h',
    loadshape_prototype.clone lcg
      (loadshape_factory.make_prototype cycle_normal
         [("BUSHILF_SCENT", [5]); ("BUSHIPV_SCENT", [5]);
          ("BUSHIWD_SCENT", [5]); ("BUSHIDG_SCENT", [5])]%string
         dss_loadshape.YEARLY)
      (example_load "a" dss_phase.ABC) 7 []
    = (Ok (command_edit, loadshape), h')
    /\ deref h' (dss_loadshape.values loadshape) = [1].
Proof.
  eexists. eexists. eexists. split; vm_compute; reflexivity.
Qed.

(** C8 (amended).  For every profile of exactly one sample stored under
    the selected name, in every store, the clone made by the factory's
    prototype raises nothing: it returns a load shape of that profile
    whose array holds the single sample [1]. *)
Theorem single_sample_profile_accepted (G : Generator)
    (standard_normal : NormalSource) (profiles_df : dict (list Q))
    (recurrence : dss_loadshape.Recurrence) (load : dss_load.Load)
    (random_state : Z) (h : store) (profile_index : Z)
    (profile_name : string) (p : Q) :
  loadshape_prototype.select_profile G
    (loadshape_factory.make_prototype standard_normal profiles_df recurrence)
    load random_state = Ok (profile_index, profile_name) ->
  dict_get profiles_df profile_name = Some [p] ->
  exists command_edit loadshape h',
    loadshape_prototype.clone G
      (loadshape_factory.make_prototype standard_normal profiles_df recurrence)
      load random_state h
    = (Ok (command_edit, loadshape), h')
    /\ dss_loadshape.profile_name loadshape = profile_name
    /\ deref h' (dss_loadshape.values loadshape) = [1].
Proof.
  intros Hsel Hget.
  assert (Hc : constant_series p [p]).
  { split; [discriminate|]. constructor; [reflexivity | constructor]. }
  destruct (clone_constant_profile standard_normal profiles_df recurrence G
              load random_state h profile_index profile_name [p] p
              Hsel Hget Hc)
    as (command_edit & loadshape & h' & E & Hname & Hlen & Hone).
  exists command_edit, loadshape, h'.
  split; [exact E|]. split; [exact Hname|].
  destruct (deref h' (dss_loadshape.values loadshape)) as [|s [|s' rest]];
    simpl in Hlen; try discriminate.
  inversion Hone as [|? ? Hs _]; subst. reflexivity.
Qed.

Lemma single_sample_profile_accepted_witness :
  exists command_edit loadshape h',
    loadshape_prototype.clone lcg
      (loadshape_factory.make_prototype cycle_normal
         [("BUSHILF_SCENT", [5]); ("BUSHIPV_SCENT", [5]);
          ("BUSHIWD_SCENT", [5]); ("BUSHIDG_SCENT", [5])]%string
         dss_loadshape.YEARLY)
      (example_load "a" dss_phase.ABC) 7 [[2; 3]]
    = (Ok (command_edit, loadshape), h')
    /\ dss_loadshape.profile_name loadshape = "BUSHIDG_SCENT"%string
    /\ deref h' (dss_loadshape.values loadshape) = [1].
Proof.
  apply (single_sample_profile_accepted lcg cycle_normal _ dss_loadshape.YEARLY
           (example_load "a" dss_phase.ABC) 7 [[2; 3]] 3 "BUSHIDG_SCENT" 5).
  - vm_compute. reflexivity.
  - vm_compute. reflexivity.
Defined.

(* ================================================================== *)
(** * Further properties *)
(* ================================================================== *)

(** ** Load shapes: what the initializer returns and when *)

(** The scaling step succeeds exactly on a non-empty series; the scaled
    samples lie in [[0, 1]] and [1] is among them. *)
Lemma normalize_range (v scaled : list Q) :
  dss_loadshape.normalize v = Ok scaled ->
  v <> []
  /\ List.length scaled = List.length v
  /\ Forall (fun s => 0 <= s <= 1) scaled
  /\ In 1 scaled.
Proof.
  intros E.
  assert (Hne : v <> []) by (intros ->; discriminate).
  destruct (Qmin_list_spec v Hne) as (lo & Elo & Hlo_in & Hlo).
  destruct (Qmax_list_spec v Hne) as (hi & Ehi & Hhi_in & Hhi).
  rewrite (normalize_eq v lo hi Elo Ehi) in E. injection E as <-.
  split; [exact Hne|].
  split; [unfold np_interp; apply length_map|].
  split.
  - unfold np_interp. apply Forall_map. apply Forall_forall.
    intros s Hs. apply np_interp1_bounds; [apply Hlo | apply Hhi]; exact Hs.
  - unfold np_interp. apply in_map_iff. exists hi. split; [|exact Hhi_in].
    apply np_interp1_at_max; [apply Hlo; exact Hhi_in | apply Qle_refl].
Qed.

Lemma normalize_nonempty (v : list Q) :
  v <> [] -> exists scaled, dss_loadshape.normalize v = Ok scaled.
Proof.
  intros Hne.
  destruct (Qmin_list_spec v Hne) as (lo & Elo & _).
  destruct (Qmax_list_spec v Hne) as (hi & Ehi & _).
  eexists. apply normalize_eq; eassumption.
Qed.

(** A returned load shape comes from a series that reached the scaling
    step and was scaled. *)
Lemma init_returns_inv (name profile_name : string)
    (recurrence : dss_loadshape.Recurrence) (a : addr)
    (n_interpolate : option Z) (h h' : store) (ls : dss_loadshape.LoadShape) :
  (a < List.length h)%nat ->
  dss_loadshape.__init__ name profile_name recurrence a n_interpolate h
    = (Ok ls, h') ->
  exists series,
    scaling_input (deref h a) n_interpolate = Ok series
    /\ dss_loadshape.normalize series = Ok (deref h' (dss_loadshape.values ls))
    /\ dss_loadshape.name ls
       = {| dss_name.class_ := "loadshape"; dss_name.element := name |}
    /\ dss_loadshape.profile_name ls = profile_name
    /\ dss_loadshape.recurrence ls = recurrence.
Proof.
  intros Ha. rewrite init_unfold by exact Ha. unfold init_outcome.
  destruct n_interpolate as [n|]; cbn [scaling_input].
  - destruct (dss_loadshape.resample (deref h a) n) as [v1|e]; [|discriminate].
    destruct (dss_loadshape.normalize v1) as [v2|e] eqn:En; [|discriminate].
    intros E. injection E as <- <-. exists v1.
    cbn [dss_loadshape.values dss_loadshape.name dss_loadshape.profile_name
           dss_loadshape.recurrence].
    rewrite deref_new. cbn [deref nth]. auto.
  - destruct (dss_loadshape.normalize (deref h a)) as [v2|e] eqn:En;
      [|discriminate].
    intros E. injection E as <- <-. exists (deref h a).
    cbn [dss_loadshape.values dss_loadshape.name dss_loadshape.profile_name
           dss_loadshape.recurrence].
    rewrite deref_new. cbn [deref nth]. auto.
Qed.

(** X1.  Whatever the input array and whatever [n_interpolate]: when the
    initializer returns, every sample of the load shape lies in [[0, 1]],
    the value [1] is among them, and there are as many samples as the
    series that reached the scaling step had. *)
Theorem loadshape_values_in_unit_interval (name profile_name : string)
    (recurrence : dss_loadshape.Recurrence) (a : addr)
    (n_interpolate : option Z) (h h' : store) (ls : dss_loadshape.LoadShape) :
  (a < List.length h)%nat ->
  dss_loadshape.__init__ name profile_name recurrence a n_interpolate h
    = (Ok ls, h') ->
  Forall (fun s => 0 <= s <= 1) (deref h' (dss_loadshape.values ls))
  /\ In 1 (deref h' (dss_loadshape.values ls))
  /\ exists series,
       scaling_input (deref h a) n_interpolate = Ok series
       /\ series <> []
       /\ List.length (deref h' (dss_loadshape.values ls)) = List.length series.
Proof.
  intros Ha E.
  destruct (init_returns_inv _ _ _ _ _ _ _ _ Ha E) as (series & Es & En & _).
  destruct (normalize_range _ _ En) as (Hne & Hlen & Hall & H1).
  split; [exact Hall|]. split; [exact H1|].
  exists series. auto.
Qed.

Lemma loadshape_values_in_unit_interval_witness :
  exists ls h',
    dss_loadshape.__init__ "load_a" "7" dss_loadshape.DAILY 0%nat (Some 8%Z)
      [[3; 1; 2; 5]] = (Ok ls, h')
    /\ Forall (fun s => 0 <= s <= 1) (deref h' (dss_loadshape.values ls)).
Proof.
  eexists. eexists.
  assert (E : dss_loadshape.__init__ "load_a" "7" dss_loadshape.DAILY 0%nat
                (Some 8%Z) [[3; 1; 2; 5]]
              = (Ok {| dss_loadshape.name :=
                         {| dss_name.class_ := "loadshape";
                            dss_name.element := "load_a" |};
                       dss_loadshape.profile_name := "7";
                       dss_loadshape.recurrence := dss_loadshape.DAILY;
                       dss_loadshape.values := 3%nat |},
                 snd (dss_loadshape.__init__ "load_a" "7" dss_loadshape.DAILY
                        0%nat (Some 8%Z) [[3; 1; 2; 5]])))
    by (vm_compute; reflexivity).
  split; [exact E|].
  assert (Ha : (0 < List.length ([[3; 1; 2; 5]]%Q : store))%nat)
    by (simpl; lia).
  exact (proj1 (loadshape_values_in_unit_interval _ _ _ _ _ _ _ _ Ha E)).
Defined.

(** X2.  Without resampling the initializer returns exactly on a non-empty
    array: an empty array makes [min()] raise [ValueError]; a non-empty one
    gives a load shape with one sample per input sample. *)
Theorem init_without_resampling (name profile_name : string)
    (recurrence : dss_loadshape.Recurrence) (a : addr) (h : store) :
  (a < List.length h)%nat ->
  (deref h a = [] ->
   fst (dss_loadshape.__init__ name profile_name recurrence a None h)
   = Raise ValueError)
  /\ (deref h a <> [] ->
      exists ls h',
        dss_loadshape.__init__ name profile_name recurrence a None h
          = (Ok ls, h')
        /\ List.length (deref h' (dss_loadshape.values ls))
           = List.length (deref h a)).
Proof.
  intros Ha. split.
  - intros E. rewrite init_unfold by exact Ha. unfold init_outcome.
    rewrite E. reflexivity.
  - intros Hne. destruct (normalize_nonempty _ Hne) as (scaled & En).
    destruct (init_None_ok name profile_name recurrence a h scaled Ha En)
      as (ls & h' & E & Hd).
    exists ls, h'. split; [exact E|].
    rewrite Hd. apply (normalize_range _ _ En).
Qed.

Lemma init_without_resampling_witness :
  (0 < List.length ([[]; [4; 2]]%Q : store))%nat
  /\ fst (dss_loadshape.__init__ "load_a" "7" dss_loadshape.DAILY 0%nat None
            [[]; [4; 2]]) = Raise ValueError
  /\ exists ls h',
       dss_loadshape.__init__ "load_a" "7" dss_loadshape.DAILY 1%nat None
         [[]; [4; 2]] = (Ok ls, h').
Proof.
  assert (H0 : (0 < List.length ([[]; [4; 2]]%Q : store))%nat) by (simpl; lia).
  assert (H1 : (1 < List.length ([[]; [4; 2]]%Q : store))%nat) by (simpl; lia).
  split; [exact H0|]. split.
  - apply (proj1 (init_without_resampling "load_a" "7" dss_loadshape.DAILY
                    0%nat [[]; [4; 2]] H0)). reflexivity.
  - destruct (proj2 (init_without_resampling "load_a" "7" dss_loadshape.DAILY
                       1%nat [[]; [4; 2]] H1)) as (ls & h' & E & _).
    + discriminate.
    + exists ls, h'. exact E.
Defined.

(** ** Resampling: outcomes and values *)

Lemma np_arange_count (L : nat) (n : Z) :
  (0 < L)%nat -> n <> 0%Z ->
  np_arange 0 (QN L) (QN L / inject_Z n)
  = map (fun i => 0 + QN i * (QN L / inject_Z n)) (seq 0 (Z.to_nat n)).
Proof.
  intros HL Hn. unfold np_arange.
  assert (E : (QN L - 0) / (QN L / inject_Z n) == inject_Z n).
  { field. split; [apply inject_Z_neq_0; exact Hn | apply QN_neq_0; exact HL]. }
  rewrite (Qceiling_comp _ _ E), Qceiling_Z. reflexivity.
Qed.

(** On at least two samples and for a non-zero target, resampling
    evaluates the interpolant at [n] positions, none when [n] is
    negative. *)
Lemma resample_unfold (values : list Q) (n : Z) :
  (2 <= List.length values)%nat -> n <> 0%Z ->
  dss_loadshape.resample values n
  = Ok (map (fun j => interp1d_eval (np_arange_int (List.length values)) values
                        (0 + QN j * (QN (List.length values) / inject_Z n)))
          (seq 0 (Z.to_nat n))).
Proof.
  intros HL Hn. unfold dss_loadshape.resample, interp1d.
  rewrite length_arange_int, Nat.eqb_refl. cbn [negb].
  destruct (Nat.ltb_spec (List.length values) 2) as [Hlt|_]; [lia|].
  cbn [bind]. unfold py_truediv.
  destruct (Z.eqb_spec n 0) as [E0|_]; [contradiction|].
  cbn [bind]. rewrite np_arange_count by lia. now rewrite map_map.
Qed.




Lemma nth_map_seq (F : nat -> Q) (n j : nat) :
  (j < n)%nat -> nth j (map F (seq 0 n)) 0 = F j.
Proof.
  intros H.
  rewrite (nth_indep _ 0 (F 0%nat)) by (rewrite length_map, length_seq; exact H).
  rewrite (map_nth F). now rewrite seq_nth.
Qed.

(** X4.  Resampling to [k] times the length keeps the original samples:
    sample [k * i] of the result is sample [i] of the input. *)
Theorem resample_integer_factor_keeps_samples (values : list Q) (k : nat) :
  (2 <= List.length values)%nat -> (1 <= k)%nat ->
  exists resampled : list Q,
    dss_loadshape.resample values (Z.of_nat (k * List.length values))
      = Ok resampled
    /\ List.length resampled = (k * List.length values)%nat
    /\ forall i : nat,
         (i < List.length values)%nat ->
         nth (k * i) resampled 0 == nth i values 0.
Proof.
  intros HL Hk.
  assert (Hn : (0 < k * List.length values)%nat) by nia.
  rewrite resample_unfold by (try exact HL; lia).
  rewrite Nat2Z.id.
  eexists. split; [reflexivity|].
  split; [now rewrite length_map, length_seq|].
  intros i Hi. rewrite nth_map_seq by nia.
  apply interp1d_eval_on_grid; [exact HL | exact Hi|].
  rewrite !Nat2Z.inj_mul, !inject_Z_mult. field.
  split; apply QN_neq_0; lia.
Qed.

Lemma resample_integer_factor_keeps_samples_witness :
  (2 <= List.length [3; 1; 2; 5]%Q)%nat /\ (1 <= 2)%nat
  /\ exists resampled : list Q,
       dss_loadshape.resample [3; 1; 2; 5] 8 = Ok resampled
       /\ nth 4 resampled 0 == 2.
Proof.
  assert (HL : (2 <= List.length [3; 1; 2; 5]%Q)%nat) by (simpl; lia).
  assert (Hk : (1 <= 2)%nat) by lia.
  split; [exact HL|]. split; [exact Hk|].
  destruct (resample_integer_factor_keeps_samples [3; 1; 2; 5] 2 HL Hk)
    as (r & E & _ & Hnth).
  exists r. split; [exact E|].
  apply (Hnth 2%nat). simpl. lia.
Defined.

Lemma QN_lt_ceiling (k : nat) (x : Q) :
  QN k < x <-> (Z.of_nat k < Qceiling x)%Z.
Proof.
  split.
  - intros H. rewrite Zlt_Qlt.
    eapply Qlt_le_trans; [exact H | apply Qle_ceiling].
  - intros H.
    apply Qle_lt_trans with (inject_Z (Qceiling x - 1)).
    + rewrite <- Zle_Qle. lia.
    + apply Qceiling_lt.
Qed.

(** The number of grid points strictly below any point. *)
Lemma searchsorted_arange_int_any (L : nat) (x : Q) :
  np_searchsorted (np_arange_int L) x = Nat.min L (Z.to_nat (Qceiling x)).
Proof.
  unfold np_searchsorted, np_arange_int.
  induction L as [|L IH]; [reflexivity|].
  rewrite seq_S, map_app, filter_app, length_app, IH. cbn [map filter Nat.add].
  destruct (Qlt_bool (QN L) x) eqn:E.
  - apply Qlt_bool_iff in E. apply QN_lt_ceiling in E.
    cbn [List.length]. lia.
  - apply Qlt_bool_false_iff in E.
    assert (H : ~ (Z.of_nat L < Qceiling x)%Z).
    { intros H. apply QN_lt_ceiling in H. lra. }
    cbn [List.length]. lia.
Qed.

Lemma floor_ceiling_cases (x : Q) :
  (Qceiling x = Qfloor x /\ x == inject_Z (Qfloor x))
  \/ Qceiling x = (Qfloor x + 1)%Z.
Proof.
  pose proof (Qfloor_le x) as H1. pose proof (Qle_ceiling x) as H2.
  pose proof (Qlt_floor x) as H3. pose proof (Qceiling_lt x) as H4.
  assert (Hle : (Qfloor x <= Qceiling x)%Z).
  { rewrite Zle_Qle. lra. }
  assert (Hlt : (Qceiling x - 1 < Qfloor x + 1)%Z).
  { rewrite Zlt_Qlt. lra. }
  destruct (Z.eq_dec (Qceiling x) (Qfloor x)) as [E|N].
  - left. split; [exact E|]. rewrite E in H2. lra.
  - right. lia.
Qed.

(** The interpolant on the whole domain: the line through the two samples
    of the segment that holds the point; the last segment also serves the
    points beyond the last sample. *)
Lemma interp1d_eval_segment (y : list Q) (x : Q) :
  (2 <= List.length y)%nat -> 0 <= x -> x < QN (List.length y) ->
  let s := Nat.min (Z.to_nat (Qfloor x)) (List.length y - 2) in
  interp1d_eval (np_arange_int (List.length y)) y x
  == nth s y 0 + (x - QN s) * (nth (S s) y 0 - nth s y 0).
Proof.
  intros HL H0 Hx s.
  assert (Hf0 : (0 <= Qfloor x)%Z).
  { rewrite <- (Qfloor_Z 0). apply Qfloor_resp_le. exact H0. }
  assert (HfL : (Qfloor x < Z.of_nat (List.length y))%Z).
  { rewrite Zlt_Qlt. pose proof (Qfloor_le x). lra. }
  unfold interp1d_eval.
  rewrite searchsorted_arange_int_any, length_arange_int.
  set (t := Z.to_nat (Qfloor x)) in *.
  assert (Ht : (t < List.length y)%nat) by (subst t; lia).
  destruct (floor_ceiling_cases x) as [[Ec Ex]|Ec].
  - (* the point is a grid point *)
    rewrite Ec. fold t.
    assert (Ext : x == QN t).
    { rewrite Ex. subst t. rewrite Z2Nat.id by exact Hf0. reflexivity. }
    destruct t as [|t'] eqn:Et.
    + replace (Nat.min (Nat.max (Nat.min (List.length y) 0) 1)
                 (List.length y - 1)) with 1%nat by lia.
      subst s. replace (Nat.min 0 (List.length y - 2)) with 0%nat by lia.
      cbn [Nat.sub]. rewrite !nth_arange_int by lia. cbn. field.
    + replace (Nat.min (Nat.max (Nat.min (List.length y) (S t')) 1)
                 (List.length y - 1)) with (S t') by lia.
      replace (S t' - 1)%nat with t' by lia.
      rewrite !nth_arange_int by lia.
      assert (E1 : QN (S t') == QN t' + 1).
      { rewrite Nat2Z.inj_succ. unfold Z.succ. rewrite inject_Z_plus.
        reflexivity. }
      destruct (Nat.eq_dec (S t') (List.length y - 1)) as [Elast|Nlast].
      * subst s. replace (Nat.min (S t') (List.length y - 2)) with t' by lia.
        rewrite E1. field. lra.
      * subst s.
        replace (Nat.min (S t') (List.length y - 2)) with (S t') by lia.
        rewrite Ext, E1. field. lra.
  - (* the point is strictly inside a segment, or beyond the last sample *)
    rewrite Ec. replace (Z.to_nat (Qfloor x + 1)) with (S t) by (subst t; lia).
    replace (Nat.min (Nat.max (Nat.min (List.length y) (S t)) 1)
               (List.length y - 1)) with (S s) by (subst s; lia).
    replace (S s - 1)%nat with s by lia.
    rewrite !nth_arange_int by (subst s; lia).
    assert (E1 : QN (S s) == QN s + 1).
    { rewrite Nat2Z.inj_succ. unfold Z.succ. rewrite inject_Z_plus.
      reflexivity. }
    rewrite E1. field. lra.
Qed.

(** X5.  What resampling computes.  For at least two samples and a
    positive target length [n], sample [j] of the result is the value at
    position [x = j * len / n] of the piecewise linear curve through the
    input samples: on the line through samples [s] and [s + 1], where [s]
    is the integer part of [x], or the last segment when [x] lies beyond
    the last sample (linear extrapolation). *)
Theorem resample_piecewise_linear (values : list Q) (n : Z) (j : nat) :
  (2 <= List.length values)%nat -> (0 < n)%Z -> (j < Z.to_nat n)%nat ->
  exists resampled : list Q,
    dss_loadshape.resample values n = Ok resampled
    /\ List.length resampled = Z.to_nat n
    /\ let x := QN j * (QN (List.length values) / inject_Z n) in
       let s := Nat.min (Z.to_nat (Qfloor x)) (List.length values - 2) in
       nth j resampled 0
       == nth s values 0 + (x - QN s) * (nth (S s) values 0 - nth s values 0).
Proof.
  intros HL Hn Hj.
  rewrite resample_unfold by (try exact HL; lia).
  eexists. split; [reflexivity|].
  split; [now rewrite length_map, length_seq|].
  intros x s. rewrite nth_map_seq by exact Hj.
  assert (Hn' : 0 < inject_Z n) by (unfold Qlt; simpl; lia).
  assert (HLq : 0 < QN (List.length values)).
  { change 0 with (QN 0). apply QN_lt. lia. }
  assert (Hjq : 0 <= QN j) by (change 0 with (QN 0); apply QN_le; lia).
  assert (Hjn : QN j < inject_Z n).
  { rewrite <- Zlt_Qlt. lia. }
  assert (Hx0 : 0 <= x).
  { subst x. apply Qmult_le_0_compat; [exact Hjq|].
    apply Qle_shift_div_l; [exact Hn' | lra]. }
  assert (HxL : x < QN (List.length values)).
  { subst x.
    assert (E : QN j * (QN (List.length values) / inject_Z n)
                == QN (List.length values) * (QN j / inject_Z n))
      by (field; lra).
    rewrite E.
    assert (Hr : QN j / inject_Z n < 1)
      by (apply Qlt_shift_div_r; [exact Hn' | lra]).
    nra. }
  assert (Ex : 0 + QN j * (QN (List.length values) / inject_Z n) == x)
    by (subst x; ring).
  pose proof (interp1d_eval_segment values x HL Hx0 HxL) as Hseg.
  cbv zeta in Hseg. fold s in Hseg. rewrite <- Hseg.
  unfold interp1d_eval. rewrite !searchsorted_arange_int_any.
  rewrite (Qceiling_comp _ _ Ex). rewrite Ex. reflexivity.
Qed.

Lemma resample_piecewise_linear_witness :
  (2 <= List.length [3; 1; 2; 5]%Q)%nat /\ (0 < 8)%Z /\ (7 < Z.to_nat 8)%nat
  /\ exists resampled : list Q,
       dss_loadshape.resample [3; 1; 2; 5] 8 = Ok resampled
       /\ nth 7 resampled 0 == 13 # 2.
Proof.
  assert (HL : (2 <= List.length [3; 1; 2; 5]%Q)%nat) by (simpl; lia).
  assert (Hn : (0 < 8)%Z) by lia.
  assert (Hj : (7 < Z.to_nat 8)%nat) by (simpl; lia).
  split; [exact HL|]. split; [exact Hn|]. split; [exact Hj|].
  destruct (resample_piecewise_linear [3; 1; 2; 5] 8 7 HL Hn Hj)
    as (r & E & _ & Hv).
  exists r. split; [exact E|].
  rewrite Hv. vm_compute. reflexivity.
Defined.

(** ** Scaling: algebra *)

Ltac interp_tests :=
  unfold np_interp1;
  repeat match goal with
         | |- context [Qlt_bool ?a ?b] =>
             let E := fresh "E" in
             destruct (Qlt_bool a b) eqn:E;
             [apply Qlt_bool_iff in E | apply Qlt_bool_false_iff in E]
         | |- context [Qle_bool ?a ?b] =>
             let E := fresh "E" in
             destruct (Qle_bool a b) eqn:E;
             [apply Qle_bool_iff in E | apply Qle_bool_false_iff in E]
         | |- context [Qeq_bool ?a ?b] =>
             let E := fresh "E" in
             destruct (Qeq_bool a b) eqn:E;
             [apply Qeq_bool_iff in E | apply Qeq_bool_neq in E]
         end.

Lemma np_interp1_compat (lo lo' hi hi' x x' : Q) :
  lo == lo' -> hi == hi' -> x == x' ->
  np_interp1 lo hi 0 1 x == np_interp1 lo' hi' 0 1 x'.
Proof.
  intros Hlo Hhi Hx. interp_tests; try reflexivity; try lra.
  rewrite Hlo, Hhi, Hx. reflexivity.
Qed.

(** Scaling sees only the shape of a series: a change of unit and offset
    of all samples leaves each scaled sample where it is. *)
Lemma np_interp1_affine (a b lo hi x : Q) :
  0 < a ->
  np_interp1 (a * lo + b) (a * hi + b) 0 1 (a * x + b)
  == np_interp1 lo hi 0 1 x.
Proof.
  intros Ha. interp_tests; try reflexivity; try nra.
  all: try (exfalso; match goal with H : ~ _ == _ |- _ => apply H; nra end).
  field. split; nra.
Qed.

Lemma np_interp1_unit (x : Q) :
  0 <= x -> x <= 1 -> np_interp1 0 1 0 1 x == x.
Proof.
  intros H0 H1. interp_tests; try lra. field.
Qed.

Lemma Forall2_Qeq_constant (s s' : list Q) (c : Q) :
  List.length s = List.length s' ->
  Forall (fun x => x = c) s -> Forall (fun x => x = c) s' ->
  Forall2 Qeq s s'.
Proof.
  revert s'. induction s as [|x s IH]; intros [|x' s'] Hlen Hs Hs';
    simpl in Hlen; try discriminate; constructor.
  - inversion Hs; inversion Hs'; subst. reflexivity.
  - apply IH; [lia | now inversion Hs | now inversion Hs'].
Qed.

(** X6.  Scaling is idempotent: scaling the samples of a load shape again
    returns the same samples. *)
Theorem normalize_idempotent (v scaled : list Q) :
  dss_loadshape.normalize v = Ok scaled ->
  exists scaled' : list Q,
    dss_loadshape.normalize scaled = Ok scaled'
    /\ Forall2 Qeq scaled' scaled.
Proof.
  intros E.
  destruct (normalize_range _ _ E) as (Hne & Hlen & Hall & H1).
  assert (Hne' : scaled <> []) by (intros ->; contradiction).
  (* either the two extremes differ and 0 is a scaled sample, or every
     scaled sample is 1 *)
  assert (Hcase : In 0 scaled \/ Forall (fun s => s = 1) scaled).
  { destruct (Qmin_list_spec v Hne) as (lo & Elo & Hlo_in & Hlo).
    destruct (Qmax_list_spec v Hne) as (hi & Ehi & Hhi_in & Hhi).
    rewrite (normalize_eq v lo hi Elo Ehi) in E. injection E as <-.
    destruct (Qlt_le_dec lo hi) as [Hlt|Hge].
    - left. unfold np_interp. apply in_map_iff. exists lo.
      split; [apply np_interp1_at_min; [exact Hlt | reflexivity] | exact Hlo_in].
    - right. unfold np_interp. apply Forall_map. apply Forall_forall.
      intros s Hs. apply np_interp1_at_max; [apply Hlo; exact Hs|].
      eapply Qle_trans; [exact Hge | apply Hlo; exact Hs]. }
  destruct Hcase as [H0|Hones].
  - destruct (Qmin_list_spec scaled Hne') as (lo' & Elo' & Hlo_in' & Hlo').
    destruct (Qmax_list_spec scaled Hne') as (hi' & Ehi' & Hhi_in' & Hhi').
    rewrite Forall_forall in Hall.
    assert (El : lo' == 0).
    { apply Qle_antisym; [apply Hlo'; exact H0 | apply Hall; exact Hlo_in']. }
    assert (Eh : hi' == 1).
    { apply Qle_antisym; [apply Hall; exact Hhi_in' | apply Hhi'; exact H1]. }
    exists (np_interp scaled lo' hi' 0 1).
    split; [apply normalize_eq; assumption|].
    unfold np_interp. rewrite <- (map_id scaled) at 2.
    apply Forall2_map_pointwise. intros s Hs.
    rewrite (np_interp1_compat lo' 0 hi' 1 s s El Eh (Qeq_refl s)).
    apply np_interp1_unit; apply Hall; exact Hs.
  - assert (Hc : constant_series 1 scaled).
    { split; [exact Hne'|]. eapply Forall_impl; [|exact Hones].
      intros s ->. reflexivity. }
    destruct (normalize_constant _ _ Hc) as (scaled' & En & Hl & Hones').
    exists scaled'. split; [exact En|].
    apply Forall2_Qeq_constant with (c := 1); auto.
Qed.

Lemma normalize_idempotent_witness :
  exists scaled scaled' : list Q,
    dss_loadshape.normalize [3; 1; 2; 5] = Ok scaled
    /\ dss_loadshape.normalize scaled = Ok scaled'
    /\ Forall2 Qeq scaled' scaled.
Proof.
  assert (E : dss_loadshape.normalize [3; 1; 2; 5] = Ok [2 # 4; 0; 1 # 4; 1])
    by (vm_compute; reflexivity).
  destruct (normalize_idempotent _ _ E) as (scaled' & E' & HF).
  exists [2 # 4; 0; 1 # 4; 1], scaled'. auto.
Defined.

(** X7.  The scaled samples do not depend on the unit or the offset of the
    series: for [a > 0], scaling [a * x + b] sample by sample gives the
    same load shape as scaling [x]. *)
Theorem normalize_affine_invariant (v : list Q) (a b : Q) :
  0 < a -> v <> [] ->
  exists scaled scaled' : list Q,
    dss_loadshape.normalize (map (fun x => a * x + b) v) = Ok scaled
    /\ dss_loadshape.normalize v = Ok scaled'
    /\ Forall2 Qeq scaled scaled'.
Proof.
  intros Ha Hne.
  set (f := fun x => a * x + b).
  assert (Hne_f : map f v <> []) by (destruct v; [congruence | discriminate]).
  destruct (Qmin_list_spec v Hne) as (lo & Elo & Hlo_in & Hlo).
  destruct (Qmax_list_spec v Hne) as (hi & Ehi & Hhi_in & Hhi).
  destruct (Qmin_list_spec _ Hne_f) as (lo_f & Elo_f & Hlo_in_f & Hlo_f).
  destruct (Qmax_list_spec _ Hne_f) as (hi_f & Ehi_f & Hhi_in_f & Hhi_f).
  assert (El : lo_f == f lo).
  { apply in_map_iff in Hlo_in_f. destruct Hlo_in_f as (x0 & <- & Hx0).
    pose proof (Hlo x0 Hx0).
    pose proof (Hlo_f (f lo) (in_map f v lo Hlo_in)).
    subst f. cbn beta in *. nra. }
  assert (Eh : hi_f == f hi).
  { apply in_map_iff in Hhi_in_f. destruct Hhi_in_f as (x0 & <- & Hx0).
    pose proof (Hhi x0 Hx0).
    pose proof (Hhi_f (f hi) (in_map f v hi Hhi_in)).
    subst f. cbn beta in *. nra. }
  exists (np_interp (map f v) lo_f hi_f 0 1), (np_interp v lo hi 0 1).
  split; [apply normalize_eq; assumption|].
  split; [apply normalize_eq; assumption|].
  unfold np_interp. rewrite map_map.
  apply Forall2_map_pointwise. intros x Hx.
  rewrite (np_interp1_compat lo_f (f lo) hi_f (f hi) (f x) (f x) El Eh
             (Qeq_refl _)).
  subst f. cbn beta. apply np_interp1_affine. exact Ha.
Qed.

Lemma normalize_affine_invariant_witness :
  0 < 2 /\ [3; 1; 2; 5] <> []
  /\ exists scaled scaled' : list Q,
       dss_loadshape.normalize (map (fun x => 2 * x + 10) [3; 1; 2; 5])
         = Ok scaled
       /\ dss_loadshape.normalize [3; 1; 2; 5] = Ok scaled'
       /\ Forall2 Qeq scaled scaled'.
Proof.
  assert (Ha : 0 < 2) by reflexivity.
  assert (Hne : [3; 1; 2; 5] <> []) by discriminate.
  split; [exact Ha|]. split; [exact Hne|].
  exact (normalize_affine_invariant [3; 1; 2; 5] 2 10 Ha Hne).
Defined.

(** ** Connections, phases and loads read from the engine *)




Lemma set_eqb_spec (s t : list Z) :
  dss_phase.set_eqb s t = true <-> same_terminals s t.
Proof.
  unfold dss_phase.set_eqb, same_terminals.
  rewrite andb_true_iff, !forallb_forall. split.
  - intros [H1 H2] z. split; intros Hz.
    + apply H1 in Hz. apply existsb_exists in Hz.
      destruct Hz as (y & Hy & E). apply Z.eqb_eq in E. now subst.
    + apply H2 in Hz. apply existsb_exists in Hz.
      destruct Hz as (y & Hy & E). apply Z.eqb_eq in E. now subst.
  - intros H. split; intros z Hz; apply existsb_exists; exists z;
      (split; [now apply H | apply Z.eqb_refl]).
Qed.

Lemma set_eqb_congr (v t t' : list Z) :
  same_terminals t t' -> dss_phase.set_eqb v t' = dss_phase.set_eqb v t.
Proof.
  intros H. apply Bool.eq_true_iff_eq. rewrite !set_eqb_spec.
  unfold same_terminals in *. split; intros Hv z.
  - rewrite Hv. symmetry. apply H.
  - rewrite Hv. apply H.
Qed.

(** The sets of [phase_mapping] are pairwise different, so the first
    matching position is the only one. *)
Lemma phase_lookup (terminals : list Z) (p : dss_phase.Phase) (ts : list Z) :
  In (p, ts) dss_phase.phase_mapping ->
  same_terminals ts terminals ->
  exists i : nat,
    dss_phase.index_of_set (map snd dss_phase.phase_mapping) terminals = Ok i
    /\ nth_error (map fst dss_phase.phase_mapping) i = Some p.
Proof.
  intros Hin Hsame. unfold dss_phase.phase_mapping in *.
  cbn [map snd fst dss_phase.index_of_set].
  rewrite !(set_eqb_congr _ _ _ Hsame).
  cbn [In] in Hin.
  repeat (destruct Hin as [E|Hin]; [injection E as <- <-; eexists; split;
                                    [vm_compute; reflexivity | reflexivity]|]).
  contradiction.
Qed.

Lemma phase_lookup_none (terminals : list Z) :
  (forall p ts, In (p, ts) dss_phase.phase_mapping ->
                ~ same_terminals ts terminals) ->
  dss_phase.index_of_set (map snd dss_phase.phase_mapping) terminals
  = Raise ValueError.
Proof.
  intros H.
  assert (Hf : forall p ts, In (p, ts) dss_phase.phase_mapping ->
                            dss_phase.set_eqb ts terminals = false).
  { intros p ts Hin. apply Bool.not_true_is_false. rewrite set_eqb_spec.
    exact (H p ts Hin). }
  unfold dss_phase.phase_mapping in *.
  cbn [map snd dss_phase.index_of_set].
  rewrite (Hf dss_phase.A), (Hf dss_phase.B), (Hf dss_phase.C),
    (Hf dss_phase.AB), (Hf dss_phase.AC), (Hf dss_phase.BC);
    cbn [In]; auto 10.
Qed.

Lemma object_name_to_phase_unfold (int : IntParser) (dss : Engine)
    (name : dss_name.Name) (phase_count : Z) (terminals : list Z) :
  int (phases_answer dss name) = Ok phase_count ->
  phase_count <> 3%Z ->
  map_result int (terminal_texts dss name) = Ok terminals ->
  dss_phase.object_name_to_phase int dss name
  = bind (dss_phase.index_of_set (map snd dss_phase.phase_mapping) terminals)
      (fun index =>
         match nth_error (map fst dss_phase.phase_mapping) index with
         | Some phase => Ok phase
         | None => Raise IndexError
         end).
Proof.
  intros Ep Hp Et.
  unfold dss_phase.object_name_to_phase, dss_command.run.
  unfold phases_answer in Ep. rewrite Ep. cbn [bind].
  destruct (Z.eqb_spec phase_count 3) as [E3|_]; [contradiction|].
  unfold str_split. cbn [String.eqb Ascii.eqb]. cbn [bind].
  unfold terminal_texts, bus1_answer in Et. rewrite Et. reflexivity.
Qed.

(** X9.  Below three phases the phase of an object is decided by the set
    of terminals that follow the bus name in [bus1]: the order of the
    terminals and repetitions do not matter.  A set that is none of the six
    of the table (no terminal at all, a neutral, all three terminals)
    raises [ValueError]. *)
Theorem phase_decided_by_terminal_set (int : IntParser) (dss : Engine)
    (name : dss_name.Name) (phase_count : Z) (terminals : list Z) :
  int (phases_answer dss name) = Ok phase_count ->
  phase_count <> 3%Z ->
  map_result int (terminal_texts dss name) = Ok terminals ->
  (forall (p : dss_phase.Phase) (ts : list Z),
     In (p, ts) dss_phase.phase_mapping ->
     same_terminals ts terminals ->
     dss_phase.object_name_to_phase int dss name = Ok p)
  /\ ((forall (p : dss_phase.Phase) (ts : list Z),
         In (p, ts) dss_phase.phase_mapping ->
         ~ same_terminals ts terminals) ->
      dss_phase.object_name_to_phase int dss name = Raise ValueError).
Proof.
  intros Ep Hp Et.
  rewrite (object_name_to_phase_unfold int dss name phase_count terminals
             Ep Hp Et).
  split.
  - intros p ts Hin Hsame.
    destruct (phase_lookup terminals p ts Hin Hsame) as (i & Ei & En).
    rewrite Ei. cbn [bind]. rewrite En. reflexivity.
  - intros Hnone. rewrite (phase_lookup_none terminals Hnone). reflexivity.
Qed.

Lemma phase_decided_by_terminal_set_witness :
  dss_phase.object_name_to_phase decimal_int
    (table_engine (load_answers "a" "delta" "1" "bus7.2.1" "0.24"))
    {| dss_name.class_ := "load"; dss_name.element := "a" |}
  = Ok dss_phase.AB
  /\ dss_phase.object_name_to_phase decimal_int
       (table_engine (load_answers "b" "wye" "1" "bus7" "0.24"))
       {| dss_name.class_ := "load"; dss_name.element := "b" |}
     = Raise ValueError.
Proof.
  split.
  - apply (proj1 (phase_decided_by_terminal_set decimal_int
                    (table_engine (load_answers "a" "delta" "1" "bus7.2.1" "0.24"))
                    {| dss_name.class_ := "load"; dss_name.element := "a" |}
                    1%Z [2; 1]%Z eq_refl ltac:(discriminate) eq_refl)
             dss_phase.AB [1; 2]%Z).
    + cbn. auto.
    + intros z. cbn. tauto.
  - apply (proj2 (phase_decided_by_terminal_set decimal_int
                    (table_engine (load_answers "b" "wye" "1" "bus7" "0.24"))
                    {| dss_name.class_ := "load"; dss_name.element := "b" |}
                    1%Z [] eq_refl ltac:(discriminate) eq_refl)).
    intros p ts Hin Hsame. cbn in Hin.
    repeat (destruct Hin as [E|Hin];
            [injection E as <- <-;
             match goal with
             | H : same_terminals (?z :: _) [] |- _ =>
                 apply (proj1 (H z)); left; reflexivity
             end|]).
    contradiction.
Defined.

(** The phase found below three phases is one of the table, never [ABC]. *)
Lemma object_name_to_phase_three (int : IntParser) (dss : Engine)
    (name : dss_name.Name) (phase_count : Z) (p : dss_phase.Phase) :
  int (phases_answer dss name) = Ok phase_count ->
  dss_phase.object_name_to_phase int dss name = Ok p ->
  (phase_count = 3%Z <-> p = dss_phase.ABC).
Proof.
  intros Ep E. unfold dss_phase.object_name_to_phase, dss_command.run in E.
  unfold phases_answer in Ep. rewrite Ep in E. cbn [bind] in E.
  destruct (Z.eqb_spec phase_count 3) as [E3|N3].
  - injection E as <-. tauto.
  - split; [contradiction|]. intros ->. exfalso.
    destruct (str_split _ _) as [substrings|e]; [|discriminate].
    cbn [bind] in E.
    destruct (map_result int (tl substrings)) as [terminals|e]; [|discriminate].
    cbn [bind] in E.
    destruct (dss_phase.index_of_set _ terminals) as [i|e]; [|discriminate].
    cbn [bind] in E. unfold dss_phase.phase_mapping in E.
    cbn [map fst] in E.
    do 6 (destruct i as [|i]; [discriminate|]).
    destruct i; discriminate.
Qed.

(** X10.  A load the initializer returns is named [load.<name>]; its
    connection and phase count are the engine's answers; and its phase, its
    phase count and its meter count agree: three phases, phase [ABC] and
    three meters go together, every other load has one or two meters. *)
Theorem load_init_consistent (int : IntParser) (dss : Engine) (name : string)
    (load : dss_load.Load) :
  dss_load.__init__ int dss name = Ok load ->
  dss_load.name load
  = {| dss_name.class_ := "load"; dss_name.element := name |}
  /\ dss_connection.string_to_connection (conn_answer dss (dss_load.name load))
     = Ok (dss_load.connection load)
  /\ int (phases_answer dss (dss_load.name load))
     = Ok (dss_load.phase_count load)
  /\ (dss_load.phase_count load = 3%Z <-> dss_load.phase load = dss_phase.ABC)
  /\ (dss_load.phase load = dss_phase.ABC <-> dss_load.meter_count load = 3%nat)
  /\ (1 <= dss_load.meter_count load <= 3)%nat.
Proof.
  unfold dss_load.__init__, dss_command.run.
  set (load_name := {| dss_name.class_ := "load"; dss_name.element := name |}).
  destruct (dss_connection.string_to_connection _) as [c|e] eqn:Ec;
    [|discriminate].
  cbn [bind].
  destruct (dss_phase.object_name_to_phase int dss load_name) as [p|e] eqn:Eph;
    [|discriminate].
  cbn [bind].
  destruct (int _) as [pc|e] eqn:Epc; [|discriminate].
  cbn [bind]. intros E. injection E as <-.
  cbn [dss_load.name dss_load.connection dss_load.phase dss_load.phase_count
         dss_load.meter_count].
  split; [reflexivity|]. split; [exact Ec|]. split; [exact Epc|].
  split; [exact (object_name_to_phase_three int dss load_name pc p Epc Eph)|].
  split; [|destruct p; cbn; lia].
  destruct p; cbn; split; intros H; try discriminate; reflexivity.
Qed.

Lemma load_init_consistent_witness :
  exists load : dss_load.Load,
    dss_load.__init__ decimal_int
      (table_engine (load_answers "a" "Delta" "1" "bus7.2.1" "0.24")) "a"
    = Ok load
    /\ dss_load.phase load = dss_phase.AB
    /\ dss_load.phase_count load = 1%Z
    /\ (1 <= dss_load.meter_count load <= 3)%nat.
Proof.
  eexists. split; [vm_compute; reflexivity|].
  split; [reflexivity|]. split; [reflexivity|].
  apply (load_init_consistent decimal_int
           (table_engine (load_answers "a" "Delta" "1" "bus7.2.1" "0.24")) "a").
  vm_compute. reflexivity.
Defined.

(** ** Monitor names *)

(** The decimal numeral of an integer reads back as that integer. *)
Lemma py_str_int_parse (n : Z) :
  NilZero.int_of_string (py_str_int n) = Some (Z.to_int n).
Proof.
  unfold py_str_int. apply NilZero.isi.
  - destruct n; cbn; try discriminate.
    intros E. injection E as E. exact (Unsigned.to_uint_nonnil _ E).
  - destruct n; cbn; try discriminate.
    intros E. injection E as E. exact (Unsigned.to_uint_nonnil _ E).
Qed.

Lemma py_str_int_inj (n n' : Z) : py_str_int n = py_str_int n' -> n = n'.
Proof.
  intros E. apply DecimalZ.to_int_inj.
  pose proof (py_str_int_parse n) as H. rewrite E, py_str_int_parse in H.
  now injection H.
Qed.

Lemma string_of_uint_chars (c : ascii) (d : Decimal.uint) :
  string_mem c (NilEmpty.string_of_uint d) = true ->
  string_mem c "0123456789" = true.
Proof.
  induction d; cbn [NilEmpty.string_of_uint string_mem]; intros H;
    try discriminate;
    apply orb_true_iff in H; destruct H as [H|H]; auto;
    apply Ascii.eqb_eq in H; subst c; reflexivity.
Qed.

(** A decimal numeral holds digits and at most a minus sign. *)
Lemma py_str_int_chars (c : ascii) (n : Z) :
  string_mem c (py_str_int n) = true -> string_mem c "-0123456789" = true.
Proof.
  assert (Hu : forall d, string_mem c (NilZero.string_of_uint d) = true ->
                         string_mem c "0123456789" = true).
  { intros d. unfold NilZero.string_of_uint.
    destruct d; try apply string_of_uint_chars.
    cbn [string_mem]. intros H. rewrite orb_false_r in H.
    apply Ascii.eqb_eq in H. subst c. reflexivity. }
  unfold py_str_int, NilZero.string_of_int.
  change (string_mem c "-0123456789")
    with (Ascii.eqb "-" c || string_mem c "0123456789")%bool.
  destruct (Z.to_int n) as [d|d].
  - intros H. apply Hu in H. rewrite H. apply orb_true_r.
  - change (string_mem c (String "-" (NilZero.string_of_uint d)))
      with (Ascii.eqb "-" c || string_mem c (NilZero.string_of_uint d))%bool.
    intros H. apply orb_true_iff in H. destruct H as [H|H].
    + rewrite H. reflexivity.
    + apply Hu in H. rewrite H. apply orb_true_r.
Qed.

(** Two texts that agree from a first occurrence of [c] on: when [c] does
    not occur before it, the parts before and after agree. *)
Lemma str_app_inv_marker (c : ascii) (a a' r r' : string) :
  string_mem c a = false -> string_mem c a' = false ->
  (a ++ String c r = a' ++ String c r')%string ->
  a = a' /\ r = r'.
Proof.
  revert a'. induction a as [|x a IH]; intros [|x' a'] Ha Ha' E;
    cbn [String.append string_mem] in *.
  - injection E as ->. auto.
  - injection E as -> _. rewrite Ascii.eqb_refl in Ha'. discriminate.
  - injection E as -> _. rewrite Ascii.eqb_refl in Ha. discriminate.
  - injection E as -> E.
    apply orb_false_iff in Ha. apply orb_false_iff in Ha'.
    destruct (IH a' (proj2 Ha) (proj2 Ha') E) as [-> ->]. auto.
Qed.

Lemma string_mem_app (c : ascii) (a b : string) :
  string_mem c (a ++ b) = (string_mem c a || string_mem c b)%bool.
Proof.
  induction a as [|x a IH]; [reflexivity|].
  cbn [String.append string_mem]. rewrite IH. apply orb_assoc.
Qed.

(** X11.  The name of a monitor tells its mode and its terminal: two
    monitors of the same object have the same name only when both agree.
    (The primary and the secondary monitor of a transformer differ in the
    terminal alone.) *)
Theorem monitor_name_tells_mode_and_terminal (target_object : dss_name.Name)
    (mode terminal mode' terminal' : Z) :
  dss_monitor.make_name target_object mode terminal
  = dss_monitor.make_name target_object mode' terminal' ->
  mode = mode' /\ terminal = terminal'.
Proof.
  unfold dss_monitor.make_name. intros E. injection E as E.
  cbn [str_join] in E.
  apply str_app_inv_head in E.
  injection E as E.
  assert (Hno : forall n, string_mem "t" (py_str_int n ++ "-") = false).
  { intros n. rewrite string_mem_app. cbn.
    destruct (string_mem "t" (py_str_int n)) eqn:Et; [|reflexivity].
    apply py_str_int_chars in Et. discriminate. }
  assert (E' : ((py_str_int mode ++ "-")
                  ++ String "t" ("erminal_" ++ py_str_int terminal)
                = (py_str_int mode' ++ "-")
                    ++ String "t" ("erminal_" ++ py_str_int terminal'))%string).
  { rewrite !str_app_assoc. exact E. }
  destruct (str_app_inv_marker "t" _ _ _ _ (Hno mode) (Hno mode') E')
    as [Em Et].
  injection Et as Et.
  apply str_app_inj_tail in Em; [|reflexivity].
  split; apply py_str_int_inj; tauto.
Qed.

Lemma monitor_name_tells_mode_and_terminal_witness :
  dss_monitor.make_name
    {| dss_name.class_ := "transformer"; dss_name.element := "MDV_SUB_1" |} 0 1
  <> dss_monitor.make_name
       {| dss_name.class_ := "transformer"; dss_name.element := "MDV_SUB_1" |} 0 2.
Proof.
  intros E.
  destruct (monitor_name_tells_mode_and_terminal _ 0 1 0 2 E) as [_ H].
  discriminate H.
Defined.

(** ** Monitor read-outs *)

Lemma assign_column_ok (n_row : nat) (values column : list Q) :
  dss_monitor.assign_column n_row values = Ok column ->
  List.length column = n_row
  /\ (List.length values = n_row -> column = values).
Proof.
  unfold dss_monitor.assign_column.
  destruct (Nat.eqb_spec (List.length values) n_row) as [E|N].
  - intros H. injection H as <-. auto.
  - destruct values as [|x [|y values]]; try discriminate.
    intros H. injection H as <-. split; [apply repeat_length|].
    intros E. contradiction.
Qed.

Lemma assign_column_cases (n_row : nat) (values : list Q) :
  (fits_column n_row values
   /\ exists column, dss_monitor.assign_column n_row values = Ok column)
  \/ (~ fits_column n_row values
      /\ dss_monitor.assign_column n_row values = Raise ValueError).
Proof.
  unfold dss_monitor.assign_column, fits_column.
  destruct (Nat.eqb_spec (List.length values) n_row) as [E|N].
  - left. split; [now left | eauto].
  - destruct values as [|x [|y values]].
    + right. split; [|reflexivity]. cbn in *. intros [H|H]; [auto | discriminate].
    + left. split; [now right | eauto].
    + right. split; [|reflexivity]. cbn in *. intros [H|H]; [auto | discriminate].
Qed.

Lemma map_result_ok {A B : Type} (f : A -> result B) (xs : list A)
    (ys : list B) :
  map_result f xs = Ok ys ->
  List.length ys = List.length xs
  /\ forall (k : nat) (x : A),
       nth_error xs k = Some x ->
       exists y, nth_error ys k = Some y /\ f x = Ok y.
Proof.
  revert ys. induction xs as [|x xs IH]; intros ys E; cbn [map_result] in E.
  - injection E as <-. split; [reflexivity|]. intros [|k] x H; discriminate.
  - destruct (f x) as [y|e] eqn:Ef; [|discriminate]. cbn [bind] in E.
    destruct (map_result f xs) as [ys'|e]; [|discriminate]. cbn [bind] in E.
    injection E as <-. destruct (IH ys' eq_refl) as [Hl Hn].
    split; [cbn; now rewrite Hl|].
    intros [|k] x' H; cbn in H.
    + injection H as <-. exists y. auto.
    + exact (Hn k x' H).
Qed.

Lemma map_result_cases {A B : Type} (f : A -> result B) (xs : list A) :
  (Forall (fun x => exists y, f x = Ok y) xs
   /\ exists ys, map_result f xs = Ok ys)
  \/ exists x e, In x xs /\ f x = Raise e /\ map_result f xs = Raise e.
Proof.
  induction xs as [|x xs IH]; cbn [map_result].
  - left. split; [constructor | eauto].
  - destruct (f x) as [y|e] eqn:Ef; cbn [bind].
    + destruct IH as [[HF [ys Eys]]|(x' & e & Hin & Ex & Er)].
      * left. rewrite Eys. cbn [bind]. split; [|eauto].
        constructor; eauto.
      * right. exists x', e. rewrite Er. cbn [bind In]. auto.
    + right. exists x, e. cbn [In]. auto.
Qed.

Lemma str_remove_absent (c : ascii) (s : string) :
  string_mem c (str_remove c s) = false.
Proof.
  induction s as [|x s IH]; [reflexivity|].
  cbn [str_remove]. destruct (Ascii.eqb x c) eqn:Ex; [exact IH|].
  cbn [string_mem]. now rewrite Ex, IH.
Qed.

(** X12.  A read-out is made exactly when the hours and every recorded
    channel have one value per sample (or a single value, which numpy
    repeats); otherwise the assignment to the column raises [ValueError].
    The read-out has one row per sample and one column more than there are
    channels, the first name is ["hours"], and no name holds a space. *)
Theorem make_data_returns_iff_columns_fit
    (i_monitors : dss_monitor.MonitorsInterface) (name : dss_name.Name) :
  ((exists md, dss_monitor.make_data_of i_monitors name = Ok md)
   <-> (fits_column (dss_monitor.SampleCount i_monitors)
          (dss_monitor.dblHour i_monitors)
        /\ forall index : nat,
             In index (seq 1 (dss_monitor.NumChannels i_monitors)) ->
             fits_column (dss_monitor.SampleCount i_monitors)
               (dss_monitor.Channel i_monitors index)))
  /\ (forall e, dss_monitor.make_data_of i_monitors name = Raise e ->
                e = ValueError)
  /\ (forall md, dss_monitor.make_data_of i_monitors name = Ok md ->
        shape0 (dss_monitor.data md) = dss_monitor.SampleCount i_monitors
        /\ shape1 (dss_monitor.data md)
           = S (dss_monitor.NumChannels i_monitors)
        /\ dss_monitor.monitor_name md = name
        /\ dss_monitor.channel_names md
           = names_of_header (dss_monitor.Header i_monitors)
        /\ nth_error (dss_monitor.channel_names md) 0 = Some "hours"%string
        /\ Forall (fun n => string_mem " " n = false)
                  (dss_monitor.channel_names md)).
Proof.
  unfold dss_monitor.make_data_of.
  destruct (assign_column_cases (dss_monitor.SampleCount i_monitors)
              (dss_monitor.dblHour i_monitors))
    as [[Hfit [column0 E0]]|[Hnfit E0]]; rewrite E0; cbn [bind].
  2:{ split; [|split].
      - split; [intros [md H]; discriminate | intros [H _]; contradiction].
      - intros e H. now injection H as <-.
      - intros md H. discriminate. }
  destruct (map_result_cases
              (fun index => dss_monitor.assign_column
                              (dss_monitor.SampleCount i_monitors)
                              (dss_monitor.Channel i_monitors index))
              (seq 1 (dss_monitor.NumChannels i_monitors)))
    as [[HF [columns Ec]]|(index & e & Hin & Ex & Er)].
  - rewrite Ec. cbn [bind]. split; [|split].
    + split; [|eauto]. intros _. split; [exact Hfit|].
      intros index Hin. rewrite Forall_forall in HF.
      destruct (HF index Hin) as [c Eci].
      destruct (assign_column_cases (dss_monitor.SampleCount i_monitors)
                  (dss_monitor.Channel i_monitors index))
        as [[H _]|[_ H]]; [exact H | congruence].
    + intros e H. discriminate.
    + intros md H. injection H as <-.
      cbn [dss_monitor.data dss_monitor.channel_names dss_monitor.monitor_name
             shape0 shape1].
      split; [reflexivity|]. split; [apply Nat.add_1_r|].
      split; [reflexivity|]. split; [reflexivity|]. split; [reflexivity|].
      constructor; [reflexivity|].
      apply Forall_map. apply Forall_forall. intros n _.
      apply str_remove_absent.
  - rewrite Er. cbn [bind].
    destruct (assign_column_cases (dss_monitor.SampleCount i_monitors)
                (dss_monitor.Channel i_monitors index))
      as [[_ [c H]]|[Hnfit H]]; [congruence|].
    split; [|split].
    + split; [intros [md Hmd]; discriminate|].
      intros [_ Hall]. exfalso. exact (Hnfit (Hall index Hin)).
    + intros e' He. injection He as <-. congruence.
    + intros md Hmd. discriminate.
Qed.

Lemma list_index_first (xs : list string) :
  forall (i : nat) (x : string),
    nth_error xs i = Some x ->
    (forall j y, (j < i)%nat -> nth_error xs j = Some y -> y <> x) ->
    list_index xs x = Ok i.
Proof.
  induction xs as [|y xs IH]; intros [|i] x Hn Hfirst; try discriminate;
    cbn [list_index nth_error] in *.
  - injection Hn as ->. now rewrite String.eqb_refl.
  - destruct (String.eqb_spec y x) as [E|N].
    + exfalso. apply (Hfirst 0%nat y); [lia | reflexivity | exact E].
    + rewrite (IH i x Hn); [reflexivity|].
      intros j z Hj Hz. apply (Hfirst (S j) z); [lia | exact Hz].
Qed.

(** X13.  The names and the columns of a read-out line up: the samples
    found under a header name (spaces removed, first occurrence) are the
    recording of the channel at that header position, counted from 1 as the
    interface counts; the hours column in front shifts both alike. *)
Theorem make_data_columns_follow_header
    (i_monitors : dss_monitor.MonitorsInterface) (name : dss_name.Name)
    (md : dss_monitor.MonitorData) (k : nat) (header_name : string) :
  dss_monitor.make_data_of i_monitors name = Ok md ->
  nth_error (dss_monitor.Header i_monitors) k = Some header_name ->
  (k < dss_monitor.NumChannels i_monitors)%nat ->
  (forall k' h', (k' < k)%nat ->
                 nth_error (dss_monitor.Header i_monitors) k' = Some h' ->
                 str_remove " " h' <> str_remove " " header_name) ->
  str_remove " " header_name <> "hours"%string ->
  List.length (dss_monitor.Channel i_monitors (S k))
  = dss_monitor.SampleCount i_monitors ->
  list_index (dss_monitor.channel_names md) (str_remove " " header_name)
  = Ok (S k)
  /\ get_column (dss_monitor.data md) (S k)
     = Ok (dss_monitor.Channel i_monitors (S k))
  /\ channel_column md (str_remove " " header_name)
     = dss_monitor.Channel i_monitors (S k).
Proof.
  intros E Hk Hlt Hfirst Hhours Hlen.
  unfold dss_monitor.make_data_of in E.
  destruct (dss_monitor.assign_column _ (dss_monitor.dblHour i_monitors))
    as [column0|e]; [|discriminate].
  cbn [bind] in E.
  destruct (map_result _ (seq 1 (dss_monitor.NumChannels i_monitors)))
    as [columns|e] eqn:Ec; [|discriminate].
  cbn [bind] in E. injection E as <-.
  destruct (map_result_ok _ _ _ Ec) as [Hcl Hcn].
  destruct (Hcn k (S k)) as (c & Hc & Eass).
  { rewrite nth_error_nth' with (d := 0%nat) by (rewrite length_seq; exact Hlt).
    now rewrite seq_nth by exact Hlt. }
  destruct (assign_column_ok _ _ _ Eass) as [Hclen Hceq].
  specialize (Hceq Hlen). subst c.
  assert (Ei : list_index
                 (map (str_remove " ") ("hours"%string :: dss_monitor.Header i_monitors))
                 (str_remove " " header_name) = Ok (S k)).
  { apply list_index_first.
    - cbn [map nth_error]. now rewrite nth_error_map, Hk.
    - intros [|j] y Hj Hy; cbn [map nth_error] in Hy.
      + injection Hy as <-. intros H. apply Hhours. now rewrite <- H.
      + rewrite nth_error_map in Hy.
        destruct (nth_error (dss_monitor.Header i_monitors) j) as [h'|] eqn:Eh;
          [|discriminate].
        injection Hy as <-. apply (Hfirst j h'); [lia | exact Eh]. }
  assert (Ecol : map (fun i => nth i (nth k columns []) 0)
                     (seq 0 (dss_monitor.SampleCount i_monitors))
                 = dss_monitor.Channel i_monitors (S k)).
  { rewrite (nth_error_nth _ _ [] Hc). rewrite <- Hlen. apply map_nth_seq. }
  split; [exact Ei|]. split.
  - unfold get_column. cbn [dss_monitor.data shape1 shape0].
    destruct (Nat.ltb_spec (S k) (dss_monitor.NumChannels i_monitors + 1))
      as [_|Hge]; [|lia].
    apply f_equal. exact Ecol.
  - unfold channel_column.
    match goal with
    | |- context [list_index ?a ?b] =>
        replace (list_index a b) with (@Ok nat (S k)) by (symmetry; exact Ei)
    end.
    exact Ecol.
Qed.

Lemma make_data_columns_follow_header_witness :
  exists md,
    dss_monitor.make_data_of (example_interface 2)
      {| dss_name.class_ := "monitor"; dss_name.element := "m" |} = Ok md
    /\ channel_column md "V2" = dss_monitor.Channel (example_interface 2) 2.
Proof.
  eexists. split; [reflexivity|].
  apply (make_data_columns_follow_header (example_interface 2)
           {| dss_name.class_ := "monitor"; dss_name.element := "m" |}
           _ 1%nat " V2" eq_refl eq_refl).
  - cbn. lia.
  - intros [|k'] h' Hk' Hh'; [|lia]. injection Hh' as <-. discriminate.
  - discriminate.
  - reflexivity.
Defined.

(** ** Tables: pairing, positions and contents *)

Lemma combine_truncate {A B : Type} (xs : list A) (ys : list B) :
  combine xs ys
  = combine (firstn (Nat.min (List.length xs) (List.length ys)) xs)
            (firstn (Nat.min (List.length xs) (List.length ys)) ys).
Proof.
  rewrite <- combine_firstn, <- length_combine. symmetry. apply firstn_all.
Qed.

(** X14.  The loops pair their arguments with [zip]: entities and monitors
    beyond the shortest list are ignored without any error, in both
    aggregations. *)
Theorem aggregation_ignores_surplus (delimiter : string)
    (loads : list dss_load.Load) (monitors : list dss_monitor.Monitor)
    (monitors_primary monitors_secondary : list dss_monitor.Monitor)
    (transformers : list dss_transformer.Transformer) :
  data_factory.make_load_voltage_magnitude_data delimiter loads monitors
  = data_factory.make_load_voltage_magnitude_data delimiter
      (firstn (Nat.min (List.length loads) (List.length monitors)) loads)
      (firstn (Nat.min (List.length loads) (List.length monitors)) monitors)
  /\ data_factory.make_transformer_voltage_magnitude_data delimiter
       monitors_primary monitors_secondary transformers
     = data_factory.make_transformer_voltage_magnitude_data delimiter
         (firstn (Nat.min (List.length transformers)
                    (Nat.min (List.length monitors_primary)
                             (List.length monitors_secondary)))
                 monitors_primary)
         (firstn (Nat.min (List.length transformers)
                    (Nat.min (List.length monitors_primary)
                             (List.length monitors_secondary)))
                 monitors_secondary)
         (firstn (Nat.min (List.length transformers)
                    (Nat.min (List.length monitors_primary)
                             (List.length monitors_secondary)))
                 transformers).
Proof.
  split.
  - unfold data_factory.make_load_voltage_magnitude_data.
    now rewrite <- combine_truncate.
  - unfold data_factory.make_transformer_voltage_magnitude_data.
    rewrite <- !combine_firstn.
    rewrite <- (length_combine monitors_primary monitors_secondary).
    rewrite <- length_combine. now rewrite firstn_all.
Qed.

Lemma map_nth_error_block {A : Type} (c : list A) :
  forall p r : list A,
    map (nth_error (p ++ c ++ r)) (seq (List.length p) (List.length c))
    = map Some c.
Proof.
  induction c as [|x c IH]; intros p r; [reflexivity|].
  cbn [List.length seq map]. f_equal.
  - rewrite nth_error_app2 by lia. now rewrite Nat.sub_diag.
  - specialize (IH (p ++ [x])%list r).
    rewrite length_app in IH. cbn [List.length] in IH.
    rewrite Nat.add_1_r in IH. rewrite <- IH.
    now rewrite <- app_assoc.
Qed.

Lemma load_entries_length (delimiter : string)
    (item : dss_load.Load * dss_monitor.Monitor) :
  List.length (load_entries delimiter item) = dss_load.meter_count (fst item).
Proof.
  unfold load_entries. rewrite length_map. apply requested_channels_length.
Qed.

(** The index list of a load in the consecutive channel map points at the
    entries that the load and its monitor wrote. *)
Lemma consecutive_indices_entries (delimiter : string)
    (loads : list dss_load.Load) :
  forall (monitors : list dss_monitor.Monitor) (start : nat)
         (prefix : list (string * list Q)),
    List.length prefix = start ->
    NoDup (map load_object loads) ->
    forall (i : nat) (load : dss_load.Load) (monitor : dss_monitor.Monitor)
           (idxs : list nat),
      nth_error loads i = Some load ->
      nth_error monitors i = Some monitor ->
      dict_get (consecutive_channel_map start loads) (load_object load)
        = Some idxs ->
      map (nth_error (prefix ++ flat_map (load_entries delimiter)
                                 (combine loads monitors))) idxs
      = map Some (load_entries delimiter (load, monitor)).
Proof.
  induction loads as [|l loads IH]; intros monitors start prefix Hp Hnd
    i load monitor idxs Hl Hm Hget.
  - destruct i; discriminate.
  - destruct monitors as [|m monitors]; [destruct i; discriminate|].
    cbn [map] in Hnd. inversion Hnd as [|? ? Hnot Hrest]; subst.
    cbn [combine flat_map consecutive_channel_map dict_get] in *.
    destruct i as [|i]; cbn [nth_error] in Hl, Hm.
    + injection Hl as ->. injection Hm as ->.
      unfold load_object in Hget at 1. fold (load_object load) in Hget.
      rewrite String.eqb_refl in Hget. injection Hget as <-.
      pose proof (load_entries_length delimiter (load, monitor)) as HL.
      cbn [fst] in HL. rewrite <- HL.
      apply map_nth_error_block.
    + assert (Hin : In load loads) by (eapply nth_error_In; exact Hl).
      destruct (String.eqb_spec (dss_name.object (dss_load.name l))
                  (load_object load)) as [E|_].
      * exfalso. apply Hnot. unfold load_object at 1. rewrite E.
        apply in_map. exact Hin.
      * rewrite app_assoc.
        apply (IH monitors (List.length prefix + dss_load.meter_count l)%nat
                 (prefix ++ load_entries delimiter (l, m))%list) with (i := i);
          try assumption.
        rewrite length_app. now rewrite load_entries_length.
Qed.

(** X15.  For a single-sided input, the index list of a load points at
    the load's own columns: its [j]-th index is the position of the column
    named by the load and its [j]-th requested channel, and that column
    holds the samples of this channel in the read-out of the load's own
    monitor. *)
Theorem channel_map_points_to_own_columns (delimiter : string)
    (loads : list dss_load.Load) (monitors : list dss_monitor.Monitor)
    (i : nat) (load : dss_load.Load) (monitor : dss_monitor.Monitor) :
  single_sided_input delimiter loads monitors ->
  nth_error loads i = Some load ->
  nth_error monitors i = Some monitor ->
  exists (data_df : data_factory.DataFrame) (channel_map : dict (list nat))
         (idxs : list nat),
    data_factory.make_load_voltage_magnitude_data delimiter loads monitors
      = Ok (data_df, channel_map)
    /\ dict_get channel_map (load_object load) = Some idxs
    /\ map (nth_error data_df) idxs
       = map (fun ch =>
                Some ((load_object load ++ delimiter ++ ch)%string,
                      channel_column (dss_monitor.make_data monitor) ch))
             (requested_channels load).
Proof.
  intros Hin Hl Hm.
  rewrite (load_aggregation_closed_form delimiter loads monitors Hin).
  destruct Hin as (Hlen & Hnd & _).
  assert (Hload : In load loads) by (eapply nth_error_In; exact Hl).
  destruct (consecutive_get loads Hnd 0%nat load Hload) as (idxs & Hget & _).
  exists (flat_map (load_entries delimiter) (combine loads monitors)),
    (consecutive_channel_map 0 loads), idxs.
  split; [reflexivity|]. split; [exact Hget|].
  pose proof (consecutive_indices_entries delimiter loads monitors 0%nat []
                eq_refl Hnd i load monitor idxs Hl Hm Hget) as Hidx.
  cbn [app] in Hidx. rewrite Hidx.
  unfold load_entries. cbn [fst snd]. now rewrite map_map.
Qed.

Lemma channel_map_points_to_own_columns_witness :
  exists (data_df : data_factory.DataFrame) (channel_map : dict (list nat)),
    data_factory.make_load_voltage_magnitude_data "_"
      [example_load "a" dss_phase.A; example_load "b" dss_phase.AB]
      [example_monitor "a" mode0_channels 2; example_monitor "b" mode0_channels 2]
    = Ok (data_df, channel_map)
    /\ dict_get channel_map "load.b" = Some [1%nat; 2%nat]
    /\ map fst data_df = ["load.a_V1"; "load.b_V1"; "load.b_V2"]%string.
Proof.
  assert (H : single_sided_input "_"
                [example_load "a" dss_phase.A; example_load "b" dss_phase.AB]
                [example_monitor "a" mode0_channels 2;
                 example_monitor "b" mode0_channels 2]).
  { split; [reflexivity|].
    split; [repeat constructor; cbn; intuition discriminate|].
    split; [discriminate|].
    split; [repeat constructor|].
    split; [repeat constructor|].
    split; [repeat constructor|].
    split.
    - constructor; [|constructor; [|constructor]];
        intros ch Hch; cbn in *; intuition (subst; auto).
    - exists 2%nat. repeat constructor. }
  destruct (channel_map_points_to_own_columns "_" _ _ 1%nat
              (example_load "b" dss_phase.AB)
              (example_monitor "b" mode0_channels 2) H eq_refl eq_refl)
    as (data_df & channel_map & idxs & E & Hget & _).
  exists data_df, channel_map. split; [exact E|].
  assert (E' := E). vm_compute in E'. injection E' as <- <-.
  split; reflexivity.
Defined.

(** ** The transformer table: failure and contents *)

Lemma for_each_ok_or_raise {A S : Type} (body : S -> A -> result S)
    (xs : list A) (e : exn) :
  (forall s x, In x xs -> (exists s', body s x = Ok s') \/ body s x = Raise e) ->
  forall s, (exists s', for_each body xs s = Ok s') \/ for_each body xs s = Raise e.
Proof.
  induction xs as [|x xs IH]; intros Hbody s; cbn [for_each].
  - left. eauto.
  - destruct (Hbody s x (or_introl eq_refl)) as [[s' E]|E]; rewrite E; cbn [bind].
    + apply IH. intros s0 x0 Hin. apply Hbody. now right.
    + now right.
Qed.

Lemma for_each_raises {A S : Type} (body : S -> A -> result S)
    (xs : list A) (e : exn) :
  (forall s x, In x xs -> (exists s', body s x = Ok s') \/ body s x = Raise e) ->
  (exists x, In x xs /\ forall s, body s x = Raise e) ->
  forall s, for_each body xs s = Raise e.
Proof.
  induction xs as [|x xs IH]; intros Hbody (x0 & Hin & Hx0) s; [contradiction|].
  cbn [for_each].
  destruct Hin as [->|Hin].
  - now rewrite Hx0.
  - destruct (Hbody s x (or_introl eq_refl)) as [[s' E]|E]; rewrite E; cbn [bind].
    + apply IH; [|eauto]. intros s0 x1 Hin1. apply Hbody. now right.
    + reflexivity.
Qed.

Lemma nth_error_combine {A B : Type} (xs : list A) :
  forall (ys : list B) (i : nat) (x : A) (y : B),
    nth_error xs i = Some x -> nth_error ys i = Some y ->
    nth_error (combine xs ys) i = Some (x, y).
Proof.
  induction xs as [|a xs IH]; intros [|b ys] [|i] x y Hx Hy;
    cbn [combine nth_error] in *; try discriminate.
  - now injection Hx as ->; injection Hy as ->.
  - now apply IH.
Qed.

Lemma get_column_ok (m : dss_monitor.Monitor) (j : nat) :
  monitor_well_shaped m ->
  (j < List.length (dss_monitor.channel_names (dss_monitor.make_data m)))%nat ->
  exists column,
    get_column (dss_monitor.data (dss_monitor.make_data m)) j = Ok column.
Proof.
  intros Hshape Hj. unfold get_column. unfold monitor_well_shaped in Hshape.
  rewrite Hshape.
  destruct (Nat.ltb_spec j
              (List.length (dss_monitor.channel_names (dss_monitor.make_data m))))
    as [_|Hge]; [eauto | lia].
Qed.

Lemma list_index_cases (xs : list string) (x : string) :
  (In x xs /\ exists i, list_index xs x = Ok i /\ (i < List.length xs)%nat)
  \/ (~ In x xs /\ list_index xs x = Raise ValueError).
Proof.
  destruct (in_dec string_dec x xs) as [Hin|Hnot].
  - left. split; [exact Hin | apply list_index_present; exact Hin].
  - right. split; [exact Hnot | apply list_index_absent; exact Hnot].
Qed.

(** One channel of one transformer: with well-shaped read-outs the step
    writes its two columns when both read-outs name the channel, and raises
    [ValueError] otherwise. *)
Lemma transformer_channel_step_cases (delimiter : string)
    (t : dss_transformer.Transformer) (mp ms : dss_monitor.Monitor)
    (data : dict (list Q)) (ch : string) :
  monitor_well_shaped mp -> monitor_well_shaped ms ->
  (In ch (dss_monitor.channel_names (dss_monitor.make_data mp))
   /\ In ch (dss_monitor.channel_names (dss_monitor.make_data ms))
   /\ exists data',
        data_factory.transformer_channel_step delimiter t
          (dss_monitor.make_data mp) (dss_monitor.make_data ms) data ch
        = Ok data')
  \/ ((~ In ch (dss_monitor.channel_names (dss_monitor.make_data mp))
       \/ ~ In ch (dss_monitor.channel_names (dss_monitor.make_data ms)))
      /\ data_factory.transformer_channel_step delimiter t
           (dss_monitor.make_data mp) (dss_monitor.make_data ms) data ch
         = Raise ValueError).
Proof.
  intros Hp Hs. unfold data_factory.transformer_channel_step.
  destruct (list_index_cases
              (dss_monitor.channel_names (dss_monitor.make_data mp)) ch)
    as [[Hinp (ip & Eip & Hip)]|[Hnp Eip]]; rewrite Eip; cbn [bind].
  2:{ right. split; [now left | reflexivity]. }
  destruct (list_index_cases
              (dss_monitor.channel_names (dss_monitor.make_data ms)) ch)
    as [[Hins (is_ & Eis & His)]|[Hns Eis]]; rewrite Eis; cbn [bind].
  2:{ right. split; [now right | reflexivity]. }
  destruct (get_column_ok mp ip Hp Hip) as [cp Ecp].
  destruct (get_column_ok ms is_ Hs His) as [cs Ecs].
  rewrite Ecp. cbn [bind]. rewrite Ecs. cbn [bind].
  left. eauto.
Qed.

Lemma transformer_step_cases (delimiter : string) (data : dict (list Q))
    (item : dss_transformer.Transformer
            * (dss_monitor.Monitor * dss_monitor.Monitor)) :
  monitor_well_shaped (fst (snd item)) ->
  monitor_well_shaped (snd (snd item)) ->
  (exists data', data_factory.transformer_step delimiter data item = Ok data')
  \/ data_factory.transformer_step delimiter data item = Raise ValueError.
Proof.
  intros Hp Hs. unfold data_factory.transformer_step.
  apply for_each_ok_or_raise. intros s ch _.
  destruct (transformer_channel_step_cases delimiter (fst item)
              (fst (snd item)) (snd (snd item)) s ch Hp Hs)
    as [(_ & _ & H)|[_ H]]; auto.
Qed.

Lemma transformer_step_missing_channel (delimiter : string)
    (data : dict (list Q))
    (item : dss_transformer.Transformer
            * (dss_monitor.Monitor * dss_monitor.Monitor)) (ch : string) :
  monitor_well_shaped (fst (snd item)) ->
  monitor_well_shaped (snd (snd item)) ->
  In ch data_factory.all_channels ->
  ~ In ch (dss_monitor.channel_names (dss_monitor.make_data (fst (snd item))))
  \/ ~ In ch (dss_monitor.channel_names (dss_monitor.make_data (snd (snd item)))) ->
  data_factory.transformer_step delimiter data item = Raise ValueError.
Proof.
  intros Hp Hs Hch Hmiss. unfold data_factory.transformer_step.
  apply for_each_raises.
  - intros s c _.
    destruct (transformer_channel_step_cases delimiter (fst item)
                (fst (snd item)) (snd (snd item)) s c Hp Hs)
      as [(_ & _ & H)|[_ H]]; auto.
  - exists ch. split; [exact Hch|]. intros s.
    destruct (transformer_channel_step_cases delimiter (fst item)
                (fst (snd item)) (snd (snd item)) s ch Hp Hs)
      as [(H1 & H2 & _)|[_ H]]; [tauto | exact H].
Qed.

(** X16.  A voltage channel missing in the read-out of either monitor of
    some transformer makes the whole transformer aggregation raise
    [ValueError]: no table is returned, not even for the transformers before
    it. *)
Theorem transformer_missing_channel_raises_value_error (delimiter : string)
    (monitors_primary monitors_secondary : list dss_monitor.Monitor)
    (transformers : list dss_transformer.Transformer)
    (i : nat) (t : dss_transformer.Transformer)
    (mp ms : dss_monitor.Monitor) (ch : string) :
  Forall monitor_well_shaped monitors_primary ->
  Forall monitor_well_shaped monitors_secondary ->
  nth_error transformers i = Some t ->
  nth_error monitors_primary i = Some mp ->
  nth_error monitors_secondary i = Some ms ->
  In ch data_factory.all_channels ->
  ~ In ch (dss_monitor.channel_names (dss_monitor.make_data mp))
  \/ ~ In ch (dss_monitor.channel_names (dss_monitor.make_data ms)) ->
  data_factory.make_transformer_voltage_magnitude_data delimiter
    monitors_primary monitors_secondary transformers
  = Raise ValueError.
Proof.
  intros Hp Hs Ht Hmp Hms Hch Hmiss.
  unfold data_factory.make_transformer_voltage_magnitude_data.
  rewrite Forall_forall in Hp, Hs.
  assert (Hshape : forall item,
            In item (combine transformers
                       (combine monitors_primary monitors_secondary)) ->
            monitor_well_shaped (fst (snd item))
            /\ monitor_well_shaped (snd (snd item))).
  { intros [t' [mp' ms']] Hin. cbn [fst snd].
    apply in_combine_r in Hin.
    split; [apply Hp; eapply in_combine_l | apply Hs; eapply in_combine_r];
      exact Hin. }
  assert (Hitem : In (t, (mp, ms))
                     (combine transformers
                        (combine monitors_primary monitors_secondary))).
  { apply (nth_error_combine_in transformers _ i); [exact Ht|].
    apply nth_error_combine; assumption. }
  rewrite (for_each_raises (data_factory.transformer_step delimiter) _ ValueError).
  - reflexivity.
  - intros s item Hin. destruct (Hshape item Hin) as [H1 H2].
    apply transformer_step_cases; assumption.
  - exists (t, (mp, ms)). split; [exact Hitem|]. intros s.
    destruct (Hshape _ Hitem) as [H1 H2].
    apply (transformer_step_missing_channel delimiter s (t, (mp, ms)) ch);
      assumption.
Qed.

Lemma transformer_missing_channel_raises_value_error_witness :
  data_factory.make_transformer_voltage_magnitude_data "_"
    [example_monitor "p1" mode0_channels 2; example_monitor "p2" mode0_channels 2]
    [example_monitor "s1" mode0_channels 2;
     example_monitor "s2" ["hours"; "V1"; "V2"] 2]
    [example_transformer "1"; example_transformer "2"]
  = Raise ValueError.
Proof.
  apply (transformer_missing_channel_raises_value_error "_" _ _ _ 1%nat
           (example_transformer "2") (example_monitor "p2" mode0_channels 2)
           (example_monitor "s2" ["hours"; "V1"; "V2"] 2) "V3").
  - repeat constructor.
  - repeat constructor.
  - reflexivity.
  - reflexivity.
  - reflexivity.
  - cbn. auto.
  - right. cbn. intuition discriminate.
Defined.

(** The table of a paired-sided input, in closed form. *)
Lemma transformer_aggregation_closed_form (delimiter : string)
    (monitors_primary monitors_secondary : list dss_monitor.Monitor)
    (transformers : list dss_transformer.Transformer) :
  paired_sided_input monitors_primary monitors_secondary transformers ->
  data_factory.make_transformer_voltage_magnitude_data delimiter
    monitors_primary monitors_secondary transformers
  = Ok (flat_map (transformer_entries delimiter)
          (combine transformers (combine monitors_primary monitors_secondary))).
Proof.
  intros (Hlp & Hls & Hnd & Hshape & Hch & n & Hn).
  rewrite Forall_app in Hshape, Hch, Hn.
  destruct Hshape as [Hshp Hshs], Hch as [Hchp Hchs], Hn as [Hnp Hns].
  rewrite Forall_forall in Hshp, Hshs, Hchp, Hchs, Hnp, Hns.
  assert (Hitem : forall t mp ms,
            In (t, (mp, ms))
               (combine transformers
                  (combine monitors_primary monitors_secondary)) ->
            In mp monitors_primary /\ In ms monitors_secondary).
  { intros t mp ms Hin. apply in_combine_r in Hin.
    split; [eapply in_combine_l | eapply in_combine_r]; exact Hin. }
  assert (Hkeys := transformer_entries_keys delimiter transformers
                     monitors_primary monitors_secondary Hlp Hls).
  unfold data_factory.make_transformer_voltage_magnitude_data.
  rewrite transformer_loop_ok.
  2:{ apply Forall_forall. intros [t [mp ms]] Hin. cbn [fst snd].
      destruct (Hitem t mp ms Hin) as [Hp Hs]. auto. }
  cbn [bind]. rewrite dict_set_all_fresh.
  2:{ cbn [dict_keys map app]. rewrite Hkeys.
      apply all_transformer_columns_NoDup. exact Hnd. }
  cbn [app]. apply (pd_DataFrame_ok _ n).
  apply Forall_forall. intros [key col] Hin.
  apply in_flat_map in Hin. destruct Hin as ([t [mp ms]] & Hit & Hin).
  destruct (Hitem t mp ms Hit) as [Hp Hs].
  unfold transformer_entries in Hin. cbn [fst snd] in Hin.
  apply in_flat_map in Hin. destruct Hin as (ch & Hc & Hin).
  cbn [snd]. destruct Hin as [E|[E|[]]]; injection E as _ <-.
  - rewrite channel_column_length by (apply Hchp; assumption). auto.
  - rewrite channel_column_length by (apply Hchs; assumption). auto.
Qed.

(** X17.  For a paired-sided input, the sides are not mixed up: the
    column named with [primary] holds the channel's samples of the monitor
    at the transformer's position in [monitors_primary], the column named
    with [secondary] those of the monitor at that position in
    [monitors_secondary]. *)
Theorem transformer_columns_hold_side_samples (delimiter : string)
    (monitors_primary monitors_secondary : list dss_monitor.Monitor)
    (transformers : list dss_transformer.Transformer)
    (i : nat) (t : dss_transformer.Transformer)
    (mp ms : dss_monitor.Monitor) (ch : string) :
  paired_sided_input monitors_primary monitors_secondary transformers ->
  nth_error transformers i = Some t ->
  nth_error monitors_primary i = Some mp ->
  nth_error monitors_secondary i = Some ms ->
  In ch data_factory.all_channels ->
  exists data_df : data_factory.DataFrame,
    data_factory.make_transformer_voltage_magnitude_data delimiter
      monitors_primary monitors_secondary transformers = Ok data_df
    /\ dict_get data_df
         (transformer_object t ++ delimiter ++ "primary" ++ delimiter ++ ch)
       = Some (channel_column (dss_monitor.make_data mp) ch)
    /\ dict_get data_df
         (transformer_object t ++ delimiter ++ "secondary" ++ delimiter ++ ch)
       = Some (channel_column (dss_monitor.make_data ms) ch).
Proof.
  intros Hin Ht Hmp Hms Hch.
  rewrite (transformer_aggregation_closed_form delimiter _ _ _ Hin).
  destruct Hin as (Hlp & Hls & Hnd & _).
  eexists. split; [reflexivity|].
  assert (Hnodup : NoDup (dict_keys
                            (flat_map (transformer_entries delimiter)
                               (combine transformers
                                  (combine monitors_primary monitors_secondary))))).
  { unfold dict_keys.
    rewrite (transformer_entries_keys delimiter transformers
               monitors_primary monitors_secondary Hlp Hls).
    apply all_transformer_columns_NoDup. exact Hnd. }
  assert (Hitem : In (t, (mp, ms))
                     (combine transformers
                        (combine monitors_primary monitors_secondary))).
  { apply (nth_error_combine_in transformers _ i); [exact Ht|].
    apply nth_error_combine; assumption. }
  split; apply (dict_in_get _ _ _ Hnodup); apply in_flat_map;
    exists (t, (mp, ms)); (split; [exact Hitem|]);
    unfold transformer_entries; cbn [fst snd]; apply in_flat_map;
    exists ch; (split; [exact Hch|]); cbn [In]; auto.
Qed.

Lemma transformer_columns_hold_side_samples_witness :
  exists data_df : data_factory.DataFrame,
    data_factory.make_transformer_voltage_magnitude_data "_"
      [example_monitor "p" mode0_channels 2]
      [example_monitor "s" ["hours"; "V3"; "V2"; "V1"] 2]
      [example_transformer "MDV_SUB_1"] = Ok data_df
    /\ dict_get data_df "transformer.MDV_SUB_1_primary_V1"
       = Some (channel_column
                 (dss_monitor.make_data (example_monitor "p" mode0_channels 2))
                 "V1")
    /\ dict_get data_df "transformer.MDV_SUB_1_secondary_V1"
       = Some (channel_column
                 (dss_monitor.make_data
                    (example_monitor "s" ["hours"; "V3"; "V2"; "V1"] 2))
                 "V1").
Proof.
  apply (transformer_columns_hold_side_samples "_"
           [example_monitor "p" mode0_channels 2]
           [example_monitor "s" ["hours"; "V3"; "V2"; "V1"] 2]
           [example_transformer "MDV_SUB_1"] 0%nat
           (example_transformer "MDV_SUB_1")
           (example_monitor "p" mode0_channels 2)
           (example_monitor "s" ["hours"; "V3"; "V2"; "V1"] 2) "V1");
    try reflexivity; [|cbn; auto].
  split; [reflexivity|]. split; [reflexivity|].
  split; [repeat constructor; cbn; intuition|].
  split; [repeat constructor|].
  split.
  - constructor; [|constructor; [|constructor]];
      intros c Hc; cbn in *; intuition (subst; auto).
  - exists 2%nat. repeat constructor.
Defined.

(** ** A delimiter inside an object name *)

Lemma split_scan_length_pos (d s : string) :
  forall (skip : nat) (cur : string),
    (1 <= List.length (split_scan d s skip cur))%nat.
Proof.
  induction s as [|c s IH]; intros skip cur; cbn [split_scan].
  - cbn. lia.
  - destruct skip as [|k]; [|apply IH].
    destruct (String.prefix d (String c s)); [cbn; lia | apply IH].
Qed.

Lemma prefix_split (d s : string) :
  String.prefix d s = true -> exists w, s = (d ++ w)%string.
Proof.
  revert s. induction d as [|x d IH]; intros s H.
  - exists s. reflexivity.
  - destruct s as [|y s]; [discriminate|]. cbn [String.prefix] in H.
    destruct (Ascii.ascii_dec x y) as [->|N]; [|discriminate].
    destruct (IH s H) as [w ->]. exists w. reflexivity.
Qed.

Lemma str_contains_split (d s : string) :
  str_contains d s = true -> exists u w, s = (u ++ d ++ w)%string.
Proof.
  induction s as [|c s IH]; cbn [str_contains]; intros H.
  - rewrite orb_false_r in H. destruct (prefix_split d "" H) as [w E].
    exists ""%string, w. exact E.
  - apply orb_true_iff in H. destruct H as [H|H].
    + destruct (prefix_split d _ H) as [w E]. exists ""%string, w. exact E.
    + destruct (IH H) as (u & w & ->). exists (String c u), w. reflexivity.
Qed.

(** A text that holds the separator splits into two pieces at least; one
    that holds it twice, without overlap, into three at least. *)
Lemma split_count_two (d : string) :
  d <> ""%string ->
  forall (s : string) (skip : nat) (cur a b : string),
    s = (a ++ d ++ b)%string -> (skip <= String.length a)%nat ->
    (2 <= List.length (split_scan d s skip cur))%nat.
Proof.
  intros Hd. induction s as [|c s IH]; intros skip cur a b E Hskip.
  - destruct a; [destruct d; [congruence | discriminate] | discriminate].
  - cbn [split_scan]. destruct skip as [|k].
    + destruct (String.prefix d (String c s)) eqn:Ep.
      * cbn [List.length].
        pose proof (split_scan_length_pos d s (String.length d - 1) "").
        lia.
      * destruct a as [|x a].
        -- cbn [String.append] in E. rewrite E, prefix_app in Ep. discriminate.
        -- cbn [String.append] in E. injection E as -> ->.
           apply (IH 0%nat _ a b eq_refl). lia.
    + destruct a as [|x a]; [cbn in Hskip; lia|].
      cbn [String.append] in E. injection E as -> ->.
      apply (IH k cur a b eq_refl). cbn in Hskip. lia.
Qed.

Lemma split_count_three (d : string) :
  d <> ""%string ->
  forall (s : string) (skip : nat) (cur a b1 b2 : string),
    s = (a ++ d ++ b1 ++ d ++ b2)%string -> (skip <= String.length a)%nat ->
    (3 <= List.length (split_scan d s skip cur))%nat.
Proof.
  intros Hd. induction s as [|c s IH]; intros skip cur a b1 b2 E Hskip.
  - destruct a; [destruct d; [congruence | discriminate] | discriminate].
  - cbn [split_scan]. destruct skip as [|k].
    + destruct (String.prefix d (String c s)) eqn:Ep.
      * cbn [List.length].
        assert (H2 : (2 <= List.length
                             (split_scan d s (String.length d - 1) ""))%nat).
        { destruct (a ++ d ++ b1)%string as [|y rest] eqn:Eadb.
          - exfalso. destruct a; [|discriminate].
            destruct d; [congruence | discriminate].
          - apply (split_count_two d Hd s _ _ rest b2).
            + assert (E' : String c s = ((a ++ d ++ b1) ++ d ++ b2)%string)
                by (rewrite E, !str_app_assoc; reflexivity).
              rewrite Eadb in E'. cbn [String.append] in E'.
              now injection E' as _ ->.
            + assert (Hlen : String.length (String y rest)
                             = (String.length a + (String.length d
                                                   + String.length b1))%nat)
                by (rewrite <- Eadb, !str_length_app; reflexivity).
              cbn [String.length] in Hlen. lia. }
        lia.
      * destruct a as [|x a].
        -- cbn [String.append] in E. rewrite E, prefix_app in Ep. discriminate.
        -- cbn [String.append] in E. injection E as -> ->.
           apply (IH 0%nat _ a b1 b2 eq_refl). lia.
    + destruct a as [|x a]; [cbn in Hskip; lia|].
      cbn [String.append] in E. injection E as -> ->.
      apply (IH k cur a b1 b2 eq_refl). cbn in Hskip. lia.
Qed.

Lemma dict_get_set_same {V : Type} (dct : dict V) (k : string) (v : V) :
  dict_get (dict_set dct k v) k = Some v.
Proof.
  induction dct as [|[k' v'] dct IH]; cbn [dict_set dict_get].
  - now rewrite String.eqb_refl.
  - destruct (String.eqb k' k) eqn:E; cbn [dict_get]; rewrite E; auto.
Qed.

(** One step of the channel-map loop fails with [ValueError] only. *)
Lemma channel_map_step_cases (delimiter : string) (cm : dict (list nat))
    (item : nat * string) :
  (exists cm', data_factory.channel_map_step delimiter cm item = Ok cm')
  \/ data_factory.channel_map_step delimiter cm item = Raise ValueError.
Proof.
  unfold data_factory.channel_map_step, str_split.
  destruct (String.eqb delimiter ""); [now right|]. cbn [bind].
  destruct (split_scan delimiter (snd item) 0 "") as [|a [|b [|c r]]];
    try (now right).
  unfold dict_mem, dict_getitem.
  destruct (dict_get cm a) as [l|] eqn:Eg.
  - rewrite Eg. cbn [bind]. eauto.
  - rewrite dict_get_set_same. cbn [bind]. eauto.
Qed.

Lemma channel_map_step_many_parts (delimiter : string) (cm : dict (list nat))
    (i : nat) (o ch : string) :
  str_contains delimiter o = true ->
  data_factory.channel_map_step delimiter cm (i, (o ++ delimiter ++ ch)%string)
  = Raise ValueError.
Proof.
  intros Hc. unfold data_factory.channel_map_step, str_split. cbn [fst snd].
  destruct (String.eqb_spec delimiter "") as [E|Hd]; [reflexivity|].
  cbn [bind].
  destruct (str_contains_split _ _ Hc) as (u & w & ->).
  pose proof (split_count_three delimiter Hd
                ((u ++ delimiter ++ w) ++ delimiter ++ ch)%string 0 ""
                u w ch) as H3.
  rewrite !str_app_assoc in H3. rewrite !str_app_assoc.
  specialize (H3 eq_refl (Nat.le_0_l _)).
  destruct (split_scan delimiter _ 0 "") as [|a [|b [|c r]]];
    cbn [List.length] in H3; try lia.
  reflexivity.
Qed.

Lemma fold_dict_set_keys {V : Type} (kvs : list (string * V)) :
  forall (dct : dict V) (k : string),
    In k (dict_keys dct) \/ In k (map fst kvs) ->
    In k (dict_keys (fold_left (fun acc kv => dict_set acc (fst kv) (snd kv))
                       kvs dct)).
Proof.
  assert (Hset : forall (dct : dict V) k k' v,
             In k (dict_keys dct) \/ k = k' ->
             In k (dict_keys (dict_set dct k' v))).
  { induction dct as [|[k0 v0] dct IH]; intros k k' v H;
      cbn [dict_set dict_keys map fst In] in *.
    - destruct H as [[] | ->]. now left.
    - destruct (String.eqb_spec k0 k') as [-> | N]; cbn [map fst In].
      + destruct H as [[H|H]|H]; auto.
      + destruct H as [[H|H]|H]; auto; right; apply IH; auto. }
  induction kvs as [|[k0 v0] kvs IH]; intros dct k H; cbn [fold_left map fst In] in *.
  - destruct H as [H|[]]. exact H.
  - apply IH. destruct H as [H|[H|H]]; auto; left; apply Hset; auto.
Qed.

(** The load loop over well-shaped read-outs: it fails with [ValueError]
    only, and when it returns every requested channel of every pair has its
    key in the dictionary. *)
Lemma load_loop_keys (delimiter : string)
    (items : list (dss_load.Load * dss_monitor.Monitor)) :
  Forall (fun item => monitor_well_shaped (snd item)) items ->
  forall data : dict (list Q),
    match for_each (data_factory.load_step delimiter) items data with
    | Ok data' =>
        (forall k, In k (dict_keys data) -> In k (dict_keys data'))
        /\ forall item ch,
             In item items -> In ch (requested_channels (fst item)) ->
             In (load_object (fst item) ++ delimiter ++ ch)%string
                (dict_keys data')
    | Raise e => e = ValueError
    end.
Proof.
  induction items as [|item items IH]; intros Hshape data; cbn [for_each].
  - split; [auto | intros item ch []].
  - inversion Hshape as [|? ? Hs Hrest]; subst.
    unfold data_factory.load_step at 1.
    pose proof (load_channels_cases delimiter (fst item) (snd item)
                  (requested_channels (fst item)) Hs data) as Hstep.
    unfold requested_channels in Hstep at 1.
    destruct (for_each _ (firstn _ data_factory.all_channels) data)
      as [data1|e]; cbn [bind]; [|exact Hstep].
    destruct Hstep as [_ ->].
    specialize (IH Hrest
                  (fold_left (fun acc kv => dict_set acc (fst kv) (snd kv))
                     (map (fun ch =>
                             ((dss_name.object (dss_load.name (fst item))
                                 ++ delimiter ++ ch)%string,
                              channel_column (dss_monitor.make_data (snd item)) ch))
                          (requested_channels (fst item))) data)).
    destruct (for_each (data_factory.load_step delimiter) items _)
      as [data'|e]; [|exact IH].
    destruct IH as [Hold Hnew]. split.
    + intros k Hk. apply Hold. apply fold_dict_set_keys. now left.
    + intros item' ch [<-|Hin] Hch.
      * apply Hold. apply fold_dict_set_keys. right.
        rewrite map_map. cbn [fst]. apply in_map_iff. exists ch. auto.
      * apply Hnew; assumption.
Qed.

Lemma in_enumerate_from {A : Type} (xs : list A) (x : A) :
  In x xs -> forall n, exists i, In (i, x) (enumerate_from n xs).
Proof.
  induction xs as [|y xs IH]; intros Hin n; [contradiction|].
  cbn [enumerate_from]. destruct Hin as [->|Hin].
  - exists n. now left.
  - destruct (IH Hin (S n)) as [i Hi]. exists i. now right.
Qed.

(** X18.  A load whose object name holds the delimiter makes the whole
    load aggregation raise [ValueError]: its column name splits into more
    than two parts when the channel map is built.  With an empty delimiter
    every name holds it, and [split] itself raises. *)
Theorem delimiter_in_load_name_raises_value_error (delimiter : string)
    (loads : list dss_load.Load) (monitors : list dss_monitor.Monitor)
    (i : nat) (load : dss_load.Load) (monitor : dss_monitor.Monitor) :
  Forall monitor_well_shaped monitors ->
  nth_error loads i = Some load ->
  nth_error monitors i = Some monitor ->
  str_contains delimiter (load_object load) = true ->
  data_factory.make_load_voltage_magnitude_data delimiter loads monitors
  = Raise ValueError.
Proof.
  intros Hshape Hl Hm Hc.
  unfold data_factory.make_load_voltage_magnitude_data.
  assert (Hshape' : Forall (fun item => monitor_well_shaped (snd item))
                      (combine loads monitors)).
  { apply Forall_forall. intros [l m] Hin. cbn [snd].
    rewrite Forall_forall in Hshape. apply Hshape.
    eapply in_combine_r; exact Hin. }
  pose proof (load_loop_keys delimiter _ Hshape' []) as Hloop.
  destruct (for_each (data_factory.load_step delimiter) _ [])
    as [data|e]; cbn [bind]; [|now subst e].
  destruct Hloop as [_ Hkeys].
  assert (Hkey : In (load_object load ++ delimiter ++ "V1")%string
                    (dict_keys data)).
  { apply (Hkeys (load, monitor) "V1"%string).
    - eapply nth_error_combine_in; eauto.
    - cbn [fst]. destruct (requested_channels_cases load) as [E|[E|E]];
        rewrite E; now left. }
  assert (Hdf : data_factory.pd_DataFrame data = Ok data
                \/ data_factory.pd_DataFrame data = Raise ValueError).
  { unfold data_factory.pd_DataFrame. destruct data as [|[k v] rest]; auto.
    destruct (forallb _ rest); auto. }
  destruct Hdf as [-> | ->]; cbn [bind]; [|reflexivity].
  rewrite (for_each_raises (data_factory.channel_map_step delimiter) _ ValueError).
  - reflexivity.
  - intros cm item _. apply channel_map_step_cases.
  - unfold enumerate, data_factory.columns.
    destruct (in_enumerate_from _ _ Hkey 0%nat) as [idx Hidx].
    exists (idx, (load_object load ++ delimiter ++ "V1")%string).
    split; [exact Hidx|]. intros cm.
    apply channel_map_step_many_parts. exact Hc.
Qed.

Lemma delimiter_in_load_name_raises_value_error_witness :
  data_factory.make_load_voltage_magnitude_data "_"
    [example_load "a" dss_phase.A; example_load "MDV201_1144260FUSE-1B0" dss_phase.AB]
    [example_monitor "a" mode0_channels 2; example_monitor "b" mode0_channels 2]
  = Raise ValueError
  /\ data_factory.make_load_voltage_magnitude_data ""
       [example_load "a" dss_phase.A]
       [example_monitor "a" mode0_channels 2]
     = Raise ValueError.
Proof.
  split.
  - apply (delimiter_in_load_name_raises_value_error "_" _ _ 1%nat
             (example_load "MDV201_1144260FUSE-1B0" dss_phase.AB)
             (example_monitor "b" mode0_channels 2)).
    + repeat constructor.
    + reflexivity.
    + reflexivity.
    + reflexivity.
  - apply (delimiter_in_load_name_raises_value_error "" _ _ 0%nat
             (example_load "a" dss_phase.A)
             (example_monitor "a" mode0_channels 2)).
    + repeat constructor.
    + reflexivity.
    + reflexivity.
    + reflexivity.
Defined.

(** ** The table of load shapes *)

Lemma fold_left_set_map {A V : Type} (key : A -> string) (val : A -> V)
    (xs : list A) :
  forall dct : dict V,
    fold_left (fun data x => dict_set data (key x) (val x)) xs dct
    = fold_left (fun acc kv => dict_set acc (fst kv) (snd kv))
        (map (fun x => (key x, val x)) xs) dct.
Proof.
  induction xs as [|x xs IH]; intros dct; [reflexivity|].
  cbn [fold_left map fst snd]. apply IH.
Qed.

Lemma pd_DataFrame_uneven (data : dict (list Q)) (k1 k2 : string)
    (v1 v2 : list Q) :
  In (k1, v1) data -> In (k2, v2) data ->
  List.length v1 <> List.length v2 ->
  data_factory.pd_DataFrame data = Raise ValueError.
Proof.
  intros H1 H2 Hne. unfold data_factory.pd_DataFrame.
  destruct data as [|[k v] rest]; [contradiction|].
  destruct (forallb _ rest) eqn:Ef; [|reflexivity].
  exfalso. rewrite forallb_forall in Ef.
  assert (Hall : forall k' v', In (k', v') ((k, v) :: rest) ->
                               List.length v' = List.length v).
  { intros k' v' [E|Hin].
    - now injection E as _ <-.
    - specialize (Ef (k', v') Hin). cbn [snd] in Ef.
      now apply Nat.eqb_eq in Ef. }
  apply Hne. rewrite (Hall k1 v1 H1), (Hall k2 v2 H2). reflexivity.
Qed.

(** X19.  For load shapes known by different object names, the table of
    load shapes has one column per load shape, in order, under the load
    shape's object name and holding its samples, provided all load shapes
    have the same number of samples; two load shapes of different lengths
    make [pd.DataFrame] raise [ValueError]. *)
Theorem loadshape_table_one_column_each
    (loadshapes : list dss_loadshape.LoadShape) (h : store) :
  NoDup (map loadshape_object loadshapes) ->
  (forall n : nat,
     Forall (fun ls => List.length (loadshape_samples h ls) = n) loadshapes ->
     exists data_df : data_factory.DataFrame,
       data_factory.make_loadshape_data loadshapes h = Ok data_df
       /\ data_factory.columns data_df = map loadshape_object loadshapes
       /\ forall ls, In ls loadshapes ->
            dict_get data_df (loadshape_object ls)
            = Some (loadshape_samples h ls))
  /\ (forall ls1 ls2,
        In ls1 loadshapes -> In ls2 loadshapes ->
        List.length (loadshape_samples h ls1)
        <> List.length (loadshape_samples h ls2) ->
        data_factory.make_loadshape_data loadshapes h = Raise ValueError).
Proof.
  intros Hnd. unfold data_factory.make_loadshape_data.
  rewrite (fold_left_set_map loadshape_object (loadshape_samples h)).
  assert (Hkeys : map fst (map (fun ls => (loadshape_object ls,
                                           loadshape_samples h ls)) loadshapes)
                  = map loadshape_object loadshapes).
  { rewrite map_map. reflexivity. }
  rewrite dict_set_all_fresh by (cbn [dict_keys map app]; now rewrite Hkeys).
  cbn [app]. split.
  - intros n Hn. rewrite (pd_DataFrame_ok _ n).
    2:{ apply Forall_map. cbn [snd]. exact Hn. }
    eexists. split; [reflexivity|].
    split; [exact Hkeys|].
    intros ls Hin. apply dict_in_get.
    + unfold dict_keys. now rewrite Hkeys.
    + apply in_map_iff. exists ls. auto.
  - intros ls1 ls2 H1 H2 Hne.
    apply (pd_DataFrame_uneven _ (loadshape_object ls1) (loadshape_object ls2)
             (loadshape_samples h ls1) (loadshape_samples h ls2)).
    + apply in_map_iff. exists ls1. auto.
    + apply in_map_iff. exists ls2. auto.
    + exact Hne.
Qed.

Lemma loadshape_table_one_column_each_witness :
  exists data_df : data_factory.DataFrame,
    data_factory.make_loadshape_data
      [{| dss_loadshape.name :=
            {| dss_name.class_ := "loadshape"; dss_name.element := "load_a" |};
          dss_loadshape.profile_name := "7";
          dss_loadshape.recurrence := dss_loadshape.DAILY;
          dss_loadshape.values := 1%nat |};
       {| dss_loadshape.name :=
            {| dss_name.class_ := "loadshape"; dss_name.element := "load_b" |};
          dss_loadshape.profile_name := "8";
          dss_loadshape.recurrence := dss_loadshape.DAILY;
          dss_loadshape.values := 0%nat |}]
      [[0; 1]; [1; 1 # 2]]
    = Ok data_df
    /\ data_factory.columns data_df
       = ["loadshape.load_a"; "loadshape.load_b"]%string.
Proof.
  destruct (proj1 (loadshape_table_one_column_each
                     [{| dss_loadshape.name :=
                           {| dss_name.class_ := "loadshape";
                              dss_name.element := "load_a" |};
                         dss_loadshape.profile_name := "7";
                         dss_loadshape.recurrence := dss_loadshape.DAILY;
                         dss_loadshape.values := 1%nat |};
                      {| dss_loadshape.name :=
                           {| dss_name.class_ := "loadshape";
                              dss_name.element := "load_b" |};
                         dss_loadshape.profile_name := "8";
                         dss_loadshape.recurrence := dss_loadshape.DAILY;
                         dss_loadshape.values := 0%nat |}]
                     [[0; 1]; [1; 1 # 2]]
                     ltac:(repeat constructor; cbn; intuition discriminate))
              2%nat ltac:(repeat constructor))
    as (data_df & E & Hcols & _).
  exists data_df. split; [exact E | exact Hcols].
Defined.

(** ** Labels *)

Lemma get_property_cases (dss : Engine) (name : dss_name.Name) (key : string) :
  (str_contains "property unknown"
     (str_lower (dss ("? " ++ dss_name.object name ++ "." ++ key)%string)) = false
   /\ dss_object.get_property dss name key
      = Ok (dss ("? " ++ dss_name.object name ++ "." ++ key)%string))
  \/ (str_contains "property unknown"
        (str_lower (dss ("? " ++ dss_name.object name ++ "." ++ key)%string)) = true
      /\ dss_object.get_property dss name key = Raise KeyError).
Proof.
  unfold dss_object.get_property, dss_command.run.
  destruct (str_contains _ _); auto.
Qed.

Lemma labels_app_assoc (a b c : label_factory.Labels) :
  labels_app (labels_app a b) c = labels_app a (labels_app b c).
Proof.
  unfold labels_app. cbn. now rewrite <- !app_assoc.
Qed.

Lemma label_step_cases (dss : Engine) (labels : label_factory.Labels)
    (row : dss_load.Load * (dss_loadshape.LoadShape * Z)) :
  (str_contains "property unknown" (str_lower (kv_answer dss (fst row))) = false
   /\ label_factory.label_step dss labels row
      = Ok (labels_app labels (labels_of [row] [kv_answer dss (fst row)])))
  \/ (str_contains "property unknown" (str_lower (kv_answer dss (fst row))) = true
      /\ label_factory.label_step dss labels row = Raise KeyError).
Proof.
  unfold label_factory.label_step.
  destruct (get_property_cases dss (dss_load.name (fst row)) "kv")
    as [[Hk E]|[Hk E]]; rewrite E; cbn [bind]; [left | right];
    (split; [exact Hk|]); reflexivity.
Qed.

Lemma label_loop_closed_form (dss : Engine)
    (rows : list (dss_load.Load * (dss_loadshape.LoadShape * Z))) :
  forall acc labels,
    for_each (label_factory.label_step dss) rows acc = Ok labels ->
    labels = labels_app acc (labels_of rows (map (fun r => kv_answer dss (fst r)) rows))
    /\ Forall (fun r => str_contains "property unknown"
                          (str_lower (kv_answer dss (fst r))) = false) rows.
Proof.
  induction rows as [|row rows IH]; intros acc labels E; cbn [for_each] in E.
  - injection E as <-. split; [|constructor].
    destruct acc. unfold labels_app, labels_of. cbn. now rewrite !app_nil_r.
  - destruct (label_step_cases dss acc row) as [[Hk Es]|[Hk Es]];
      rewrite Es in E; cbn [bind] in E; [|discriminate].
    destruct (IH _ _ E) as [-> HF]. split; [|constructor; assumption].
    rewrite labels_app_assoc. reflexivity.
Qed.

(** X20.  The labels stay aligned with their loads: when the call
    returns, each of the ten lists has one entry per triple of a load, a
    load shape and a random state (as many as the shortest of the three
    lists), and entry [i] of every list describes load [i], load shape [i]
    and random state [i]; the connection is in lower case and [base_kv] is
    the engine's answer, which does not report an unknown property. *)
Theorem load_labels_rows_aligned (dss : Engine) (loads : list dss_load.Load)
    (loadshapes : list dss_loadshape.LoadShape) (random_states : list Z)
    (labels : label_factory.Labels) :
  label_factory.make_load_labels dss loads loadshapes random_states = Ok labels ->
  Forall (fun n => n = Nat.min (List.length loads)
                        (Nat.min (List.length loadshapes)
                                 (List.length random_states)))
         (labels_row_counts labels)
  /\ forall (i : nat) (load : dss_load.Load) (ls : dss_loadshape.LoadShape)
            (rs : Z),
       nth_error loads i = Some load ->
       nth_error loadshapes i = Some ls ->
       nth_error random_states i = Some rs ->
       nth_error (label_factory.load_name labels) i
       = Some (dss_name.object (dss_load.name load))
       /\ nth_error (label_factory.loadshape_name labels) i
          = Some (loadshape_object ls)
       /\ nth_error (label_factory.base_kv labels) i = Some (kv_answer dss load)
       /\ str_contains "property unknown" (str_lower (kv_answer dss load)) = false
       /\ nth_error (label_factory.connection labels) i
          = Some (str_lower (dss_connection.Connection_name
                               (dss_load.connection load)))
       /\ nth_error (label_factory.meter_count labels) i
          = Some (dss_load.meter_count load)
       /\ nth_error (label_factory.phase_count labels) i
          = Some (dss_load.phase_count load)
       /\ nth_error (label_factory.phase_name labels) i
          = Some (dss_phase.Phase_name (dss_load.phase load))
       /\ nth_error (label_factory.phase_value labels) i
          = Some (dss_phase.value (dss_load.phase load))
       /\ nth_error (label_factory.profile_name labels) i
          = Some (dss_loadshape.profile_name ls)
       /\ nth_error (label_factory.random_state labels) i = Some rs.
Proof.
  unfold label_factory.make_load_labels. intros E.
  destruct (label_loop_closed_form dss _ _ _ E) as [-> HF].
  fold (label_rows loads loadshapes random_states) in *.
  assert (Hlen : List.length (label_rows loads loadshapes random_states)
                 = Nat.min (List.length loads)
                     (Nat.min (List.length loadshapes)
                              (List.length random_states))).
  { unfold label_rows. now rewrite !length_combine. }
  split.
  - unfold labels_row_counts, labels_app, labels_of, label_factory.empty_labels.
    cbn [label_factory.base_kv label_factory.connection label_factory.load_name
           label_factory.loadshape_name label_factory.meter_count
           label_factory.phase_count label_factory.phase_name
           label_factory.phase_value label_factory.profile_name
           label_factory.random_state app].
    rewrite !length_map, Hlen. repeat constructor.
  - intros i load ls rs Hl Hs Hr.
    assert (Hrow : nth_error (label_rows loads loadshapes random_states) i
                   = Some (load, (ls, rs))).
    { unfold label_rows. apply nth_error_combine; [exact Hl|].
      apply nth_error_combine; assumption. }
    assert (Hk : str_contains "property unknown"
                   (str_lower (kv_answer dss load)) = false).
    { rewrite Forall_forall in HF.
      apply (HF (load, (ls, rs))). eapply nth_error_In; exact Hrow. }
    unfold labels_app, labels_of, label_factory.empty_labels.
    cbn [label_factory.base_kv label_factory.connection label_factory.load_name
           label_factory.loadshape_name label_factory.meter_count
           label_factory.phase_count label_factory.phase_name
           label_factory.phase_value label_factory.profile_name
           label_factory.random_state app].
    rewrite !nth_error_map, Hrow. cbn [option_map fst snd].
    repeat split; try reflexivity. exact Hk.
Qed.

Lemma load_labels_rows_aligned_witness :
  exists labels : label_factory.Labels,
    label_factory.make_load_labels
      (table_engine (load_answers "a" "Delta" "1" "bus7.2.1" "0.24"))
      [example_load "a" dss_phase.AB]
      [{| dss_loadshape.name :=
            {| dss_name.class_ := "loadshape";
               dss_name.element := "load_a_BUSMEDLF_SCENT" |};
          dss_loadshape.profile_name := "BUSMEDLF_SCENT";
          dss_loadshape.recurrence := dss_loadshape.YEARLY;
          dss_loadshape.values := 0%nat |}]
      [42; 43]%Z = Ok labels
    /\ Forall (fun n => n = 1%nat) (labels_row_counts labels)
    /\ label_factory.base_kv labels = ["0.24"]%string.
Proof.
  eexists. split; [reflexivity|]. split; [|reflexivity].
  exact (proj1 (load_labels_rows_aligned
                  (table_engine (load_answers "a" "Delta" "1" "bus7.2.1" "0.24"))
                  [example_load "a" dss_phase.AB]
                  [{| dss_loadshape.name :=
                        {| dss_name.class_ := "loadshape";
                           dss_name.element := "load_a_BUSMEDLF_SCENT" |};
                      dss_loadshape.profile_name := "BUSMEDLF_SCENT";
                      dss_loadshape.recurrence := dss_loadshape.YEARLY;
                      dss_loadshape.values := 0%nat |}]
                  [42; 43]%Z _ eq_refl)).
Defined.

(** X21.  A load whose [kv] query is answered with an unknown property,
    in any letter case, makes the whole labelling raise [KeyError]; nothing
    else can make it fail. *)
Theorem load_labels_unknown_kv_raises_key_error (dss : Engine)
    (loads : list dss_load.Load) (loadshapes : list dss_loadshape.LoadShape)
    (random_states : list Z) :
  (forall (i : nat) (load : dss_load.Load),
     nth_error loads i = Some load ->
     (i < List.length loadshapes)%nat ->
     (i < List.length random_states)%nat ->
     str_contains "property unknown" (str_lower (kv_answer dss load)) = true ->
     label_factory.make_load_labels dss loads loadshapes random_states
     = Raise KeyError)
  /\ (forall e : exn,
        label_factory.make_load_labels dss loads loadshapes random_states
        = Raise e ->
        e = KeyError).
Proof.
  unfold label_factory.make_load_labels.
  assert (Hbody : forall s row,
            In row (combine loads (combine loadshapes random_states)) ->
            (exists s', label_factory.label_step dss s row = Ok s')
            \/ label_factory.label_step dss s row = Raise KeyError).
  { intros s row _.
    destruct (label_step_cases dss s row) as [[_ E]|[_ E]]; eauto. }
  split.
  - intros i load Hl Hs Hr Hk.
    destruct (nth_error loadshapes i) as [ls|] eqn:Els;
      [|apply nth_error_None in Els; lia].
    destruct (nth_error random_states i) as [rs|] eqn:Ers;
      [|apply nth_error_None in Ers; lia].
    apply for_each_raises; [exact Hbody|].
    exists (load, (ls, rs)). split.
    + apply (nth_error_combine_in loads _ i); [exact Hl|].
      apply nth_error_combine; assumption.
    + intros s. destruct (label_step_cases dss s (load, (ls, rs)))
        as [[Hk' _]|[_ E]]; [cbn [fst] in Hk'; congruence | exact E].
  - intros e E.
    destruct (for_each_ok_or_raise (label_factory.label_step dss) _ KeyError
                Hbody label_factory.empty_labels) as [[s' E']|E']; congruence.
Qed.

(** ** The profile of a load, by its phase *)

Lemma select_from_pool (G : Generator) (G_in_range : draws_in_range G)
    (self : loadshape_prototype.IqrRandomLoadShapePrototype)
    (load : dss_load.Load) (random_state : Z) :
  loadshape_prototype._phase_profile_mapping self
    = loadshape_factory.phase_profile_mapping ->
  exists (profile_index : Z) (profile_name : string),
    loadshape_prototype.select_profile G self load random_state
      = Ok (profile_index, profile_name)
    /\ (0 <= profile_index
          < Z.of_nat (List.length (phase_pool (dss_load.phase load))))%Z
    /\ nth_error (phase_pool (dss_load.phase load)) (Z.to_nat profile_index)
       = Some profile_name
    /\ In profile_name (phase_pool (dss_load.phase load)).
Proof.
  intros Hmap. unfold loadshape_prototype.select_profile. rewrite Hmap.
  unfold phase_pool.
  destruct (loadshape_factory.phase_profile_mapping (dss_load.phase load))
    as [pool|] eqn:Epool; [|destruct (dss_load.phase load); discriminate].
  cbn [bind].
  set (n := Z.of_nat (List.length pool)).
  assert (Hn : (0 < n)%Z).
  { subst n. destruct (dss_load.phase load); injection Epool as <-; cbn; lia. }
  rewrite (integers_ok G _ _ _ Hn). cbn [bind fst].
  pose proof (G_in_range (default_rng G random_state) _ _ Hn) as Hr.
  destruct (list_getitem_in_range pool _ Hr) as (x & Eget & Enth).
  rewrite Eget. cbn [bind].
  exists (fst (bounded_draw G (default_rng G random_state) 0 n)), x.
  split; [reflexivity|]. split; [exact Hr|]. split; [exact Enth|].
  eapply nth_error_In; exact Enth.
Qed.

(** X22.  The profile of a load tells the class of its phase: with the
    factory's mapping the selection always succeeds, the name is the entry
    of the phase's pool at the drawn index, and it is a single-phase wye
    name exactly for the phases A, B, C, a delta name exactly for AB, AC,
    BC, and a three-phase name exactly for ABC. *)
Theorem profile_pool_tells_phase_class
    (G : Generator) (G_in_range : draws_in_range G)
    (self : loadshape_prototype.IqrRandomLoadShapePrototype)
    (load : dss_load.Load) (random_state : Z) :
  loadshape_prototype._phase_profile_mapping self
    = loadshape_factory.phase_profile_mapping ->
  exists (profile_index : Z) (profile_name : string),
    loadshape_prototype.select_profile G self load random_state
      = Ok (profile_index, profile_name)
    /\ nth_error (phase_pool (dss_load.phase load)) (Z.to_nat profile_index)
       = Some profile_name
    /\ (In profile_name loadshape_factory.single_wye
        <-> In (dss_load.phase load) [dss_phase.A; dss_phase.B; dss_phase.C])
    /\ (In profile_name loadshape_factory.single_delta
        <-> In (dss_load.phase load) [dss_phase.AB; dss_phase.AC; dss_phase.BC])
    /\ (In profile_name loadshape_factory.triple
        <-> dss_load.phase load = dss_phase.ABC).
Proof.
  intros Hmap.
  destruct (select_from_pool G G_in_range self load random_state Hmap)
    as (idx & name & E & _ & Enth & Hin).
  exists idx, name. split; [exact E|]. split; [exact Enth|].
  assert (D1 := disjointb_spec loadshape_factory.single_wye
                  loadshape_factory.single_delta eq_refl).
  assert (D2 := disjointb_spec loadshape_factory.single_wye
                  loadshape_factory.triple eq_refl).
  assert (D3 := disjointb_spec loadshape_factory.single_delta
                  loadshape_factory.triple eq_refl).
  unfold phase_pool in Hin.
  destruct (dss_load.phase load);
    cbn [loadshape_factory.phase_profile_mapping] in Hin;
    (split; [|split]); split; intros H;
    try exact Hin; try reflexivity;
    try (cbn [In]; tauto);
    try (exfalso; cbn [In] in H;
         repeat (destruct H as [H|H]; [discriminate|]); exact H);
    try discriminate;
    exfalso;
    first [ exact (D1 name H Hin) | exact (D1 name Hin H)
          | exact (D2 name H Hin) | exact (D2 name Hin H)
          | exact (D3 name H Hin) | exact (D3 name Hin H) ].
Qed.

Lemma profile_pool_tells_phase_class_witness :
  draws_in_range lcg
  /\ exists (profile_index : Z) (profile_name : string),
       loadshape_prototype.select_profile lcg
         (loadshape_factory.make_prototype cycle_normal [] dss_loadshape.YEARLY)
         (example_load "a" dss_phase.AC) 7
       = Ok (profile_index, profile_name)
       /\ In profile_name loadshape_factory.single_delta.
Proof.
  split; [exact lcg_in_range|].
  destruct (profile_pool_tells_phase_class lcg lcg_in_range
              (loadshape_factory.make_prototype cycle_normal []
                 dss_loadshape.YEARLY)
              (example_load "a" dss_phase.AC) 7%Z eq_refl)
    as (i & nm & E & _ & _ & Hd & _).
  exists i, nm. split; [exact E|]. apply Hd. cbn. auto.
Defined.

(** ** The interquartile range of a profile *)

Lemma insert_sorted_sorted (x : Q) (v : list Q) :
  StronglySorted Qle v -> StronglySorted Qle (insert_sorted x v).
Proof.
  induction v as [|y v IH]; intros H; cbn [insert_sorted].
  - constructor; constructor.
  - inversion H as [|? ? Hs Hall]; subst.
    destruct (Qle_bool x y) eqn:E.
    + apply Qle_bool_iff in E. constructor; [exact H|].
      constructor; [exact E|].
      eapply Forall_impl; [|exact Hall]. intros z Hz.
      eapply Qle_trans; eauto.
    + apply Qle_bool_false_iff in E.
      constructor; [apply IH; exact Hs|].
      apply insert_sorted_Forall; [apply Qlt_le_weak; exact E | exact Hall].
Qed.

Lemma sort_sorted (v : list Q) : StronglySorted Qle (sort v).
Proof.
  induction v as [|x v IH]; [constructor|].
  apply insert_sorted_sorted. exact IH.
Qed.

Lemma sorted_nth_le (a : list Q) :
  StronglySorted Qle a ->
  forall i j : nat,
    (i <= j)%nat -> (j < List.length a)%nat -> nth i a 0 <= nth j a 0.
Proof.
  induction 1 as [|x l Hs IH Hall]; intros i j Hij Hj; [cbn in Hj; lia|].
  destruct i as [|i], j as [|j]; cbn [nth]; cbn [List.length] in Hj.
  - apply Qle_refl.
  - apply (nth_Forall (Qle x) l j Hall). lia.
  - lia.
  - apply IH; lia.
Qed.

(** The integer part of a non-negative position, as a list index. *)
Lemma floor_index (vi : Q) :
  0 <= vi ->
  QN (Z.to_nat (Qfloor vi)) <= vi /\ vi < QN (Z.to_nat (Qfloor vi)) + 1.
Proof.
  intros H0.
  assert (Hf : (0 <= Qfloor vi)%Z).
  { rewrite <- (Qfloor_Z 0). apply Qfloor_resp_le. exact H0. }
  rewrite Z2Nat.id by exact Hf.
  split; [apply Qfloor_le|].
  pose proof (Qlt_floor vi) as H. rewrite inject_Z_plus in H. exact H.
Qed.

(** The first quartile is not above the third. *)
Lemma quartiles_ordered (v : list Q) :
  v <> [] ->
  exists p25 p75,
    np_percentile v 25 = Some p25 /\ np_percentile v 75 = Some p75
    /\ p25 <= p75.
Proof.
  intros Hne. unfold np_percentile.
  destruct v as [|x v']; [congruence|].
  set (v := x :: v') in *.
  set (a := sort v).
  assert (Hn : (0 < List.length a)%nat)
    by (subst a; rewrite sort_length; subst v; cbn; lia).
  set (k := (List.length a - 1)%nat).
  set (vi25 := QN k * 25 / 100). set (vi75 := QN k * 75 / 100).
  assert (Hk : 0 <= QN k) by (change 0 with (QN 0); apply QN_le; lia).
  assert (E25 : vi25 == QN k * (1 # 4)) by (subst vi25; field).
  assert (E75 : vi75 == QN k * (3 # 4)) by (subst vi75; field).
  assert (H25 : 0 <= vi25) by (rewrite E25; lra).
  assert (H75 : 0 <= vi75) by (rewrite E75; lra).
  assert (Hle : vi25 <= vi75) by (rewrite E25, E75; lra).
  destruct (floor_index vi25 H25) as [L25 U25].
  destruct (floor_index vi75 H75) as [L75 U75].
  set (lo25 := Z.to_nat (Qfloor vi25)) in *.
  set (lo75 := Z.to_nat (Qfloor vi75)) in *.
  assert (Hlo : (lo25 <= lo75)%nat).
  { subst lo25 lo75. apply Z2Nat.inj_le.
    - rewrite <- (Qfloor_Z 0). apply Qfloor_resp_le. exact H25.
    - rewrite <- (Qfloor_Z 0). apply Qfloor_resp_le. exact H75.
    - apply Qfloor_resp_le. exact Hle. }
  assert (Hb75 : (lo75 <= k)%nat)
    by (apply (quartile_index_bound k 75); now right).
  assert (Hsorted := sorted_nth_le a (sort_sorted v)).
  eexists. eexists. split; [reflexivity|]. split; [reflexivity|].
  set (hi25 := Nat.min (lo25 + 1) k). set (hi75 := Nat.min (lo75 + 1) k).
  assert (A25 : nth lo25 a 0 <= nth hi25 a 0)
    by (apply Hsorted; subst hi25 k; lia).
  assert (A75 : nth lo75 a 0 <= nth hi75 a 0)
    by (apply Hsorted; subst hi75 k; lia).
  destruct (Nat.eq_dec lo25 lo75) as [E|N].
  - subst hi25 hi75. rewrite <- E in *. nra.
  - assert (Amid : nth hi25 a 0 <= nth lo75 a 0)
      by (apply Hsorted; subst hi25 k; lia).
    nra.
Qed.

Lemma zero_center_shift (v : list Q) :
  v <> [] -> exists m, zero_center v = map (fun x => x - m) v
                       /\ m == Qsum v / QN (List.length v).
Proof.
  intros Hne. unfold zero_center, np_mean.
  destruct v as [|x v']; [congruence|].
  eexists. split; reflexivity.
Qed.

(** The IQR of a centred non-empty profile is a number and not negative. *)
Lemma centred_iqr_nonneg (profile : list Q) :
  profile <> [] ->
  exists iqr : Q,
    scipy_stats_iqr (zero_center profile) = Some iqr /\ 0 <= iqr.
Proof.
  intros Hne.
  destruct (zero_center_shift profile Hne) as (m & Ez & _).
  assert (Hne' : zero_center profile <> []).
  { rewrite Ez. destruct profile; [congruence | discriminate]. }
  destruct (quartiles_ordered _ Hne') as (p25 & p75 & E25 & E75 & Hle).
  exists (p75 - p25). unfold scipy_stats_iqr. rewrite E75, E25.
  split; [reflexivity | lra].
Qed.

Lemma make_values_ok (standard_normal : NormalSource) (iqr : Q)
    (n_timestep : nat) (random_state : Z) :
  0 <= iqr ->
  exists random_values,
    loadshape_factory.make_values standard_normal (Some iqr)
      n_timestep random_state = Ok random_values
    /\ List.length random_values = n_timestep.
Proof.
  intros H0. unfold loadshape_factory.make_values, norm_rvs. cbn [option_map].
  assert (Hscale : Qlt_bool (0.1 * iqr) 0 = false).
  { apply Qlt_bool_false_iff.
    assert (H01 : 0 <= 0.1) by discriminate. nra. }
  rewrite Hscale. eexists. split; [reflexivity|].
  now rewrite length_map, length_seq.
Qed.

(** X23.  The scale of the noise is always valid: for a non-empty
    profile the IQR of the centred profile is a number, and it is not
    negative, so that the factory's [make_values] returns its [n_timestep]
    random values and cannot raise. *)
Theorem noise_scale_is_valid (profile : list Q) :
  profile <> [] ->
  exists iqr : Q,
    scipy_stats_iqr (zero_center profile) = Some iqr
    /\ 0 <= iqr
    /\ forall (standard_normal : NormalSource) (n_timestep : nat)
              (random_state : Z),
         exists random_values,
           loadshape_factory.make_values standard_normal (Some iqr)
             n_timestep random_state = Ok random_values
           /\ List.length random_values = n_timestep.
Proof.
  intros Hne.
  destruct (centred_iqr_nonneg profile Hne) as (iqr & E & H0).
  exists iqr. split; [exact E|]. split; [exact H0|].
  intros standard_normal n_timestep random_state.
  apply make_values_ok. exact H0.
Qed.

Lemma noise_scale_is_valid_witness :
  [1; 2; 3; 4] <> []
  /\ exists iqr : Q,
       scipy_stats_iqr (zero_center [1; 2; 3; 4]) = Some iqr /\ 0 <= iqr.
Proof.
  assert (Hne : [1; 2; 3; 4] <> []) by discriminate.
  split; [exact Hne|].
  destruct (noise_scale_is_valid [1; 2; 3; 4] Hne) as (iqr & E & H0 & _).
  exists iqr. split; [exact E | exact H0].
Defined.

Lemma Qle_bool_shift (x y m : Q) : Qle_bool (x - m) (y - m) = Qle_bool x y.
Proof.
  apply Bool.eq_true_iff_eq. rewrite !Qle_bool_iff. split; intros H; lra.
Qed.

Lemma insert_sorted_shift (m x : Q) (v : list Q) :
  insert_sorted (x - m) (map (fun y => y - m) v)
  = map (fun y => y - m) (insert_sorted x v).
Proof.
  induction v as [|y v IH]; [reflexivity|].
  cbn [map insert_sorted]. rewrite Qle_bool_shift.
  destruct (Qle_bool x y); cbn [map]; [reflexivity | now rewrite IH].
Qed.

Lemma sort_shift (m : Q) (v : list Q) :
  sort (map (fun y => y - m) v) = map (fun y => y - m) (sort v).
Proof.
  induction v as [|x v IH]; [reflexivity|].
  cbn [map sort fold_right]. fold (sort v). fold (sort (map (fun y => y - m) v)).
  rewrite IH. apply insert_sorted_shift.
Qed.

Lemma nth_map_shift (m : Q) (a : list Q) (i : nat) :
  (i < List.length a)%nat ->
  nth i (map (fun y => y - m) a) 0 = nth i a 0 - m.
Proof.
  intros Hi.
  rewrite (nth_indep _ 0 ((fun y => y - m) 0)) by (now rewrite length_map).
  apply (map_nth (fun y => y - m)).
Qed.

(** A quartile moves with the samples. *)
Lemma np_percentile_shift (v : list Q) (m q : Q) :
  v <> [] -> q = 25 \/ q = 75 ->
  exists p p',
    np_percentile v q = Some p
    /\ np_percentile (map (fun y => y - m) v) q = Some p'
    /\ p' == p - m.
Proof.
  intros Hne Hq. unfold np_percentile.
  destruct v as [|x v']; [congruence|].
  cbn [map]. change ((x - m) :: map (fun y => y - m) v')
    with (map (fun y => y - m) (x :: v')).
  set (v := x :: v') in *.
  rewrite sort_shift, length_map.
  assert (Hl : (0 < List.length (sort v))%nat)
    by (rewrite sort_length; subst v; cbn; lia).
  pose proof (quartile_index_bound (List.length (sort v) - 1) q Hq) as Hlo.
  eexists. eexists. split; [reflexivity|]. split; [reflexivity|].
  rewrite !nth_map_shift by lia. ring.
Qed.

Lemma Qsum_shift (m : Q) (v : list Q) :
  Qsum (map (fun x => x - m) v) == Qsum v - QN (List.length v) * m.
Proof.
  induction v as [|x v IH].
  - cbn. ring.
  - cbn [map Qsum fold_right List.length]. fold (Qsum v).
    fold (Qsum (map (fun x => x - m) v)). rewrite IH.
    rewrite Nat2Z.inj_succ. unfold Z.succ. rewrite inject_Z_plus. ring.
Qed.

(** X24.  Centering the profile before taking the IQR makes the mean of
    the samples zero and leaves the IQR as it was: the noise has the scale
    of the profile's own IQR. *)
Theorem centering_keeps_iqr (profile : list Q) :
  profile <> [] ->
  exists iqr iqr' : Q,
    scipy_stats_iqr (zero_center profile) = Some iqr
    /\ scipy_stats_iqr profile = Some iqr'
    /\ iqr == iqr'
    /\ Qsum (zero_center profile) == 0.
Proof.
  intros Hne.
  destruct (zero_center_shift profile Hne) as (m & Ez & Em).
  rewrite Ez.
  destruct (np_percentile_shift profile m 75 Hne (or_intror eq_refl))
    as (p75 & p75' & E75 & E75' & H75).
  destruct (np_percentile_shift profile m 25 Hne (or_introl eq_refl))
    as (p25 & p25' & E25 & E25' & H25).
  unfold scipy_stats_iqr. rewrite E75, E25, E75', E25'.
  eexists. eexists. split; [reflexivity|]. split; [reflexivity|].
  split; [rewrite H75, H25; ring|].
  rewrite Qsum_shift, Em. field.
  apply QN_neq_0. destruct profile; [congruence | cbn; lia].
Qed.

Lemma centering_keeps_iqr_witness :
  exists iqr iqr' : Q,
    scipy_stats_iqr (zero_center [1; 2; 3; 4]) = Some iqr
    /\ scipy_stats_iqr [1; 2; 3; 4] = Some iqr'
    /\ iqr == iqr'.
Proof.
  destruct (centering_keeps_iqr [1; 2; 3; 4] ltac:(discriminate))
    as (iqr & iqr' & E & E' & H & _).
  exists iqr, iqr'. auto.
Defined.

(** ** The factory on a complete profile table *)

Section Factory.

Variable G : Generator.
Hypothesis G_in_range : draws_in_range G.
Variable standard_normal : NormalSource.
Variable profiles_df : dict (list Q).
Variable recurrence : dss_loadshape.Recurrence.

(** The series handed to the load shape has one sample per sample of
    the profile. *)
Lemma make_series_ok (profile_name : string) (random_state : Z)
    (profile : list Q) :
  dict_get profiles_df profile_name = Some profile ->
  profile <> [] ->
  exists v,
    loadshape_prototype.make_series
      (loadshape_factory.make_prototype standard_normal profiles_df recurrence)
      profile_name random_state = Ok v
    /\ List.length v = List.length profile.
Proof.
  intros Hget Hne.
  unfold loadshape_prototype.make_series, loadshape_factory.make_prototype.
  cbn [loadshape_prototype._profiles_df loadshape_prototype._make_values].
  unfold dict_getitem. rewrite Hget. cbn [bind].
  destruct (centred_iqr_nonneg profile Hne) as (iqr & Eq & H0).
  rewrite Eq.
  destruct (make_values_ok standard_normal iqr (List.length profile)
              random_state H0) as (noise & En & Hlen).
  rewrite En. cbn [bind]. unfold np_add.
  rewrite Hlen, Nat.eqb_refl.
  eexists. split; [reflexivity|].
  rewrite length_map, length_combine, Hlen. apply Nat.min_id.
Qed.

(** One clone: the store grows by the series, its copy and the scaled
    samples, and the load shape owns the last. *)
Lemma clone_ok (load : dss_load.Load) (random_state : Z) (h : store)
    (profile_index : Z) (profile_name : string) (profile : list Q) :
  loadshape_prototype.select_profile G
    (loadshape_factory.make_prototype standard_normal profiles_df recurrence)
    load random_state = Ok (profile_index, profile_name) ->
  dict_get profiles_df profile_name = Some profile ->
  profile <> [] ->
  exists (v scaled : list Q) (ls : dss_loadshape.LoadShape),
    loadshape_prototype.clone G
      (loadshape_factory.make_prototype standard_normal profiles_df recurrence)
      load random_state h
    = (Ok (edit_command_for load ls, ls), (h ++ [v; v; scaled])%list)
    /\ List.length v = List.length profile
    /\ dss_loadshape.normalize v = Ok scaled
    /\ ls = {| dss_loadshape.name :=
                 {| dss_name.class_ := "loadshape";
                    dss_name.element :=
                      ("load_" ++ dss_name.element (dss_load.name load)
                         ++ "_" ++ profile_name)%string |};
               dss_loadshape.profile_name := profile_name;
               dss_loadshape.recurrence := recurrence;
               dss_loadshape.values := (List.length h + 2)%nat |}.
Proof.
  intros Hsel Hget Hne.
  destruct (make_series_ok profile_name random_state profile Hget Hne)
    as (v & Ev & Hlen).
  assert (Hv : v <> []).
  { intros ->. destruct profile; [congruence | discriminate]. }
  destruct (normalize_nonempty v Hv) as (scaled & En).
  exists v, scaled. eexists. split; [|split; [exact Hlen|split; [exact En|reflexivity]]].
  unfold loadshape_prototype.clone, st_bind, st_lift, new_array.
  rewrite Hsel. cbn [snd]. rewrite Ev.
  rewrite init_unfold by (rewrite length_app; cbn [List.length]; lia).
  unfold init_outcome.
  cbn [loadshape_prototype._n_interpolate loadshape_prototype._recurrence
         loadshape_factory.make_prototype].
  pose proof (deref_new h [v] 0) as Ed. rewrite Nat.add_0_r in Ed.
  rewrite Ed. cbn [deref nth]. rewrite En.
  unfold st_ret, edit_command_for.
  cbn [dss_loadshape.recurrence dss_loadshape.name].
  rewrite length_app. cbn [List.length].
  rewrite <- app_assoc. cbn [app].
  replace (List.length h + 1 + 1)%nat with (List.length h + 2)%nat by lia.
  reflexivity.
Qed.

Lemma loadshape_for_later (h ext : store) (load : dss_load.Load)
    (ls : dss_loadshape.LoadShape) :
  (dss_loadshape.values ls < List.length h)%nat ->
  loadshape_for profiles_df recurrence h load ls ->
  loadshape_for profiles_df recurrence (h ++ ext)%list load ls.
Proof.
  intros Hlt (pn & profile & H). exists pn, profile.
  unfold loadshape_samples in *. rewrite deref_old by exact Hlt. exact H.
Qed.

(** The comprehension over the loads and their random states. *)
Lemma clone_all_ok (items : list (dss_load.Load * Z)) :
  complete_profile_table profiles_df ->
  forall h : store,
  exists (loadshapes : list dss_loadshape.LoadShape) (ext : store),
    st_map (fun p =>
              loadshape_prototype.clone G
                (loadshape_factory.make_prototype standard_normal
                   profiles_df recurrence) (fst p) (snd p))
           items h
    = (Ok (map (fun q => (edit_command_for (fst (fst q)) (snd q), snd q))
               (combine items loadshapes)),
       (h ++ ext)%list)
    /\ List.length loadshapes = List.length items
    /\ Forall (fun ls => (dss_loadshape.values ls
                          < List.length (h ++ ext))%nat) loadshapes
    /\ Forall2 (fun item ls =>
                  loadshape_for profiles_df recurrence (h ++ ext)%list
                    (fst item) ls)
               items loadshapes.
Proof.
  intros Htable. induction items as [|[load rs] items IH]; intros h.
  - exists [], []. cbn [st_map combine map]. unfold st_ret.
    rewrite app_nil_r. repeat split; constructor.
  - cbn [st_map fst snd].
    destruct (select_from_pool G G_in_range
                (loadshape_factory.make_prototype standard_normal
                   profiles_df recurrence) load rs eq_refl)
      as (idx & pn & Esel & _ & _ & Hpool).
    destruct (Htable _ _ Hpool) as (profile & Hget & Hne).
    destruct (clone_ok load rs h idx pn profile Esel Hget Hne)
      as (v & scaled & ls & Ec & Hlen & En & Els).
    destruct (IH (h ++ [v; v; scaled])%list)
      as (lss & ext & Em & Hl & Haddr & Hall).
    exists (ls :: lss), ([v; v; scaled] ++ ext)%list.
    unfold st_bind. rewrite Ec, Em. unfold st_ret.
    rewrite <- !app_assoc in *. cbn [combine map fst snd].
    assert (Hvals : (dss_loadshape.values ls
                     < List.length (h ++ [v; v; scaled]))%nat).
    { rewrite Els, length_app. cbn. lia. }
    split; [reflexivity|]. split; [cbn; now rewrite Hl|].
    split.
    + constructor; [|exact Haddr].
      rewrite app_assoc, length_app. lia.
    + constructor; [|exact Hall].
      rewrite app_assoc. apply loadshape_for_later; [exact Hvals|].
      destruct (normalize_range _ _ En) as (_ & Hsl & Hrange & Hone).
      exists pn, profile. unfold loadshape_samples.
      assert (Ed : deref (h ++ [v; v; scaled])%list
                     (dss_loadshape.values ls) = scaled).
      { rewrite Els. cbn [dss_loadshape.values]. rewrite deref_new.
        reflexivity. }
      rewrite Ed, Els. cbn [dss_loadshape.name dss_loadshape.profile_name
                              dss_loadshape.recurrence].
      repeat split; try assumption; try reflexivity. congruence.
Qed.

End Factory.

(** The factory on a complete profile table, in full. *)
Lemma factory_ok
    (G : Generator) (G_in_range : draws_in_range G)
    (standard_normal : NormalSource) (profiles_df : dict (list Q))
    (loads : list dss_load.Load) (recurrence : dss_loadshape.Recurrence)
    (rng : rng_state G) (h : store) :
  complete_profile_table profiles_df ->
  exists (edit_commands : list string)
         (loadshapes : list dss_loadshape.LoadShape)
         (random_states : list Z) (rng' : rng_state G) (h' : store),
    loadshape_factory.make_ercot_iqr_random_loadshapes G standard_normal
      profiles_df loads recurrence rng h
    = (Ok ((edit_commands, loadshapes, random_states), rng'), h')
    /\ List.length random_states = List.length loads
    /\ Forall2 (loadshape_for profiles_df recurrence h') loads loadshapes
    /\ edit_commands
       = map (fun p => edit_command_for (fst p) (snd p)) (combine loads loadshapes)
    /\ forall a : addr, (a < List.length h)%nat -> deref h' a = deref h a.
Proof.
  intros Htable.
  unfold loadshape_factory.make_ercot_iqr_random_loadshapes,
    loadshape_factory.allocate_random_states.
  destruct (draw_random_states_ok G G_in_range (List.length loads) rng)
    as (seeds & rng' & Ed & Hlen & _).
  unfold st_bind at 1. unfold st_lift. rewrite Ed. cbn [fst snd].
  destruct (clone_all_ok G G_in_range standard_normal profiles_df recurrence
              (combine loads seeds) Htable h)
    as (lss & ext & Em & Hl & _ & Hall).
  unfold st_bind. rewrite Em. unfold st_ret.
  assert (Hll : List.length lss = List.length loads).
  { rewrite Hl, length_combine, Hlen. apply Nat.min_id. }
  assert (Hfst : map fst (combine loads seeds) = loads)
    by (apply combine_fst_same_length; exact Hlen).
  exists (map fst (map (fun q => (edit_command_for (fst (fst q)) (snd q), snd q))
                       (combine (combine loads seeds) lss))),
    (map snd (map (fun q => (edit_command_for (fst (fst q)) (snd q), snd q))
                  (combine (combine loads seeds) lss))),
    seeds, rng', (h ++ ext)%list.
  split; [reflexivity|]. split; [exact Hlen|].
  assert (Hsnd : map snd (map (fun q : dss_load.Load * Z * dss_loadshape.LoadShape =>
                                 (edit_command_for (fst (fst q)) (snd q), snd q))
                              (combine (combine loads seeds) lss)) = lss).
  { rewrite map_map. cbn [snd].
    clear - Hl. revert lss Hl.
    induction (combine loads seeds) as [|x xs IH]; intros [|l lss] Hl;
      cbn in *; try lia; [reflexivity|].
    f_equal. apply IH. lia. }
  rewrite Hsnd.
  split.
  - clear - Hall Hlen. revert seeds lss Hlen Hall.
    induction loads as [|l loads IH]; intros [|s seeds] lss Hlen Hall;
      cbn in *; try lia.
    + inversion Hall. constructor.
    + inversion Hall as [|? ? ? ? H1 H2]; subst. constructor; [exact H1|].
      apply (IH seeds); [lia | exact H2].
  - split.
    + rewrite map_map. cbn [fst].
      clear - Hlen Hll. revert seeds lss Hlen Hll.
      induction loads as [|l loads IH]; intros [|s seeds] [|x lss] Hlen Hll;
        cbn in *; try lia; try reflexivity.
      f_equal. apply (IH seeds); lia.
    + intros a Ha. apply deref_old. exact Ha.
Qed.


(** X25.  On a profile table that holds a non-empty profile under every
    pool name, and with a generator that keeps numpy's range contract, the
    factory returns for every list of loads: one random state and one load
    shape per load, in load order; each load shape is named after its load
    and a profile of the pool of the load's phase, has one sample per
    sample of that profile, all in [[0, 1]] with [1] among them; each edit
    command attaches the load shape to its load; and the arrays that were in
    the store before are untouched. *)
Theorem factory_returns_one_loadshape_per_load
    (G : Generator) (G_in_range : draws_in_range G)
    (standard_normal : NormalSource) (profiles_df : dict (list Q))
    (loads : list dss_load.Load) (recurrence : dss_loadshape.Recurrence)
    (rng : rng_state G) (h : store) :
  complete_profile_table profiles_df ->
  exists (edit_commands : list string)
         (loadshapes : list dss_loadshape.LoadShape)
         (random_states : list Z) (rng' : rng_state G) (h' : store),
    loadshape_factory.make_ercot_iqr_random_loadshapes G standard_normal
      profiles_df loads recurrence rng h
    = (Ok ((edit_commands, loadshapes, random_states), rng'), h')
    /\ List.length random_states = List.length loads
    /\ Forall2 (loadshape_for profiles_df recurrence h') loads loadshapes
    /\ edit_commands
       = map (fun p => edit_command_for (fst p) (snd p)) (combine loads loadshapes)
    /\ forall a : addr, (a < List.length h)%nat -> deref h' a = deref h a.
Proof.
  intros Htable.
  destruct (factory_ok G G_in_range standard_normal profiles_df loads
              recurrence rng h Htable)
    as (cmds & lss & seeds & rng' & h' & E & Hlen & Hall & Hcmds & Hframe).
  exists cmds, lss, seeds, rng', h'.
  split; [exact E|]. split; [exact Hlen|]. split; [exact Hall|].
  split; [exact Hcmds | exact Hframe].
Qed.

Lemma example_profiles_complete : complete_profile_table example_profiles.
Proof.
  intros p profile_name Hin. exists [1; 2; 3; 4].
  split; [|discriminate].
  destruct p; cbn in Hin;
    repeat (destruct Hin as [<-|Hin]; [reflexivity|]); contradiction.
Qed.

Lemma factory_returns_one_loadshape_per_load_witness :
  draws_in_range lcg
  /\ complete_profile_table example_profiles
  /\ exists (edit_commands : list string)
            (loadshapes : list dss_loadshape.LoadShape)
            (random_states : list Z) (rng' : rng_state lcg) (h' : store),
       loadshape_factory.make_ercot_iqr_random_loadshapes lcg cycle_normal
         example_profiles
         [example_load "a" dss_phase.A; example_load "b" dss_phase.ABC]
         dss_loadshape.YEARLY (default_rng lcg 42) []
       = (Ok ((edit_commands, loadshapes, random_states), rng'), h')
       /\ List.length random_states = 2%nat
       /\ Forall2 (loadshape_for example_profiles dss_loadshape.YEARLY h')
            [example_load "a" dss_phase.A; example_load "b" dss_phase.ABC]
            loadshapes.
Proof.
  split; [exact lcg_in_range|]. split; [exact example_profiles_complete|].
  destruct (factory_returns_one_loadshape_per_load lcg lcg_in_range
              cycle_normal example_profiles
              [example_load "a" dss_phase.A; example_load "b" dss_phase.ABC]
              dss_loadshape.YEARLY (default_rng lcg 42) []
              example_profiles_complete)
    as (cmds & lss & seeds & rng' & h' & E & Hlen & Hall & _).
  exists cmds, lss, seeds, rng', h'. auto.
Defined.

Example two_loadshapes_of_the_factory :
  exists rng' h',
    loadshape_factory.make_ercot_iqr_random_loadshapes lcg cycle_normal
      example_profiles
      [example_load "a" dss_phase.A; example_load "b" dss_phase.ABC]
      dss_loadshape.YEARLY (default_rng lcg 42) []
    = (Ok ((["load.a.yearly=load_a_RESLOPV_SCENT";
             "load.b.yearly=load_b_BUSHIWD_SCENT"]%string,
            [{| dss_loadshape.name :=
                  {| dss_name.class_ := "loadshape";
                     dss_name.element := "load_a_RESLOPV_SCENT" |};
                dss_loadshape.profile_name := "RESLOPV_SCENT";
                dss_loadshape.recurrence := dss_loadshape.YEARLY;
                dss_loadshape.values := 2%nat |};
             {| dss_loadshape.name :=
                  {| dss_name.class_ := "loadshape";
                     dss_name.element := "load_b_BUSHIWD_SCENT" |};
                dss_loadshape.profile_name := "BUSHIWD_SCENT";
                dss_loadshape.recurrence := dss_loadshape.YEARLY;
                dss_loadshape.values := 5%nat |}],
            [42; 719156366]%Z), rng'), h').
Proof.
  eexists. eexists. vm_compute. reflexivity.
Qed.

(** ** Clones that fail, and clones of random load shapes *)

(** X26.  A selected profile that the table does not hold makes the
    clone raise [KeyError]; one that the table holds without any sample
    makes it raise [ValueError] (the IQR of nothing is NaN, which the noise
    generator refuses as a scale).  In both cases the store is as
    before. *)
Theorem clone_profile_errors (G : Generator)
    (standard_normal : NormalSource) (profiles_df : dict (list Q))
    (recurrence : dss_loadshape.Recurrence) (load : dss_load.Load)
    (random_state : Z) (h : store) (profile_index : Z) (profile_name : string) :
  loadshape_prototype.select_profile G
    (loadshape_factory.make_prototype standard_normal profiles_df recurrence)
    load random_state = Ok (profile_index, profile_name) ->
  (dict_get profiles_df profile_name = None ->
   loadshape_prototype.clone G
     (loadshape_factory.make_prototype standard_normal profiles_df recurrence)
     load random_state h = (Raise KeyError, h))
  /\ (dict_get profiles_df profile_name = Some [] ->
      loadshape_prototype.clone G
        (loadshape_factory.make_prototype standard_normal profiles_df recurrence)
        load random_state h = (Raise ValueError, h)).
Proof.
  intros Hsel.
  split; intros Hget;
    unfold loadshape_prototype.clone, st_bind, st_lift;
    rewrite Hsel; cbn [snd];
    unfold loadshape_prototype.make_series, dict_getitem;
    cbn [loadshape_prototype._profiles_df loadshape_factory.make_prototype];
    rewrite Hget; reflexivity.
Qed.

Lemma clone_profile_errors_witness :
  loadshape_prototype.clone lcg
    (loadshape_factory.make_prototype cycle_normal [] dss_loadshape.YEARLY)
    (example_load "a" dss_phase.ABC) 7 [[2; 3]]
  = (Raise KeyError, [[2; 3]])
  /\ loadshape_prototype.clone lcg
       (loadshape_factory.make_prototype cycle_normal
          [("BUSHIDG_SCENT"%string, [])] dss_loadshape.YEARLY)
       (example_load "a" dss_phase.ABC) 7 [[2; 3]]
     = (Raise ValueError, [[2; 3]]).
Proof.
  split.
  - apply (proj1 (clone_profile_errors lcg cycle_normal []
                    dss_loadshape.YEARLY (example_load "a" dss_phase.ABC) 7
                    [[2; 3]] 3 "BUSHIDG_SCENT" eq_refl)).
    reflexivity.
  - apply (proj2 (clone_profile_errors lcg cycle_normal
                    [("BUSHIDG_SCENT"%string, [])]
                    dss_loadshape.YEARLY (example_load "a" dss_phase.ABC) 7
                    [[2; 3]] 3 "BUSHIDG_SCENT" eq_refl)).
    reflexivity.
Defined.

(** X27.  A clone of the prototype of purely random load shapes: it is
    named after the load alone, its profile name is the decimal numeral of
    the random state (so that different random states give different
    profile names, and the numeral reads back as the random state), and its
    samples are the scaled random values; without any random value the
    scaling raises [ValueError]. *)
Theorem random_prototype_clone
    (self : loadshape_prototype.RandomLoadShapePrototype.t)
    (load : dss_load.Load) (random_state : Z) (h : store) (v : list Q) :
  loadshape_prototype.RandomLoadShapePrototype._make_values self
    (loadshape_prototype.RandomLoadShapePrototype._n_timestep self)
    random_state = Ok v ->
  (v = [] ->
   fst (loadshape_prototype.RandomLoadShapePrototype.clone self load
          random_state h) = Raise ValueError)
  /\ (v <> [] ->
      exists (scaled : list Q) (ls : dss_loadshape.LoadShape),
        loadshape_prototype.RandomLoadShapePrototype.clone self load
          random_state h
        = (Ok (edit_command_for load ls, ls), (h ++ [v; v; scaled])%list)
        /\ dss_loadshape.normalize v = Ok scaled
        /\ loadshape_samples (h ++ [v; v; scaled])%list ls = scaled
        /\ dss_loadshape.name ls
           = {| dss_name.class_ := "loadshape";
                dss_name.element :=
                  ("load_" ++ dss_name.element (dss_load.name load))%string |}
        /\ dss_loadshape.recurrence ls
           = loadshape_prototype.RandomLoadShapePrototype._recurrence self
        /\ NilZero.int_of_string (dss_loadshape.profile_name ls)
           = Some (Z.to_int random_state)
        /\ forall random_state' : Z,
             py_str_int random_state' = dss_loadshape.profile_name ls ->
             random_state' = random_state).
Proof.
  intros Ev.
  assert (Hunfold :
            loadshape_prototype.RandomLoadShapePrototype.clone self load
              random_state h
            = match dss_loadshape.normalize v with
              | Ok scaled =>
                  let ls :=
                    {| dss_loadshape.name :=
                         {| dss_name.class_ := "loadshape";
                            dss_name.element :=
                              ("load_" ++ dss_name.element (dss_load.name load))%string |};
                       dss_loadshape.profile_name := py_str_int random_state;
                       dss_loadshape.recurrence :=
                         loadshape_prototype.RandomLoadShapePrototype._recurrence self;
                       dss_loadshape.values := (List.length h + 2)%nat |} in
                  (Ok (edit_command_for load ls, ls), (h ++ [v; v; scaled])%list)
              | Raise e => (Raise e, (h ++ [v; v])%list)
              end).
  { unfold loadshape_prototype.RandomLoadShapePrototype.clone, st_bind,
      st_lift, new_array.
    rewrite Ev.
    rewrite init_unfold by (rewrite length_app; cbn [List.length]; lia).
    unfold init_outcome.
    pose proof (deref_new h [v] 0) as Ed. rewrite Nat.add_0_r in Ed.
    rewrite Ed. cbn [deref nth].
    destruct (dss_loadshape.normalize v) as [scaled|e].
    - unfold st_ret, edit_command_for.
      cbn [dss_loadshape.recurrence dss_loadshape.name].
      rewrite length_app. cbn [List.length].
      rewrite <- app_assoc. cbn [app].
      replace (List.length h + 1 + 1)%nat with (List.length h + 2)%nat by lia.
      reflexivity.
    - rewrite <- app_assoc. reflexivity. }
  rewrite Hunfold. split.
  - intros ->. reflexivity.
  - intros Hne. destruct (normalize_nonempty v Hne) as (scaled & En).
    rewrite En. eexists. eexists. split; [reflexivity|].
    cbn [dss_loadshape.name dss_loadshape.recurrence dss_loadshape.profile_name].
    split; [reflexivity|]. split.
    { unfold loadshape_samples. cbn [dss_loadshape.values].
      rewrite deref_new. reflexivity. }
    split; [reflexivity|]. split; [reflexivity|].
    split; [apply py_str_int_parse|].
    intros rs' E. apply py_str_int_inj. exact E.
Qed.

Lemma random_prototype_clone_witness :
  exists (scaled : list Q) (ls : dss_loadshape.LoadShape),
    loadshape_prototype.RandomLoadShapePrototype.clone
      {| loadshape_prototype.RandomLoadShapePrototype._make_values :=
           fun n_timestep random_state =>
             norm_rvs cycle_normal 0 (Some 1) n_timestep random_state;
         loadshape_prototype.RandomLoadShapePrototype._recurrence :=
           dss_loadshape.DAILY;
         loadshape_prototype.RandomLoadShapePrototype._n_timestep := 3 |}
      (example_load "a" dss_phase.A) (-15) []
    = (Ok (edit_command_for (example_load "a" dss_phase.A) ls, ls),
       [[1 # 2; - (3 # 4); 1 # 4]; [1 # 2; - (3 # 4); 1 # 4]; scaled])
    /\ dss_loadshape.profile_name ls = "-15"%string.
Proof.
  destruct (proj2 (random_prototype_clone
                     {| loadshape_prototype.RandomLoadShapePrototype._make_values :=
                          fun n_timestep random_state =>
                            norm_rvs cycle_normal 0 (Some 1) n_timestep random_state;
                        loadshape_prototype.RandomLoadShapePrototype._recurrence :=
                          dss_loadshape.DAILY;
                        loadshape_prototype.RandomLoadShapePrototype._n_timestep := 3 |}
                     (example_load "a" dss_phase.A) (-15) []
                     [1 # 2; - (3 # 4); 1 # 4] eq_refl)
              ltac:(discriminate))
    as (scaled & ls & E & _ & _ & _ & _ & Hparse & _).
  exists scaled, ls. split; [exact E|].
  apply NilZero.sis in Hparse. symmetry. exact Hparse.
Defined.

(** ** From the factory to the table of load shapes *)

Lemma pool_name_shape (p : dss_phase.Phase) (profile_name : string) :
  In profile_name (phase_pool p) ->
  (String.length profile_name = 13%nat \/ String.length profile_name = 14%nat)
  /\ forall rest, profile_name <> String "_" rest.
Proof.
  intros Hin.
  destruct p; cbn in Hin;
    repeat (destruct Hin as [<-|Hin];
            [split; [cbn; auto | intros rest E; discriminate]|]);
    contradiction.
Qed.

(** The name of a load shape tells the load and the profile apart: no
    pool name starts with the joining underscore. *)
Lemma loadshape_element_inj (el1 el2 pn1 pn2 : string)
    (p1 p2 : dss_phase.Phase) :
  In pn1 (phase_pool p1) -> In pn2 (phase_pool p2) ->
  (el1 ++ "_" ++ pn1 = el2 ++ "_" ++ pn2)%string ->
  el1 = el2 /\ pn1 = pn2.
Proof.
  intros H1 H2 E.
  destruct (pool_name_shape p1 pn1 H1) as [L1 S1].
  destruct (pool_name_shape p2 pn2 H2) as [L2 S2].
  assert (Hsame : String.length pn1 = String.length pn2 -> el1 = el2 /\ pn1 = pn2).
  { intros Hl.
    assert (E' : ((el1 ++ "_") ++ pn1 = (el2 ++ "_") ++ pn2)%string)
      by (rewrite !str_app_assoc; exact E).
    destruct (str_app_inj_tail _ _ _ _ Hl E') as [Ee Ep].
    split; [|exact Ep].
    apply (str_app_inj_tail el1 el2 "_" "_" eq_refl Ee). }
  destruct L1 as [L1|L1], L2 as [L2|L2]; try (apply Hsame; congruence).
  - exfalso.
    assert (E' : (el1 ++ ("_" ++ pn1) = (el2 ++ "_") ++ pn2)%string)
      by (rewrite str_app_assoc; exact E).
    assert (Hl : String.length ("_" ++ pn1) = String.length pn2)
      by (cbn [String.append String.length]; congruence).
    destruct (str_app_inj_tail _ _ _ _ Hl E') as [_ Ep].
    exact (S2 pn1 (eq_sym Ep)).
  - exfalso.
    assert (E' : ((el1 ++ "_") ++ pn1 = el2 ++ ("_" ++ pn2))%string)
      by (rewrite str_app_assoc; exact E).
    assert (Hl : String.length pn1 = String.length ("_" ++ pn2))
      by (cbn [String.append String.length]; congruence).
    destruct (str_app_inj_tail _ _ _ _ Hl E') as [_ Ep].
    exact (S1 pn2 Ep).
Qed.

Lemma Forall2_in_r {A B : Type} (R : A -> B -> Prop) (xs : list A)
    (ys : list B) (y : B) :
  Forall2 R xs ys -> In y ys -> exists x, In x xs /\ R x y.
Proof.
  induction 1 as [|x0 y0 xs ys HR _ IH]; intros Hin; [contradiction|].
  destruct Hin as [<-|Hin].
  - exists x0. split; [now left | exact HR].
  - destruct (IH Hin) as (x & Hx & Hxy). exists x. split; [now right | exact Hxy].
Qed.

(** Loads of different element names get load shapes of different object
    names. *)
Lemma factory_names_distinct (profiles_df : dict (list Q))
    (recurrence : dss_loadshape.Recurrence) (h : store)
    (loads : list dss_load.Load) (loadshapes : list dss_loadshape.LoadShape) :
  Forall2 (loadshape_for profiles_df recurrence h) loads loadshapes ->
  NoDup (map (fun load => dss_name.element (dss_load.name load)) loads) ->
  NoDup (map loadshape_object loadshapes).
Proof.
  induction 1 as [|load ls loads lss HR Hall IH]; intros Hnd; [constructor|].
  cbn [map] in *. inversion Hnd as [|? ? Hnot Hrest]; subst.
  constructor; [|apply IH; exact Hrest].
  intros Hin. apply in_map_iff in Hin. destruct Hin as (ls' & Eobj & Hls').
  destruct (Forall2_in_r _ _ _ _ Hall Hls') as (load' & Hload' & HR').
  destruct HR as (pn & profile & Hp & _ & En & _).
  destruct HR' as (pn' & profile' & Hp' & _ & En' & _).
  unfold loadshape_object, dss_name.object in Eobj. rewrite En, En' in Eobj.
  cbn [dss_name.class_ dss_name.element] in Eobj.
  injection Eobj as Eobj.
  destruct (loadshape_element_inj _ _ _ _ _ _ Hp' Hp Eobj) as [Eel _].
  apply Hnot. rewrite <- Eel.
  apply (in_map (fun load => dss_name.element (dss_load.name load))).
  exact Hload'.
Qed.

Lemma make_loadshape_data_closed_form
    (loadshapes : list dss_loadshape.LoadShape) (h : store) (n : nat) :
  NoDup (map loadshape_object loadshapes) ->
  Forall (fun ls => List.length (loadshape_samples h ls) = n) loadshapes ->
  data_factory.make_loadshape_data loadshapes h
  = Ok (map (fun ls => (loadshape_object ls, loadshape_samples h ls)) loadshapes).
Proof.
  intros Hnd Hn. unfold data_factory.make_loadshape_data.
  rewrite (fold_left_set_map loadshape_object (loadshape_samples h)).
  rewrite dict_set_all_fresh
    by (cbn [dict_keys map app]; now rewrite map_map).
  cbn [app]. apply (pd_DataFrame_ok _ n).
  apply Forall_map. cbn [snd]. exact Hn.
Qed.

(** X28.  The factory and the table of load shapes fit together: for
    loads of pairwise different element names, a complete profile table
    whose profiles all have [n] samples (the columns of one data frame) and
    a generator that keeps its range contract, the load shapes the factory
    returns always make a table; it has one column per load, in load order,
    under the load shape's object name, with [n] samples each, all in
    [[0, 1]]. *)
Theorem factory_loadshapes_make_a_table
    (G : Generator) (G_in_range : draws_in_range G)
    (standard_normal : NormalSource) (profiles_df : dict (list Q))
    (loads : list dss_load.Load) (recurrence : dss_loadshape.Recurrence)
    (rng : rng_state G) (h : store) (n : nat) :
  complete_profile_table profiles_df ->
  (forall profile_name profile,
     dict_get profiles_df profile_name = Some profile ->
     List.length profile = n) ->
  NoDup (map (fun load => dss_name.element (dss_load.name load)) loads) ->
  exists (edit_commands : list string)
         (loadshapes : list dss_loadshape.LoadShape)
         (random_states : list Z) (rng' : rng_state G) (h' : store)
         (data_df : data_factory.DataFrame),
    loadshape_factory.make_ercot_iqr_random_loadshapes G standard_normal
      profiles_df loads recurrence rng h
    = (Ok ((edit_commands, loadshapes, random_states), rng'), h')
    /\ data_factory.make_loadshape_data loadshapes h' = Ok data_df
    /\ data_factory.columns data_df = map loadshape_object loadshapes
    /\ List.length (data_factory.columns data_df) = List.length loads
    /\ NoDup (data_factory.columns data_df)
    /\ Forall (fun column =>
                 List.length (snd column) = n
                 /\ Forall (fun s => 0 <= s <= 1) (snd column))
              data_df.
Proof.
  intros Htable Hrows Hnd.
  destruct (factory_ok G G_in_range standard_normal profiles_df loads
              recurrence rng h Htable)
    as (cmds & lss & seeds & rng' & h' & E & Hlen & Hall & _ & _).
  assert (Hnames := factory_names_distinct _ _ _ _ _ Hall Hnd).
  assert (Hsamples : Forall (fun ls =>
                               List.length (loadshape_samples h' ls) = n
                               /\ Forall (fun s => 0 <= s <= 1)
                                         (loadshape_samples h' ls)) lss).
  { apply Forall_forall. intros ls Hls.
    destruct (Forall2_in_r _ _ _ _ Hall Hls)
      as (load & _ & pn & profile & _ & Hget & _ & _ & _ & Hl & Hr & _).
    split; [|exact Hr]. rewrite Hl. exact (Hrows pn profile Hget). }
  assert (Hn : Forall (fun ls => List.length (loadshape_samples h' ls) = n) lss).
  { eapply Forall_impl; [|exact Hsamples]. intros ls [H _]. exact H. }
  exists cmds, lss, seeds, rng', h',
    (map (fun ls => (loadshape_object ls, loadshape_samples h' ls)) lss).
  split; [exact E|].
  split; [exact (make_loadshape_data_closed_form lss h' n Hnames Hn)|].
  assert (Hcols : data_factory.columns
                    (map (fun ls => (loadshape_object ls,
                                     loadshape_samples h' ls)) lss)
                  = map loadshape_object lss).
  { unfold data_factory.columns, dict_keys. now rewrite map_map. }
  rewrite Hcols.
  split; [reflexivity|]. split.
  { rewrite length_map. symmetry. eapply Forall2_length. exact Hall. }
  split; [exact Hnames|].
  apply Forall_map. cbn [snd]. exact Hsamples.
Qed.

Lemma factory_loadshapes_make_a_table_witness :
  exists (edit_commands : list string)
         (loadshapes : list dss_loadshape.LoadShape)
         (random_states : list Z) (rng' : rng_state lcg) (h' : store)
         (data_df : data_factory.DataFrame),
    loadshape_factory.make_ercot_iqr_random_loadshapes lcg cycle_normal
      example_profiles
      [example_load "a" dss_phase.A; example_load "b" dss_phase.ABC]
      dss_loadshape.YEARLY (default_rng lcg 42) []
    = (Ok ((edit_commands, loadshapes, random_states), rng'), h')
    /\ data_factory.make_loadshape_data loadshapes h' = Ok data_df
    /\ List.length (data_factory.columns data_df) = 2%nat.
Proof.
  assert (Hrows : forall profile_name profile,
             dict_get example_profiles profile_name = Some profile ->
             List.length profile = 4%nat).
  { intros pn profile Hget. apply dict_get_in in Hget.
    unfold example_profiles in Hget. apply in_map_iff in Hget.
    destruct Hget as (x & Ex & _). now injection Ex as _ <-. }
  assert (Hnd : NoDup (map (fun load => dss_name.element (dss_load.name load))
                         [example_load "a" dss_phase.A;
                          example_load "b" dss_phase.ABC])).
  { repeat constructor; cbn; intuition discriminate. }
  destruct (factory_loadshapes_make_a_table lcg lcg_in_range cycle_normal
              example_profiles
              [example_load "a" dss_phase.A; example_load "b" dss_phase.ABC]
              dss_loadshape.YEARLY (default_rng lcg 42) [] 4%nat
              example_profiles_complete Hrows Hnd)
    as (cmds & lss & seeds & rng' & h' & df & E & Edf & _ & Hl & _).
  exists cmds, lss, seeds, rng', h', df. auto.
Defined.

(** ** Read-outs as the aggregation expects them, and labels of the
    factory's load shapes *)

Lemma make_data_of_fields (i_monitors : dss_monitor.MonitorsInterface)
    (name : dss_name.Name) (md : dss_monitor.MonitorData) :
  dss_monitor.make_data_of i_monitors name = Ok md ->
  shape0 (dss_monitor.data md) = dss_monitor.SampleCount i_monitors
  /\ shape1 (dss_monitor.data md) = S (dss_monitor.NumChannels i_monitors)
  /\ dss_monitor.channel_names md
     = names_of_header (dss_monitor.Header i_monitors).
Proof.
  unfold dss_monitor.make_data_of. intros E.
  destruct (dss_monitor.assign_column _ (dss_monitor.dblHour i_monitors))
    as [column0|e]; [|discriminate].
  cbn [bind] in E.
  destruct (map_result _ (seq 1 (dss_monitor.NumChannels i_monitors)))
    as [columns|e]; [|discriminate].
  cbn [bind] in E. injection E as <-.
  cbn [dss_monitor.data dss_monitor.channel_names shape0 shape1].
  split; [reflexivity|]. split; [apply Nat.add_1_r | reflexivity].
Qed.

(** X29.  When is a read-out of [make_data] what the aggregations
    expect?  It has one matrix column per channel name exactly when the
    interface reports as many header names as channels; its sample count is
    the interface's; and it names a channel exactly when that is ["hours"]
    or a header name with its spaces removed. *)
Theorem read_out_is_well_shaped
    (i_monitors : dss_monitor.MonitorsInterface) (name : dss_name.Name)
    (md : dss_monitor.MonitorData) :
  dss_monitor.make_data_of i_monitors name = Ok md ->
  (monitor_well_shaped {| dss_monitor.name := name; dss_monitor.make_data := md |}
   <-> List.length (dss_monitor.Header i_monitors)
       = dss_monitor.NumChannels i_monitors)
  /\ sample_count {| dss_monitor.name := name; dss_monitor.make_data := md |}
     = dss_monitor.SampleCount i_monitors
  /\ forall channels : list string,
       has_channels channels
         {| dss_monitor.name := name; dss_monitor.make_data := md |}
       <-> forall ch, In ch channels ->
             ch = "hours"%string
             \/ exists header_name,
                  In header_name (dss_monitor.Header i_monitors)
                  /\ str_remove " " header_name = ch.
Proof.
  intros E. destruct (make_data_of_fields _ _ _ E) as (H0 & H1 & Hn).
  unfold monitor_well_shaped, sample_count, has_channels.
  cbn [dss_monitor.make_data]. rewrite H0, H1, Hn.
  unfold names_of_header. cbn [map List.length]. rewrite length_map.
  split; [split; intros H; lia|]. split; [reflexivity|].
  intros channels. split; intros H ch Hch; specialize (H ch Hch).
  - destruct H as [H|H]; [left; now rewrite <- H|].
    right. apply in_map_iff in H. destruct H as (h & Eh & Hin). eauto.
  - destruct H as [->|(h & Hin & <-)]; [now left|].
    right. apply in_map_iff. eauto.
Qed.

Lemma read_out_is_well_shaped_witness :
  exists md,
    dss_monitor.make_data_of (example_interface 2)
      {| dss_name.class_ := "monitor"; dss_name.element := "m" |} = Ok md
    /\ monitor_well_shaped
         {| dss_monitor.name :=
              {| dss_name.class_ := "monitor"; dss_name.element := "m" |};
            dss_monitor.make_data := md |}
    /\ has_channels data_factory.all_channels
         {| dss_monitor.name :=
              {| dss_name.class_ := "monitor"; dss_name.element := "m" |};
            dss_monitor.make_data := md |}.
Proof.
  eexists. split; [reflexivity|].
  destruct (read_out_is_well_shaped (example_interface 2)
              {| dss_name.class_ := "monitor"; dss_name.element := "m" |}
              _ eq_refl) as (Hshape & _ & Hch).
  split; [apply Hshape; reflexivity|].
  apply Hch. intros ch Hin. right. cbn in Hin.
  destruct Hin as [<-|[<-|[<-|[]]]];
    [exists " V1"%string | exists " V2"%string | exists " V3"%string];
    cbn; auto.
Defined.

Lemma label_loop_ok (dss : Engine)
    (rows : list (dss_load.Load * (dss_loadshape.LoadShape * Z))) :
  Forall (fun r => str_contains "property unknown"
                     (str_lower (kv_answer dss (fst r))) = false) rows ->
  forall acc,
    for_each (label_factory.label_step dss) rows acc
    = Ok (labels_app acc
            (labels_of rows (map (fun r => kv_answer dss (fst r)) rows))).
Proof.
  induction 1 as [|row rows Hk _ IH]; intros acc; cbn [for_each].
  - f_equal. destruct acc. unfold labels_app, labels_of. cbn.
    now rewrite !app_nil_r.
  - destruct (label_step_cases dss acc row) as [[_ Es]|[Hk' _]];
      [|congruence].
    rewrite Es. cbn [bind]. rewrite IH. now rewrite labels_app_assoc.
Qed.

Lemma map_combine_fst {A B C : Type} (f : A -> C) (xs : list A) :
  forall ys : list B,
    List.length ys = List.length xs ->
    map (fun r => f (fst r)) (combine xs ys) = map f xs.
Proof.
  induction xs as [|x xs IH]; intros [|y ys] Hl; cbn in *; try lia;
    [reflexivity|]. f_equal. apply IH. lia.
Qed.

Lemma map_combine_snd {A B C : Type} (g : B -> C) (xs : list A) :
  forall ys : list B,
    List.length ys = List.length xs ->
    map (fun r => g (snd r)) (combine xs ys) = map g ys.
Proof.
  induction xs as [|x xs IH]; intros [|y ys] Hl; cbn in *; try lia;
    [reflexivity|]. f_equal. apply IH. lia.
Qed.

(** X30.  The labels of the factory's load shapes are consistent: with
    a complete profile table, a generator that keeps its range contract and
    an engine that knows the [kv] of every load, the factory's result always
    gives a labels table with one row per load, whose random states are the
    allocated ones, whose load-shape names are those of the load shapes, and
    whose profile name in each row is a name of the pool of the phase in
    the same row. *)
Theorem factory_labels_consistent
    (G : Generator) (G_in_range : draws_in_range G)
    (standard_normal : NormalSource) (profiles_df : dict (list Q))
    (loads : list dss_load.Load) (recurrence : dss_loadshape.Recurrence)
    (rng : rng_state G) (h : store) (dss : Engine) :
  complete_profile_table profiles_df ->
  Forall (fun load => str_contains "property unknown"
                        (str_lower (kv_answer dss load)) = false) loads ->
  exists (edit_commands : list string)
         (loadshapes : list dss_loadshape.LoadShape)
         (random_states : list Z) (rng' : rng_state G) (h' : store)
         (labels : label_factory.Labels),
    loadshape_factory.make_ercot_iqr_random_loadshapes G standard_normal
      profiles_df loads recurrence rng h
    = (Ok ((edit_commands, loadshapes, random_states), rng'), h')
    /\ label_factory.make_load_labels dss loads loadshapes random_states
       = Ok labels
    /\ Forall (fun n => n = List.length loads) (labels_row_counts labels)
    /\ label_factory.random_state labels = random_states
    /\ label_factory.loadshape_name labels = map loadshape_object loadshapes
    /\ label_factory.phase_name labels
       = map (fun load => dss_phase.Phase_name (dss_load.phase load)) loads
    /\ Forall2 (fun load profile_name =>
                  In profile_name (phase_pool (dss_load.phase load)))
               loads (label_factory.profile_name labels).
Proof.
  intros Htable Hkv.
  destruct (factory_ok G G_in_range standard_normal profiles_df loads
              recurrence rng h Htable)
    as (cmds & lss & seeds & rng' & h' & E & Hlen & Hall & _ & _).
  assert (Hll : List.length lss = List.length loads)
    by (symmetry; eapply Forall2_length; exact Hall).
  assert (Hcl : List.length (combine lss seeds) = List.length loads)
    by (rewrite length_combine, Hll, Hlen; apply Nat.min_id).
  assert (Hsl : List.length seeds = List.length lss) by congruence.
  assert (Hrows : Forall (fun r => str_contains "property unknown"
                                     (str_lower (kv_answer dss (fst r))) = false)
                         (combine loads (combine lss seeds))).
  { apply Forall_forall. intros [l q] Hin. cbn [fst].
    rewrite Forall_forall in Hkv. apply Hkv. eapply in_combine_l; exact Hin. }
  eexists cmds, lss, seeds, rng', h', _.
  split; [exact E|].
  split; [unfold label_factory.make_load_labels;
          apply (label_loop_ok dss _ Hrows)|].
  unfold labels_row_counts, labels_app, labels_of, label_factory.empty_labels.
  cbn [label_factory.base_kv label_factory.connection label_factory.load_name
         label_factory.loadshape_name label_factory.meter_count
         label_factory.phase_count label_factory.phase_name
         label_factory.phase_value label_factory.profile_name
         label_factory.random_state app].
  split.
  { rewrite !length_map, length_combine, Hcl, Nat.min_id. repeat constructor. }
  split.
  { rewrite (map_combine_snd (fun q : dss_loadshape.LoadShape * Z => snd q)
               loads _ Hcl).
    rewrite (map_combine_snd (fun z : Z => z) lss seeds Hsl).
    apply map_id. }
  split.
  { rewrite (map_combine_snd
               (fun q : dss_loadshape.LoadShape * Z => loadshape_object (fst q))
               loads _ Hcl).
    apply (map_combine_fst loadshape_object lss seeds Hsl). }
  split.
  { apply (map_combine_fst
             (fun load => dss_phase.Phase_name (dss_load.phase load))
             loads _ Hcl). }
  rewrite (map_combine_snd
             (fun q : dss_loadshape.LoadShape * Z =>
                dss_loadshape.profile_name (fst q)) loads _ Hcl).
  rewrite (map_combine_fst dss_loadshape.profile_name lss seeds Hsl).
  clear - Hall. induction Hall as [|load ls loads lss HR _ IH];
    cbn [map]; constructor; [|exact IH].
  destruct HR as (pn & profile & Hp & _ & _ & Epn & _). now rewrite Epn.
Qed.

Lemma factory_labels_consistent_witness :
  exists (loadshapes : list dss_loadshape.LoadShape)
         (random_states : list Z) (labels : label_factory.Labels),
    label_factory.make_load_labels
      (table_engine (load_answers "a" "wye" "1" "bus7.2" "0.24"))
      [example_load "a" dss_phase.B] loadshapes random_states = Ok labels
    /\ label_factory.random_state labels = random_states
    /\ Forall2 (fun load profile_name =>
                  In profile_name (phase_pool (dss_load.phase load)))
               [example_load "a" dss_phase.B]
               (label_factory.profile_name labels).
Proof.
  destruct (factory_labels_consistent lcg lcg_in_range cycle_normal
              example_profiles [example_load "a" dss_phase.B]
              dss_loadshape.YEARLY (default_rng lcg 42) []
              (table_engine (load_answers "a" "wye" "1" "bus7.2" "0.24"))
              example_profiles_complete
              ltac:(repeat constructor))
    as (cmds & lss & seeds & rng' & h' & labels & _ & El & _ & Hr & _ & _ & Hp).
  exists lss, seeds, labels. auto.
Defined.
